(** * The data-merge pipeline of the file vault, embedded in Rocq

    The embedding follows [src/components/SettingsPage.tsx] (the
    [DetailSidebar] component: [searchDeviceInStorage], [processData],
    [parseAndLoadDataFile], [handleMerge] and the handlers of the saved
    data files; the upload dialog; the user accounts), [src/App.tsx] (the
    categories and the file list), [src/components/AddCategoryModal.tsx]
    and [src/services/storage.ts].

    - A JavaScript string is the list of its UTF-16 code units ([N]); a
      number is an IEEE 754 double.
    - A JavaScript object used as a map is an association list kept in
      property order (array-index keys first, ascending, then the other
      keys in insertion order).
    - Code that can throw returns a [result]; [try]/[catch] is a match on it.
    - React state is a record that every handler takes and returns.
    - The libraries the page loads at run time ([XLSX], [mammoth], [PizZip],
      [docxtemplater]) and the blob store are collaborators: they are the
      fields of [Runtime] and [Store]. *)

From Stdlib Require Import String Ascii List NArith ZArith Bool Lia.
From Stdlib Require Import Sorted Permutation.
Import ListNotations.

(* ================================================================== *)
(** * JavaScript strings, values and objects *)
(* ================================================================== *)

Module JS.

Definition jsstring := list N.

(** ** String literals

    The source file is UTF-8; [js] decodes a Rocq string literal (a byte
    string) into UTF-16 code units, so that the labels of the source can be
    written as they are there. *)

Fixpoint utf8_decode (bs : list N) : jsstring :=
  match bs with
  | [] => []
  | b0 :: r0 =>
      if (b0 <? 0x80)%N then b0 :: utf8_decode r0
      else if (b0 <? 0xE0)%N then
        match r0 with
        | b1 :: r1 => ((b0 mod 32) * 64 + b1 mod 64)%N :: utf8_decode r1
        | [] => []
        end
      else if (b0 <? 0xF0)%N then
        match r0 with
        | b1 :: r1 =>
            match r1 with
            | b2 :: r2 =>
                ((b0 mod 16) * 4096 + (b1 mod 64) * 64 + b2 mod 64)%N
                  :: utf8_decode r2
            | [] => []
            end
        | [] => []
        end
      else
        match r0 with
        | b1 :: r1 =>
            match r1 with
            | b2 :: r2 =>
                match r2 with
                | b3 :: r3 =>
                    let cp := ((b0 mod 8) * 262144 + (b1 mod 64) * 4096
                               + (b2 mod 64) * 64 + b3 mod 64 - 0x10000)%N in
                    (0xD800 + cp / 1024)%N :: (0xDC00 + cp mod 1024)%N
                      :: utf8_decode r3
                | [] => []
                end
            | [] => []
            end
        | [] => []
        end
  end.

Definition js (s : string) : jsstring :=
  utf8_decode (map N_of_ascii (list_ascii_of_string s)).

(** ** Equality *)

Fixpoint str_eqb (a b : jsstring) : bool :=
  match a, b with
  | [], [] => true
  | x :: a', y :: b' => (x =? y)%N && str_eqb a' b'
  | _, _ => false
  end.

(** ** White space

    [String.prototype.trim] and the regular-expression class [\s] use the
    same set: WhiteSpace and LineTerminator of ECMA-262. *)

Definition isWhiteSpace (c : N) : bool :=
  ((9 <=? c) && (c <=? 13) || (c =? 32) || (c =? 0xA0) || (c =? 0x1680)
   || (0x2000 <=? c) && (c <=? 0x200A) || (c =? 0x2028) || (c =? 0x2029)
   || (c =? 0x202F) || (c =? 0x205F) || (c =? 0x3000) || (c =? 0xFEFF))%N.

(** The characters that [.] does not match in a regular expression. *)
Definition isLineTerminator (c : N) : bool :=
  ((c =? 10) || (c =? 13) || (c =? 0x2028) || (c =? 0x2029))%N.

(** The class [\w] (which contains [\d]). *)
Definition isWordChar (c : N) : bool :=
  ((48 <=? c) && (c <=? 57) || (65 <=? c) && (c <=? 90)
   || (97 <=? c) && (c <=? 122) || (c =? 95))%N.

Fixpoint trimStart (s : jsstring) : jsstring :=
  match s with
  | [] => []
  | c :: r => if isWhiteSpace c then trimStart r else s
  end.

Definition trimEnd (s : jsstring) : jsstring := rev (trimStart (rev s)).

Definition trim (s : jsstring) : jsstring := trimEnd (trimStart s).

(** ** Prefixes, suffixes, substrings *)

Fixpoint startsWith (p s : jsstring) : bool :=
  match p, s with
  | [], _ => true
  | x :: p', y :: s' => (x =? y)%N && startsWith p' s'
  | _ :: _, [] => false
  end.

Definition endsWith (p s : jsstring) : bool := startsWith (rev p) (rev s).

Fixpoint includes (p s : jsstring) : bool :=
  startsWith p s || match s with [] => false | _ :: s' => includes p s' end.

(** [indexOf] on an array of strings ([-1] is [None]). *)
Fixpoint indexOf (x : jsstring) (l : list jsstring) : option nat :=
  match l with
  | [] => None
  | y :: l' => if str_eqb y x then Some 0 else option_map S (indexOf x l')
  end.

(** [s.slice(from, to)]: a negative index counts from the end. *)
Definition clampIndex (len i : Z) : Z :=
  if (i <? 0)%Z then Z.max (len + i) 0 else Z.min i len.

Definition slice (s : jsstring) (from to : Z) : jsstring :=
  let len := Z.of_nat (length s) in
  let a := clampIndex len from in
  let b := clampIndex len to in
  firstn (Z.to_nat (b - a)) (skipn (Z.to_nat a) s).

(** [parts.join(sep)]. *)
Fixpoint join (sep : jsstring) (l : list jsstring) : jsstring :=
  match l with
  | [] => []
  | [x] => x
  | x :: l' => x ++ sep ++ join sep l'
  end.

(** [s.split(c)] for a one-character separator: [splitOn c s] always has at
    least one element. *)
Fixpoint splitOn_aux (c : N) (cur : jsstring) (s : jsstring) : list jsstring :=
  match s with
  | [] => [rev cur]
  | x :: s' =>
      if (x =? c)%N then rev cur :: splitOn_aux c [] s'
      else splitOn_aux c (x :: cur) s'
  end.

Definition splitOn (c : N) (s : jsstring) : list jsstring := splitOn_aux c [] s.

(** [s.split(/\s+/)]: the pieces between maximal runs of white space. *)
Fixpoint splitWhitespace_aux (cur : jsstring) (inrun : bool) (s : jsstring)
  : list jsstring :=
  match s with
  | [] => [rev cur]
  | x :: s' =>
      if isWhiteSpace x then
        if inrun then splitWhitespace_aux cur true s'
        else rev cur :: splitWhitespace_aux [] true s'
      else splitWhitespace_aux (x :: cur) false s'
  end.

Definition splitWhitespace (s : jsstring) : list jsstring :=
  splitWhitespace_aux [] false s.

(** ** Case mapping

    [toUpperCase] and [toLowerCase] follow the default case conversion of
    the Unicode standard, as ECMA-262 asks: the string is read as code
    points, every code point is replaced by its full, locale-insensitive
    case mapping, and the result is written back as code units.  The tables
    are those of version 14.0 of the Unicode Character Database. *)

Definition upperUnit (c : N) : N :=
  if ((97 <=? c) && (c <=? 122))%N then (c - 32)%N else c.

Definition lowerUnit (c : N) : N :=
  if ((65 <=? c) && (c <=? 90))%N then (c + 32)%N else c.

Definition isLeadSurrogate (c : N) : bool := ((0xD800 <=? c) && (c <=? 0xDBFF))%N.
Definition isTrailSurrogate (c : N) : bool := ((0xDC00 <=? c) && (c <=? 0xDFFF))%N.

(** The code points of a string: a lead surrogate and the trail surrogate
    after it are one code point, any other code unit is a code point of its
    own. *)
Fixpoint codePoints (s : jsstring) : list N :=
  match s with
  | [] => []
  | c :: r =>
      if isLeadSurrogate c then
        match r with
        | d :: r' =>
            if isTrailSurrogate d
            then (0x10000 + (c - 0xD800) * 1024 + (d - 0xDC00))%N :: codePoints r'
            else c :: codePoints r
        | [] => [c]
        end
      else c :: codePoints r
  end.

Definition codeUnitsOf (cp : N) : jsstring :=
  if (cp <? 0x10000)%N then [cp]
  else [(0xD800 + (cp - 0x10000) / 1024)%N; (0xDC00 + (cp - 0x10000) mod 1024)%N].

Definition fromCodePoints (cps : list N) : jsstring := flat_map codeUnitsOf cps.

(** The code points above ASCII with a one-character upper-case mapping. *)
Definition upperRuns : list (N * N * N * Z) :=
  [
    (0xB5, 0xB5, 1, 743%Z); (0xE0, 0xF6, 1, (-32)%Z);
    (0xF8, 0xFE, 1, (-32)%Z); (0xFF, 0xFF, 1, 121%Z);
    (0x101, 0x12F, 2, (-1)%Z); (0x131, 0x131, 1, (-232)%Z);
    (0x133, 0x137, 2, (-1)%Z); (0x13A, 0x148, 2, (-1)%Z);
    (0x14B, 0x177, 2, (-1)%Z); (0x17A, 0x17E, 2, (-1)%Z);
    (0x17F, 0x17F, 1, (-300)%Z); (0x180, 0x180, 1, 195%Z);
    (0x183, 0x185, 2, (-1)%Z); (0x188, 0x188, 1, (-1)%Z);
    (0x18C, 0x18C, 1, (-1)%Z); (0x192, 0x192, 1, (-1)%Z);
    (0x195, 0x195, 1, 97%Z); (0x199, 0x199, 1, (-1)%Z);
    (0x19A, 0x19A, 1, 163%Z); (0x19E, 0x19E, 1, 130%Z);
    (0x1A1, 0x1A5, 2, (-1)%Z); (0x1A8, 0x1A8, 1, (-1)%Z);
    (0x1AD, 0x1AD, 1, (-1)%Z); (0x1B0, 0x1B0, 1, (-1)%Z);
    (0x1B4, 0x1B6, 2, (-1)%Z); (0x1B9, 0x1B9, 1, (-1)%Z);
    (0x1BD, 0x1BD, 1, (-1)%Z); (0x1BF, 0x1BF, 1, 56%Z);
    (0x1C5, 0x1C5, 1, (-1)%Z); (0x1C6, 0x1C6, 1, (-2)%Z);
    (0x1C8, 0x1C8, 1, (-1)%Z); (0x1C9, 0x1C9, 1, (-2)%Z);
    (0x1CB, 0x1CB, 1, (-1)%Z); (0x1CC, 0x1CC, 1, (-2)%Z);
    (0x1CE, 0x1DC, 2, (-1)%Z); (0x1DD, 0x1DD, 1, (-79)%Z);
    (0x1DF, 0x1EF, 2, (-1)%Z); (0x1F2, 0x1F2, 1, (-1)%Z);
    (0x1F3, 0x1F3, 1, (-2)%Z); (0x1F5, 0x1F5, 1, (-1)%Z);
    (0x1F9, 0x21F, 2, (-1)%Z); (0x223, 0x233, 2, (-1)%Z);
    (0x23C, 0x23C, 1, (-1)%Z); (0x23F, 0x240, 1, 10815%Z);
    (0x242, 0x242, 1, (-1)%Z); (0x247, 0x24F, 2, (-1)%Z);
    (0x250, 0x250, 1, 10783%Z); (0x251, 0x251, 1, 10780%Z);
    (0x252, 0x252, 1, 10782%Z); (0x253, 0x253, 1, (-210)%Z);
    (0x254, 0x254, 1, (-206)%Z); (0x256, 0x257, 1, (-205)%Z);
    (0x259, 0x259, 1, (-202)%Z); (0x25B, 0x25B, 1, (-203)%Z);
    (0x25C, 0x25C, 1, 42319%Z); (0x260, 0x260, 1, (-205)%Z);
    (0x261, 0x261, 1, 42315%Z); (0x263, 0x263, 1, (-207)%Z);
    (0x265, 0x265, 1, 42280%Z); (0x266, 0x266, 1, 42308%Z);
    (0x268, 0x268, 1, (-209)%Z); (0x269, 0x269, 1, (-211)%Z);
    (0x26A, 0x26A, 1, 42308%Z); (0x26B, 0x26B, 1, 10743%Z);
    (0x26C, 0x26C, 1, 42305%Z); (0x26F, 0x26F, 1, (-211)%Z);
    (0x271, 0x271, 1, 10749%Z); (0x272, 0x272, 1, (-213)%Z);
    (0x275, 0x275, 1, (-214)%Z); (0x27D, 0x27D, 1, 10727%Z);
    (0x280, 0x280, 1, (-218)%Z); (0x282, 0x282, 1, 42307%Z);
    (0x283, 0x283, 1, (-218)%Z); (0x287, 0x287, 1, 42282%Z);
    (0x288, 0x288, 1, (-218)%Z); (0x289, 0x289, 1, (-69)%Z);
    (0x28A, 0x28B, 1, (-217)%Z); (0x28C, 0x28C, 1, (-71)%Z);
    (0x292, 0x292, 1, (-219)%Z); (0x29D, 0x29D, 1, 42261%Z);
    (0x29E, 0x29E, 1, 42258%Z); (0x345, 0x345, 1, 84%Z);
    (0x371, 0x373, 2, (-1)%Z); (0x377, 0x377, 1, (-1)%Z);
    (0x37B, 0x37D, 1, 130%Z); (0x3AC, 0x3AC, 1, (-38)%Z);
    (0x3AD, 0x3AF, 1, (-37)%Z); (0x3B1, 0x3C1, 1, (-32)%Z);
    (0x3C2, 0x3C2, 1, (-31)%Z); (0x3C3, 0x3CB, 1, (-32)%Z);
    (0x3CC, 0x3CC, 1, (-64)%Z); (0x3CD, 0x3CE, 1, (-63)%Z);
    (0x3D0, 0x3D0, 1, (-62)%Z); (0x3D1, 0x3D1, 1, (-57)%Z);
    (0x3D5, 0x3D5, 1, (-47)%Z); (0x3D6, 0x3D6, 1, (-54)%Z);
    (0x3D7, 0x3D7, 1, (-8)%Z); (0x3D9, 0x3EF, 2, (-1)%Z);
    (0x3F0, 0x3F0, 1, (-86)%Z); (0x3F1, 0x3F1, 1, (-80)%Z);
    (0x3F2, 0x3F2, 1, 7%Z); (0x3F3, 0x3F3, 1, (-116)%Z);
    (0x3F5, 0x3F5, 1, (-96)%Z); (0x3F8, 0x3F8, 1, (-1)%Z);
    (0x3FB, 0x3FB, 1, (-1)%Z); (0x430, 0x44F, 1, (-32)%Z);
    (0x450, 0x45F, 1, (-80)%Z); (0x461, 0x481, 2, (-1)%Z);
    (0x48B, 0x4BF, 2, (-1)%Z); (0x4C2, 0x4CE, 2, (-1)%Z);
    (0x4CF, 0x4CF, 1, (-15)%Z); (0x4D1, 0x52F, 2, (-1)%Z);
    (0x561, 0x586, 1, (-48)%Z); (0x10D0, 0x10FA, 1, 3008%Z);
    (0x10FD, 0x10FF, 1, 3008%Z); (0x13F8, 0x13FD, 1, (-8)%Z);
    (0x1C80, 0x1C80, 1, (-6254)%Z); (0x1C81, 0x1C81, 1, (-6253)%Z);
    (0x1C82, 0x1C82, 1, (-6244)%Z); (0x1C83, 0x1C84, 1, (-6242)%Z);
    (0x1C85, 0x1C85, 1, (-6243)%Z); (0x1C86, 0x1C86, 1, (-6236)%Z);
    (0x1C87, 0x1C87, 1, (-6181)%Z); (0x1C88, 0x1C88, 1, 35266%Z);
    (0x1D79, 0x1D79, 1, 35332%Z); (0x1D7D, 0x1D7D, 1, 3814%Z);
    (0x1D8E, 0x1D8E, 1, 35384%Z); (0x1E01, 0x1E95, 2, (-1)%Z);
    (0x1E9B, 0x1E9B, 1, (-59)%Z); (0x1EA1, 0x1EFF, 2, (-1)%Z);
    (0x1F00, 0x1F07, 1, 8%Z); (0x1F10, 0x1F15, 1, 8%Z);
    (0x1F20, 0x1F27, 1, 8%Z); (0x1F30, 0x1F37, 1, 8%Z);
    (0x1F40, 0x1F45, 1, 8%Z); (0x1F51, 0x1F57, 2, 8%Z);
    (0x1F60, 0x1F67, 1, 8%Z); (0x1F70, 0x1F71, 1, 74%Z);
    (0x1F72, 0x1F75, 1, 86%Z); (0x1F76, 0x1F77, 1, 100%Z);
    (0x1F78, 0x1F79, 1, 128%Z); (0x1F7A, 0x1F7B, 1, 112%Z);
    (0x1F7C, 0x1F7D, 1, 126%Z); (0x1FB0, 0x1FB1, 1, 8%Z);
    (0x1FBE, 0x1FBE, 1, (-7205)%Z); (0x1FD0, 0x1FD1, 1, 8%Z);
    (0x1FE0, 0x1FE1, 1, 8%Z); (0x1FE5, 0x1FE5, 1, 7%Z);
    (0x214E, 0x214E, 1, (-28)%Z); (0x2170, 0x217F, 1, (-16)%Z);
    (0x2184, 0x2184, 1, (-1)%Z); (0x24D0, 0x24E9, 1, (-26)%Z);
    (0x2C30, 0x2C5F, 1, (-48)%Z); (0x2C61, 0x2C61, 1, (-1)%Z);
    (0x2C65, 0x2C65, 1, (-10795)%Z); (0x2C66, 0x2C66, 1, (-10792)%Z);
    (0x2C68, 0x2C6C, 2, (-1)%Z); (0x2C73, 0x2C73, 1, (-1)%Z);
    (0x2C76, 0x2C76, 1, (-1)%Z); (0x2C81, 0x2CE3, 2, (-1)%Z);
    (0x2CEC, 0x2CEE, 2, (-1)%Z); (0x2CF3, 0x2CF3, 1, (-1)%Z);
    (0x2D00, 0x2D25, 1, (-7264)%Z); (0x2D27, 0x2D27, 1, (-7264)%Z);
    (0x2D2D, 0x2D2D, 1, (-7264)%Z); (0xA641, 0xA66D, 2, (-1)%Z);
    (0xA681, 0xA69B, 2, (-1)%Z); (0xA723, 0xA72F, 2, (-1)%Z);
    (0xA733, 0xA76F, 2, (-1)%Z); (0xA77A, 0xA77C, 2, (-1)%Z);
    (0xA77F, 0xA787, 2, (-1)%Z); (0xA78C, 0xA78C, 1, (-1)%Z);
    (0xA791, 0xA793, 2, (-1)%Z); (0xA794, 0xA794, 1, 48%Z);
    (0xA797, 0xA7A9, 2, (-1)%Z); (0xA7B5, 0xA7C3, 2, (-1)%Z);
    (0xA7C8, 0xA7CA, 2, (-1)%Z); (0xA7D1, 0xA7D1, 1, (-1)%Z);
    (0xA7D7, 0xA7D9, 2, (-1)%Z); (0xA7F6, 0xA7F6, 1, (-1)%Z);
    (0xAB53, 0xAB53, 1, (-928)%Z); (0xAB70, 0xABBF, 1, (-38864)%Z);
    (0xFF41, 0xFF5A, 1, (-32)%Z); (0x10428, 0x1044F, 1, (-40)%Z);
    (0x104D8, 0x104FB, 1, (-40)%Z); (0x10597, 0x105BB, 2, (-39)%Z);
    (0x10598, 0x105A0, 2, (-39)%Z); (0x105A4, 0x105B0, 2, (-39)%Z);
    (0x105B4, 0x105B8, 2, (-39)%Z); (0x105BC, 0x105BC, 1, (-39)%Z);
    (0x10CC0, 0x10CF2, 1, (-64)%Z); (0x118C0, 0x118DF, 1, (-32)%Z);
    (0x16E60, 0x16E7F, 1, (-32)%Z); (0x1E922, 0x1E943, 1, (-34)%Z)
  ]%N.

(** The code points whose upper-case mapping has several characters. *)
Definition upperSpecial : list (N * list N) :=
  [
    (0xDF, [0x53; 0x53]); (0x149, [0x2BC; 0x4E]); (0x1F0, [0x4A; 0x30C]);
    (0x390, [0x399; 0x308; 0x301]); (0x3B0, [0x3A5; 0x308; 0x301]);
    (0x587, [0x535; 0x552]); (0x1E96, [0x48; 0x331]); (0x1E97, [0x54; 0x308]);
    (0x1E98, [0x57; 0x30A]); (0x1E99, [0x59; 0x30A]); (0x1E9A, [0x41; 0x2BE]);
    (0x1F50, [0x3A5; 0x313]); (0x1F52, [0x3A5; 0x313; 0x300]);
    (0x1F54, [0x3A5; 0x313; 0x301]); (0x1F56, [0x3A5; 0x313; 0x342]);
    (0x1F80, [0x1F08; 0x399]); (0x1F81, [0x1F09; 0x399]);
    (0x1F82, [0x1F0A; 0x399]); (0x1F83, [0x1F0B; 0x399]);
    (0x1F84, [0x1F0C; 0x399]); (0x1F85, [0x1F0D; 0x399]);
    (0x1F86, [0x1F0E; 0x399]); (0x1F87, [0x1F0F; 0x399]);
    (0x1F88, [0x1F08; 0x399]); (0x1F89, [0x1F09; 0x399]);
    (0x1F8A, [0x1F0A; 0x399]); (0x1F8B, [0x1F0B; 0x399]);
    (0x1F8C, [0x1F0C; 0x399]); (0x1F8D, [0x1F0D; 0x399]);
    (0x1F8E, [0x1F0E; 0x399]); (0x1F8F, [0x1F0F; 0x399]);
    (0x1F90, [0x1F28; 0x399]); (0x1F91, [0x1F29; 0x399]);
    (0x1F92, [0x1F2A; 0x399]); (0x1F93, [0x1F2B; 0x399]);
    (0x1F94, [0x1F2C; 0x399]); (0x1F95, [0x1F2D; 0x399]);
    (0x1F96, [0x1F2E; 0x399]); (0x1F97, [0x1F2F; 0x399]);
    (0x1F98, [0x1F28; 0x399]); (0x1F99, [0x1F29; 0x399]);
    (0x1F9A, [0x1F2A; 0x399]); (0x1F9B, [0x1F2B; 0x399]);
    (0x1F9C, [0x1F2C; 0x399]); (0x1F9D, [0x1F2D; 0x399]);
    (0x1F9E, [0x1F2E; 0x399]); (0x1F9F, [0x1F2F; 0x399]);
    (0x1FA0, [0x1F68; 0x399]); (0x1FA1, [0x1F69; 0x399]);
    (0x1FA2, [0x1F6A; 0x399]); (0x1FA3, [0x1F6B; 0x399]);
    (0x1FA4, [0x1F6C; 0x399]); (0x1FA5, [0x1F6D; 0x399]);
    (0x1FA6, [0x1F6E; 0x399]); (0x1FA7, [0x1F6F; 0x399]);
    (0x1FA8, [0x1F68; 0x399]); (0x1FA9, [0x1F69; 0x399]);
    (0x1FAA, [0x1F6A; 0x399]); (0x1FAB, [0x1F6B; 0x399]);
    (0x1FAC, [0x1F6C; 0x399]); (0x1FAD, [0x1F6D; 0x399]);
    (0x1FAE, [0x1F6E; 0x399]); (0x1FAF, [0x1F6F; 0x399]);
    (0x1FB2, [0x1FBA; 0x399]); (0x1FB3, [0x391; 0x399]);
    (0x1FB4, [0x386; 0x399]); (0x1FB6, [0x391; 0x342]);
    (0x1FB7, [0x391; 0x342; 0x399]); (0x1FBC, [0x391; 0x399]);
    (0x1FC2, [0x1FCA; 0x399]); (0x1FC3, [0x397; 0x399]);
    (0x1FC4, [0x389; 0x399]); (0x1FC6, [0x397; 0x342]);
    (0x1FC7, [0x397; 0x342; 0x399]); (0x1FCC, [0x397; 0x399]);
    (0x1FD2, [0x399; 0x308; 0x300]); (0x1FD3, [0x399; 0x308; 0x301]);
    (0x1FD6, [0x399; 0x342]); (0x1FD7, [0x399; 0x308; 0x342]);
    (0x1FE2, [0x3A5; 0x308; 0x300]); (0x1FE3, [0x3A5; 0x308; 0x301]);
    (0x1FE4, [0x3A1; 0x313]); (0x1FE6, [0x3A5; 0x342]);
    (0x1FE7, [0x3A5; 0x308; 0x342]); (0x1FF2, [0x1FFA; 0x399]);
    (0x1FF3, [0x3A9; 0x399]); (0x1FF4, [0x38F; 0x399]);
    (0x1FF6, [0x3A9; 0x342]); (0x1FF7, [0x3A9; 0x342; 0x399]);
    (0x1FFC, [0x3A9; 0x399]); (0xFB00, [0x46; 0x46]); (0xFB01, [0x46; 0x49]);
    (0xFB02, [0x46; 0x4C]); (0xFB03, [0x46; 0x46; 0x49]);
    (0xFB04, [0x46; 0x46; 0x4C]); (0xFB05, [0x53; 0x54]);
    (0xFB06, [0x53; 0x54]); (0xFB13, [0x544; 0x546]);
    (0xFB14, [0x544; 0x535]); (0xFB15, [0x544; 0x53B]);
    (0xFB16, [0x54E; 0x546]); (0xFB17, [0x544; 0x53D])
  ]%N.

(** The code points above ASCII with a one-character lower-case mapping. *)
Definition lowerRuns : list (N * N * N * Z) :=
  [
    (0xC0, 0xD6, 1, 32%Z); (0xD8, 0xDE, 1, 32%Z); (0x100, 0x12E, 2, 1%Z);
    (0x132, 0x136, 2, 1%Z); (0x139, 0x147, 2, 1%Z); (0x14A, 0x176, 2, 1%Z);
    (0x178, 0x178, 1, (-121)%Z); (0x179, 0x17D, 2, 1%Z);
    (0x181, 0x181, 1, 210%Z); (0x182, 0x184, 2, 1%Z);
    (0x186, 0x186, 1, 206%Z); (0x187, 0x187, 1, 1%Z);
    (0x189, 0x18A, 1, 205%Z); (0x18B, 0x18B, 1, 1%Z); (0x18E, 0x18E, 1, 79%Z);
    (0x18F, 0x18F, 1, 202%Z); (0x190, 0x190, 1, 203%Z);
    (0x191, 0x191, 1, 1%Z); (0x193, 0x193, 1, 205%Z);
    (0x194, 0x194, 1, 207%Z); (0x196, 0x196, 1, 211%Z);
    (0x197, 0x197, 1, 209%Z); (0x198, 0x198, 1, 1%Z);
    (0x19C, 0x19C, 1, 211%Z); (0x19D, 0x19D, 1, 213%Z);
    (0x19F, 0x19F, 1, 214%Z); (0x1A0, 0x1A4, 2, 1%Z);
    (0x1A6, 0x1A6, 1, 218%Z); (0x1A7, 0x1A7, 1, 1%Z);
    (0x1A9, 0x1A9, 1, 218%Z); (0x1AC, 0x1AC, 1, 1%Z);
    (0x1AE, 0x1AE, 1, 218%Z); (0x1AF, 0x1AF, 1, 1%Z);
    (0x1B1, 0x1B2, 1, 217%Z); (0x1B3, 0x1B5, 2, 1%Z);
    (0x1B7, 0x1B7, 1, 219%Z); (0x1B8, 0x1B8, 1, 1%Z); (0x1BC, 0x1BC, 1, 1%Z);
    (0x1C4, 0x1C4, 1, 2%Z); (0x1C5, 0x1C5, 1, 1%Z); (0x1C7, 0x1C7, 1, 2%Z);
    (0x1C8, 0x1C8, 1, 1%Z); (0x1CA, 0x1CA, 1, 2%Z); (0x1CB, 0x1DB, 2, 1%Z);
    (0x1DE, 0x1EE, 2, 1%Z); (0x1F1, 0x1F1, 1, 2%Z); (0x1F2, 0x1F4, 2, 1%Z);
    (0x1F6, 0x1F6, 1, (-97)%Z); (0x1F7, 0x1F7, 1, (-56)%Z);
    (0x1F8, 0x21E, 2, 1%Z); (0x220, 0x220, 1, (-130)%Z);
    (0x222, 0x232, 2, 1%Z); (0x23A, 0x23A, 1, 10795%Z);
    (0x23B, 0x23B, 1, 1%Z); (0x23D, 0x23D, 1, (-163)%Z);
    (0x23E, 0x23E, 1, 10792%Z); (0x241, 0x241, 1, 1%Z);
    (0x243, 0x243, 1, (-195)%Z); (0x244, 0x244, 1, 69%Z);
    (0x245, 0x245, 1, 71%Z); (0x246, 0x24E, 2, 1%Z); (0x370, 0x372, 2, 1%Z);
    (0x376, 0x376, 1, 1%Z); (0x37F, 0x37F, 1, 116%Z); (0x386, 0x386, 1, 38%Z);
    (0x388, 0x38A, 1, 37%Z); (0x38C, 0x38C, 1, 64%Z); (0x38E, 0x38F, 1, 63%Z);
    (0x391, 0x3A1, 1, 32%Z); (0x3A3, 0x3AB, 1, 32%Z); (0x3CF, 0x3CF, 1, 8%Z);
    (0x3D8, 0x3EE, 2, 1%Z); (0x3F4, 0x3F4, 1, (-60)%Z);
    (0x3F7, 0x3F7, 1, 1%Z); (0x3F9, 0x3F9, 1, (-7)%Z); (0x3FA, 0x3FA, 1, 1%Z);
    (0x3FD, 0x3FF, 1, (-130)%Z); (0x400, 0x40F, 1, 80%Z);
    (0x410, 0x42F, 1, 32%Z); (0x460, 0x480, 2, 1%Z); (0x48A, 0x4BE, 2, 1%Z);
    (0x4C0, 0x4C0, 1, 15%Z); (0x4C1, 0x4CD, 2, 1%Z); (0x4D0, 0x52E, 2, 1%Z);
    (0x531, 0x556, 1, 48%Z); (0x10A0, 0x10C5, 1, 7264%Z);
    (0x10C7, 0x10C7, 1, 7264%Z); (0x10CD, 0x10CD, 1, 7264%Z);
    (0x13A0, 0x13EF, 1, 38864%Z); (0x13F0, 0x13F5, 1, 8%Z);
    (0x1C90, 0x1CBA, 1, (-3008)%Z); (0x1CBD, 0x1CBF, 1, (-3008)%Z);
    (0x1E00, 0x1E94, 2, 1%Z); (0x1E9E, 0x1E9E, 1, (-7615)%Z);
    (0x1EA0, 0x1EFE, 2, 1%Z); (0x1F08, 0x1F0F, 1, (-8)%Z);
    (0x1F18, 0x1F1D, 1, (-8)%Z); (0x1F28, 0x1F2F, 1, (-8)%Z);
    (0x1F38, 0x1F3F, 1, (-8)%Z); (0x1F48, 0x1F4D, 1, (-8)%Z);
    (0x1F59, 0x1F5F, 2, (-8)%Z); (0x1F68, 0x1F6F, 1, (-8)%Z);
    (0x1F88, 0x1F8F, 1, (-8)%Z); (0x1F98, 0x1F9F, 1, (-8)%Z);
    (0x1FA8, 0x1FAF, 1, (-8)%Z); (0x1FB8, 0x1FB9, 1, (-8)%Z);
    (0x1FBA, 0x1FBB, 1, (-74)%Z); (0x1FBC, 0x1FBC, 1, (-9)%Z);
    (0x1FC8, 0x1FCB, 1, (-86)%Z); (0x1FCC, 0x1FCC, 1, (-9)%Z);
    (0x1FD8, 0x1FD9, 1, (-8)%Z); (0x1FDA, 0x1FDB, 1, (-100)%Z);
    (0x1FE8, 0x1FE9, 1, (-8)%Z); (0x1FEA, 0x1FEB, 1, (-112)%Z);
    (0x1FEC, 0x1FEC, 1, (-7)%Z); (0x1FF8, 0x1FF9, 1, (-128)%Z);
    (0x1FFA, 0x1FFB, 1, (-126)%Z); (0x1FFC, 0x1FFC, 1, (-9)%Z);
    (0x2126, 0x2126, 1, (-7517)%Z); (0x212A, 0x212A, 1, (-8383)%Z);
    (0x212B, 0x212B, 1, (-8262)%Z); (0x2132, 0x2132, 1, 28%Z);
    (0x2160, 0x216F, 1, 16%Z); (0x2183, 0x2183, 1, 1%Z);
    (0x24B6, 0x24CF, 1, 26%Z); (0x2C00, 0x2C2F, 1, 48%Z);
    (0x2C60, 0x2C60, 1, 1%Z); (0x2C62, 0x2C62, 1, (-10743)%Z);
    (0x2C63, 0x2C63, 1, (-3814)%Z); (0x2C64, 0x2C64, 1, (-10727)%Z);
    (0x2C67, 0x2C6B, 2, 1%Z); (0x2C6D, 0x2C6D, 1, (-10780)%Z);
    (0x2C6E, 0x2C6E, 1, (-10749)%Z); (0x2C6F, 0x2C6F, 1, (-10783)%Z);
    (0x2C70, 0x2C70, 1, (-10782)%Z); (0x2C72, 0x2C72, 1, 1%Z);
    (0x2C75, 0x2C75, 1, 1%Z); (0x2C7E, 0x2C7F, 1, (-10815)%Z);
    (0x2C80, 0x2CE2, 2, 1%Z); (0x2CEB, 0x2CED, 2, 1%Z);
    (0x2CF2, 0x2CF2, 1, 1%Z); (0xA640, 0xA66C, 2, 1%Z);
    (0xA680, 0xA69A, 2, 1%Z); (0xA722, 0xA72E, 2, 1%Z);
    (0xA732, 0xA76E, 2, 1%Z); (0xA779, 0xA77B, 2, 1%Z);
    (0xA77D, 0xA77D, 1, (-35332)%Z); (0xA77E, 0xA786, 2, 1%Z);
    (0xA78B, 0xA78B, 1, 1%Z); (0xA78D, 0xA78D, 1, (-42280)%Z);
    (0xA790, 0xA792, 2, 1%Z); (0xA796, 0xA7A8, 2, 1%Z);
    (0xA7AA, 0xA7AA, 1, (-42308)%Z); (0xA7AB, 0xA7AB, 1, (-42319)%Z);
    (0xA7AC, 0xA7AC, 1, (-42315)%Z); (0xA7AD, 0xA7AD, 1, (-42305)%Z);
    (0xA7AE, 0xA7AE, 1, (-42308)%Z); (0xA7B0, 0xA7B0, 1, (-42258)%Z);
    (0xA7B1, 0xA7B1, 1, (-42282)%Z); (0xA7B2, 0xA7B2, 1, (-42261)%Z);
    (0xA7B3, 0xA7B3, 1, 928%Z); (0xA7B4, 0xA7C2, 2, 1%Z);
    (0xA7C4, 0xA7C4, 1, (-48)%Z); (0xA7C5, 0xA7C5, 1, (-42307)%Z);
    (0xA7C6, 0xA7C6, 1, (-35384)%Z); (0xA7C7, 0xA7C9, 2, 1%Z);
    (0xA7D0, 0xA7D0, 1, 1%Z); (0xA7D6, 0xA7D8, 2, 1%Z);
    (0xA7F5, 0xA7F5, 1, 1%Z); (0xFF21, 0xFF3A, 1, 32%Z);
    (0x10400, 0x10427, 1, 40%Z); (0x104B0, 0x104D3, 1, 40%Z);
    (0x10570, 0x10594, 2, 39%Z); (0x10571, 0x10579, 2, 39%Z);
    (0x1057D, 0x10589, 2, 39%Z); (0x1058D, 0x10591, 2, 39%Z);
    (0x10595, 0x10595, 1, 39%Z); (0x10C80, 0x10CB2, 1, 64%Z);
    (0x118A0, 0x118BF, 1, 32%Z); (0x16E40, 0x16E5F, 1, 32%Z);
    (0x1E900, 0x1E921, 1, 34%Z)
  ]%N.

(** The code point whose lower-case mapping has several characters. *)
Definition lowerSpecial : list (N * list N) :=
  [
    (0x130, [0x69; 0x307])
  ]%N.

(** The case-ignorable code points. *)
Definition caseIgnorableRanges : list (N * N) :=
  [
    (0x27, 0x27); (0x2E, 0x2E); (0x3A, 0x3A); (0x5E, 0x5E); (0x60, 0x60);
    (0xA8, 0xA8); (0xAD, 0xAD); (0xAF, 0xAF); (0xB4, 0xB4); (0xB7, 0xB8);
    (0x2B0, 0x36F); (0x374, 0x375); (0x37A, 0x37A); (0x384, 0x385);
    (0x387, 0x387); (0x483, 0x489); (0x559, 0x559); (0x55F, 0x55F);
    (0x591, 0x5BD); (0x5BF, 0x5BF); (0x5C1, 0x5C2); (0x5C4, 0x5C5);
    (0x5C7, 0x5C7); (0x5F4, 0x5F4); (0x600, 0x605); (0x610, 0x61A);
    (0x61C, 0x61C); (0x640, 0x640); (0x64B, 0x65F); (0x670, 0x670);
    (0x6D6, 0x6DD); (0x6DF, 0x6E8); (0x6EA, 0x6ED); (0x70F, 0x70F);
    (0x711, 0x711); (0x730, 0x74A); (0x7A6, 0x7B0); (0x7EB, 0x7F5);
    (0x7FA, 0x7FA); (0x7FD, 0x7FD); (0x816, 0x82D); (0x859, 0x85B);
    (0x888, 0x888); (0x890, 0x891); (0x898, 0x89F); (0x8C9, 0x902);
    (0x93A, 0x93A); (0x93C, 0x93C); (0x941, 0x948); (0x94D, 0x94D);
    (0x951, 0x957); (0x962, 0x963); (0x971, 0x971); (0x981, 0x981);
    (0x9BC, 0x9BC); (0x9C1, 0x9C4); (0x9CD, 0x9CD); (0x9E2, 0x9E3);
    (0x9FE, 0x9FE); (0xA01, 0xA02); (0xA3C, 0xA3C); (0xA41, 0xA42);
    (0xA47, 0xA48); (0xA4B, 0xA4D); (0xA51, 0xA51); (0xA70, 0xA71);
    (0xA75, 0xA75); (0xA81, 0xA82); (0xABC, 0xABC); (0xAC1, 0xAC5);
    (0xAC7, 0xAC8); (0xACD, 0xACD); (0xAE2, 0xAE3); (0xAFA, 0xAFF);
    (0xB01, 0xB01); (0xB3C, 0xB3C); (0xB3F, 0xB3F); (0xB41, 0xB44);
    (0xB4D, 0xB4D); (0xB55, 0xB56); (0xB62, 0xB63); (0xB82, 0xB82);
    (0xBC0, 0xBC0); (0xBCD, 0xBCD); (0xC00, 0xC00); (0xC04, 0xC04);
    (0xC3C, 0xC3C); (0xC3E, 0xC40); (0xC46, 0xC48); (0xC4A, 0xC4D);
    (0xC55, 0xC56); (0xC62, 0xC63); (0xC81, 0xC81); (0xCBC, 0xCBC);
    (0xCBF, 0xCBF); (0xCC6, 0xCC6); (0xCCC, 0xCCD); (0xCE2, 0xCE3);
    (0xD00, 0xD01); (0xD3B, 0xD3C); (0xD41, 0xD44); (0xD4D, 0xD4D);
    (0xD62, 0xD63); (0xD81, 0xD81); (0xDCA, 0xDCA); (0xDD2, 0xDD4);
    (0xDD6, 0xDD6); (0xE31, 0xE31); (0xE34, 0xE3A); (0xE46, 0xE4E);
    (0xEB1, 0xEB1); (0xEB4, 0xEBC); (0xEC6, 0xEC6); (0xEC8, 0xECD);
    (0xF18, 0xF19); (0xF35, 0xF35); (0xF37, 0xF37); (0xF39, 0xF39);
    (0xF71, 0xF7E); (0xF80, 0xF84); (0xF86, 0xF87); (0xF8D, 0xF97);
    (0xF99, 0xFBC); (0xFC6, 0xFC6); (0x102D, 0x1030); (0x1032, 0x1037);
    (0x1039, 0x103A); (0x103D, 0x103E); (0x1058, 0x1059); (0x105E, 0x1060);
    (0x1071, 0x1074); (0x1082, 0x1082); (0x1085, 0x1086); (0x108D, 0x108D);
    (0x109D, 0x109D); (0x10FC, 0x10FC); (0x135D, 0x135F); (0x1712, 0x1714);
    (0x1732, 0x1733); (0x1752, 0x1753); (0x1772, 0x1773); (0x17B4, 0x17B5);
    (0x17B7, 0x17BD); (0x17C6, 0x17C6); (0x17C9, 0x17D3); (0x17D7, 0x17D7);
    (0x17DD, 0x17DD); (0x180B, 0x180F); (0x1843, 0x1843); (0x1885, 0x1886);
    (0x18A9, 0x18A9); (0x1920, 0x1922); (0x1927, 0x1928); (0x1932, 0x1932);
    (0x1939, 0x193B); (0x1A17, 0x1A18); (0x1A1B, 0x1A1B); (0x1A56, 0x1A56);
    (0x1A58, 0x1A5E); (0x1A60, 0x1A60); (0x1A62, 0x1A62); (0x1A65, 0x1A6C);
    (0x1A73, 0x1A7C); (0x1A7F, 0x1A7F); (0x1AA7, 0x1AA7); (0x1AB0, 0x1ACE);
    (0x1B00, 0x1B03); (0x1B34, 0x1B34); (0x1B36, 0x1B3A); (0x1B3C, 0x1B3C);
    (0x1B42, 0x1B42); (0x1B6B, 0x1B73); (0x1B80, 0x1B81); (0x1BA2, 0x1BA5);
    (0x1BA8, 0x1BA9); (0x1BAB, 0x1BAD); (0x1BE6, 0x1BE6); (0x1BE8, 0x1BE9);
    (0x1BED, 0x1BED); (0x1BEF, 0x1BF1); (0x1C2C, 0x1C33); (0x1C36, 0x1C37);
    (0x1C78, 0x1C7D); (0x1CD0, 0x1CD2); (0x1CD4, 0x1CE0); (0x1CE2, 0x1CE8);
    (0x1CED, 0x1CED); (0x1CF4, 0x1CF4); (0x1CF8, 0x1CF9); (0x1D2C, 0x1D6A);
    (0x1D78, 0x1D78); (0x1D9B, 0x1DFF); (0x1FBD, 0x1FBD); (0x1FBF, 0x1FC1);
    (0x1FCD, 0x1FCF); (0x1FDD, 0x1FDF); (0x1FED, 0x1FEF); (0x1FFD, 0x1FFE);
    (0x200B, 0x200F); (0x2018, 0x2019); (0x2024, 0x2024); (0x2027, 0x2027);
    (0x202A, 0x202E); (0x2060, 0x2064); (0x2066, 0x206F); (0x2071, 0x2071);
    (0x207F, 0x207F); (0x2090, 0x209C); (0x20D0, 0x20F0); (0x2C7C, 0x2C7D);
    (0x2CEF, 0x2CF1); (0x2D6F, 0x2D6F); (0x2D7F, 0x2D7F); (0x2DE0, 0x2DFF);
    (0x2E2F, 0x2E2F); (0x3005, 0x3005); (0x302A, 0x302D); (0x3031, 0x3035);
    (0x303B, 0x303B); (0x3099, 0x309E); (0x30FC, 0x30FE); (0xA015, 0xA015);
    (0xA4F8, 0xA4FD); (0xA60C, 0xA60C); (0xA66F, 0xA672); (0xA674, 0xA67D);
    (0xA67F, 0xA67F); (0xA69C, 0xA69F); (0xA6F0, 0xA6F1); (0xA700, 0xA721);
    (0xA770, 0xA770); (0xA788, 0xA78A); (0xA7F2, 0xA7F4); (0xA7F8, 0xA7F9);
    (0xA802, 0xA802); (0xA806, 0xA806); (0xA80B, 0xA80B); (0xA825, 0xA826);
    (0xA82C, 0xA82C); (0xA8C4, 0xA8C5); (0xA8E0, 0xA8F1); (0xA8FF, 0xA8FF);
    (0xA926, 0xA92D); (0xA947, 0xA951); (0xA980, 0xA982); (0xA9B3, 0xA9B3);
    (0xA9B6, 0xA9B9); (0xA9BC, 0xA9BD); (0xA9CF, 0xA9CF); (0xA9E5, 0xA9E6);
    (0xAA29, 0xAA2E); (0xAA31, 0xAA32); (0xAA35, 0xAA36); (0xAA43, 0xAA43);
    (0xAA4C, 0xAA4C); (0xAA70, 0xAA70); (0xAA7C, 0xAA7C); (0xAAB0, 0xAAB0);
    (0xAAB2, 0xAAB4); (0xAAB7, 0xAAB8); (0xAABE, 0xAABF); (0xAAC1, 0xAAC1);
    (0xAADD, 0xAADD); (0xAAEC, 0xAAED); (0xAAF3, 0xAAF4); (0xAAF6, 0xAAF6);
    (0xAB5B, 0xAB5F); (0xAB69, 0xAB6B); (0xABE5, 0xABE5); (0xABE8, 0xABE8);
    (0xABED, 0xABED); (0xFB1E, 0xFB1E); (0xFBB2, 0xFBC2); (0xFE00, 0xFE0F);
    (0xFE13, 0xFE13); (0xFE20, 0xFE2F); (0xFE52, 0xFE52); (0xFE55, 0xFE55);
    (0xFEFF, 0xFEFF); (0xFF07, 0xFF07); (0xFF0E, 0xFF0E); (0xFF1A, 0xFF1A);
    (0xFF3E, 0xFF3E); (0xFF40, 0xFF40); (0xFF70, 0xFF70); (0xFF9E, 0xFF9F);
    (0xFFE3, 0xFFE3); (0xFFF9, 0xFFFB); (0x101FD, 0x101FD);
    (0x102E0, 0x102E0); (0x10376, 0x1037A); (0x10780, 0x10785);
    (0x10787, 0x107B0); (0x107B2, 0x107BA); (0x10A01, 0x10A03);
    (0x10A05, 0x10A06); (0x10A0C, 0x10A0F); (0x10A38, 0x10A3A);
    (0x10A3F, 0x10A3F); (0x10AE5, 0x10AE6); (0x10D24, 0x10D27);
    (0x10EAB, 0x10EAC); (0x10F46, 0x10F50); (0x10F82, 0x10F85);
    (0x11001, 0x11001); (0x11038, 0x11046); (0x11070, 0x11070);
    (0x11073, 0x11074); (0x1107F, 0x11081); (0x110B3, 0x110B6);
    (0x110B9, 0x110BA); (0x110BD, 0x110BD); (0x110C2, 0x110C2);
    (0x110CD, 0x110CD); (0x11100, 0x11102); (0x11127, 0x1112B);
    (0x1112D, 0x11134); (0x11173, 0x11173); (0x11180, 0x11181);
    (0x111B6, 0x111BE); (0x111C9, 0x111CC); (0x111CF, 0x111CF);
    (0x1122F, 0x11231); (0x11234, 0x11234); (0x11236, 0x11237);
    (0x1123E, 0x1123E); (0x112DF, 0x112DF); (0x112E3, 0x112EA);
    (0x11300, 0x11301); (0x1133B, 0x1133C); (0x11340, 0x11340);
    (0x11366, 0x1136C); (0x11370, 0x11374); (0x11438, 0x1143F);
    (0x11442, 0x11444); (0x11446, 0x11446); (0x1145E, 0x1145E);
    (0x114B3, 0x114B8); (0x114BA, 0x114BA); (0x114BF, 0x114C0);
    (0x114C2, 0x114C3); (0x115B2, 0x115B5); (0x115BC, 0x115BD);
    (0x115BF, 0x115C0); (0x115DC, 0x115DD); (0x11633, 0x1163A);
    (0x1163D, 0x1163D); (0x1163F, 0x11640); (0x116AB, 0x116AB);
    (0x116AD, 0x116AD); (0x116B0, 0x116B5); (0x116B7, 0x116B7);
    (0x1171D, 0x1171F); (0x11722, 0x11725); (0x11727, 0x1172B);
    (0x1182F, 0x11837); (0x11839, 0x1183A); (0x1193B, 0x1193C);
    (0x1193E, 0x1193E); (0x11943, 0x11943); (0x119D4, 0x119D7);
    (0x119DA, 0x119DB); (0x119E0, 0x119E0); (0x11A01, 0x11A0A);
    (0x11A33, 0x11A38); (0x11A3B, 0x11A3E); (0x11A47, 0x11A47);
    (0x11A51, 0x11A56); (0x11A59, 0x11A5B); (0x11A8A, 0x11A96);
    (0x11A98, 0x11A99); (0x11C30, 0x11C36); (0x11C38, 0x11C3D);
    (0x11C3F, 0x11C3F); (0x11C92, 0x11CA7); (0x11CAA, 0x11CB0);
    (0x11CB2, 0x11CB3); (0x11CB5, 0x11CB6); (0x11D31, 0x11D36);
    (0x11D3A, 0x11D3A); (0x11D3C, 0x11D3D); (0x11D3F, 0x11D45);
    (0x11D47, 0x11D47); (0x11D90, 0x11D91); (0x11D95, 0x11D95);
    (0x11D97, 0x11D97); (0x11EF3, 0x11EF4); (0x13430, 0x13438);
    (0x16AF0, 0x16AF4); (0x16B30, 0x16B36); (0x16B40, 0x16B43);
    (0x16F4F, 0x16F4F); (0x16F8F, 0x16F9F); (0x16FE0, 0x16FE1);
    (0x16FE3, 0x16FE4); (0x1AFF0, 0x1AFF3); (0x1AFF5, 0x1AFFB);
    (0x1AFFD, 0x1AFFE); (0x1BC9D, 0x1BC9E); (0x1BCA0, 0x1BCA3);
    (0x1CF00, 0x1CF2D); (0x1CF30, 0x1CF46); (0x1D167, 0x1D169);
    (0x1D173, 0x1D182); (0x1D185, 0x1D18B); (0x1D1AA, 0x1D1AD);
    (0x1D242, 0x1D244); (0x1DA00, 0x1DA36); (0x1DA3B, 0x1DA6C);
    (0x1DA75, 0x1DA75); (0x1DA84, 0x1DA84); (0x1DA9B, 0x1DA9F);
    (0x1DAA1, 0x1DAAF); (0x1E000, 0x1E006); (0x1E008, 0x1E018);
    (0x1E01B, 0x1E021); (0x1E023, 0x1E024); (0x1E026, 0x1E02A);
    (0x1E130, 0x1E13D); (0x1E2AE, 0x1E2AE); (0x1E2EC, 0x1E2EF);
    (0x1E8D0, 0x1E8D6); (0x1E944, 0x1E94B); (0x1F3FB, 0x1F3FF);
    (0xE0001, 0xE0001); (0xE0020, 0xE007F); (0xE0100, 0xE01EF)
  ]%N.

(** The cased letters that are not case-ignorable. *)
Definition casedRanges : list (N * N) :=
  [
    (0x41, 0x5A); (0x61, 0x7A); (0xAA, 0xAA); (0xB5, 0xB5); (0xBA, 0xBA);
    (0xC0, 0xD6); (0xD8, 0xF6); (0xF8, 0x1BA); (0x1BC, 0x1BF); (0x1C4, 0x293);
    (0x295, 0x2AF); (0x370, 0x373); (0x376, 0x377); (0x37B, 0x37D);
    (0x37F, 0x37F); (0x386, 0x386); (0x388, 0x38A); (0x38C, 0x38C);
    (0x38E, 0x3A1); (0x3A3, 0x3F5); (0x3F7, 0x481); (0x48A, 0x52F);
    (0x531, 0x556); (0x560, 0x588); (0x10A0, 0x10C5); (0x10C7, 0x10C7);
    (0x10CD, 0x10CD); (0x10D0, 0x10FA); (0x10FD, 0x10FF); (0x13A0, 0x13F5);
    (0x13F8, 0x13FD); (0x1C80, 0x1C88); (0x1C90, 0x1CBA); (0x1CBD, 0x1CBF);
    (0x1D00, 0x1D2B); (0x1D6B, 0x1D77); (0x1D79, 0x1D9A); (0x1E00, 0x1F15);
    (0x1F18, 0x1F1D); (0x1F20, 0x1F45); (0x1F48, 0x1F4D); (0x1F50, 0x1F57);
    (0x1F59, 0x1F59); (0x1F5B, 0x1F5B); (0x1F5D, 0x1F5D); (0x1F5F, 0x1F7D);
    (0x1F80, 0x1FB4); (0x1FB6, 0x1FBC); (0x1FBE, 0x1FBE); (0x1FC2, 0x1FC4);
    (0x1FC6, 0x1FCC); (0x1FD0, 0x1FD3); (0x1FD6, 0x1FDB); (0x1FE0, 0x1FEC);
    (0x1FF2, 0x1FF4); (0x1FF6, 0x1FFC); (0x2102, 0x2102); (0x2107, 0x2107);
    (0x210A, 0x2113); (0x2115, 0x2115); (0x2119, 0x211D); (0x2124, 0x2124);
    (0x2126, 0x2126); (0x2128, 0x2128); (0x212A, 0x212D); (0x212F, 0x2134);
    (0x2139, 0x2139); (0x213C, 0x213F); (0x2145, 0x2149); (0x214E, 0x214E);
    (0x2160, 0x217F); (0x2183, 0x2184); (0x24B6, 0x24E9); (0x2C00, 0x2C7B);
    (0x2C7E, 0x2CE4); (0x2CEB, 0x2CEE); (0x2CF2, 0x2CF3); (0x2D00, 0x2D25);
    (0x2D27, 0x2D27); (0x2D2D, 0x2D2D); (0xA640, 0xA66D); (0xA680, 0xA69B);
    (0xA722, 0xA76F); (0xA771, 0xA787); (0xA78B, 0xA78E); (0xA790, 0xA7CA);
    (0xA7D0, 0xA7D1); (0xA7D3, 0xA7D3); (0xA7D5, 0xA7D9); (0xA7F5, 0xA7F6);
    (0xA7FA, 0xA7FA); (0xAB30, 0xAB5A); (0xAB60, 0xAB68); (0xAB70, 0xABBF);
    (0xFB00, 0xFB06); (0xFB13, 0xFB17); (0xFF21, 0xFF3A); (0xFF41, 0xFF5A);
    (0x10400, 0x1044F); (0x104B0, 0x104D3); (0x104D8, 0x104FB);
    (0x10570, 0x1057A); (0x1057C, 0x1058A); (0x1058C, 0x10592);
    (0x10594, 0x10595); (0x10597, 0x105A1); (0x105A3, 0x105B1);
    (0x105B3, 0x105B9); (0x105BB, 0x105BC); (0x10C80, 0x10CB2);
    (0x10CC0, 0x10CF2); (0x118A0, 0x118DF); (0x16E40, 0x16E7F);
    (0x1D400, 0x1D454); (0x1D456, 0x1D49C); (0x1D49E, 0x1D49F);
    (0x1D4A2, 0x1D4A2); (0x1D4A5, 0x1D4A6); (0x1D4A9, 0x1D4AC);
    (0x1D4AE, 0x1D4B9); (0x1D4BB, 0x1D4BB); (0x1D4BD, 0x1D4C3);
    (0x1D4C5, 0x1D505); (0x1D507, 0x1D50A); (0x1D50D, 0x1D514);
    (0x1D516, 0x1D51C); (0x1D51E, 0x1D539); (0x1D53B, 0x1D53E);
    (0x1D540, 0x1D544); (0x1D546, 0x1D546); (0x1D54A, 0x1D550);
    (0x1D552, 0x1D6A5); (0x1D6A8, 0x1D6C0); (0x1D6C2, 0x1D6DA);
    (0x1D6DC, 0x1D6FA); (0x1D6FC, 0x1D714); (0x1D716, 0x1D734);
    (0x1D736, 0x1D74E); (0x1D750, 0x1D76E); (0x1D770, 0x1D788);
    (0x1D78A, 0x1D7A8); (0x1D7AA, 0x1D7C2); (0x1D7C4, 0x1D7CB);
    (0x1DF00, 0x1DF09); (0x1DF0B, 0x1DF1E); (0x1E900, 0x1E943);
    (0x1F130, 0x1F149); (0x1F150, 0x1F169); (0x1F170, 0x1F189)
  ]%N.

(** The tables are sorted by their first code point. *)
Fixpoint inRanges (ranges : list (N * N)) (cp : N) : bool :=
  match ranges with
  | [] => false
  | (a, b) :: rest =>
      if (cp <? a)%N then false
      else if (cp <=? b)%N then true
      else inRanges rest cp
  end.

Fixpoint inRuns (runs : list (N * N * N * Z)) (cp : N) : option N :=
  match runs with
  | [] => None
  | (a, b, stride, delta) :: rest =>
      if (cp <? a)%N then None
      else if ((cp <=? b) && ((cp - a) mod stride =? 0))%N
           then Some (Z.to_N (Z.of_N cp + delta))
           else inRuns rest cp
  end.

Fixpoint inSpecial (special : list (N * list N)) (cp : N) : option (list N) :=
  match special with
  | [] => None
  | (a, l) :: rest =>
      if (cp <? a)%N then None
      else if (cp =? a)%N then Some l
      else inSpecial rest cp
  end.

Definition caseMapping (special : list (N * list N)) (runs : list (N * N * N * Z))
  (cp : N) : list N :=
  match inSpecial special cp with
  | Some l => l
  | None => match inRuns runs cp with
            | Some c => [c]
            | None => [cp]
            end
  end.

Definition upperCodePoint (cp : N) : list N :=
  if (cp <? 128)%N then [upperUnit cp] else caseMapping upperSpecial upperRuns cp.

Definition lowerCodePoint (cp : N) : list N :=
  if (cp <? 128)%N then [lowerUnit cp] else caseMapping lowerSpecial lowerRuns cp.

Definition isCaseIgnorable : N -> bool := inRanges caseIgnorableRanges.
Definition isCased : N -> bool := inRanges casedRanges.

Definition toUpperCase (s : jsstring) : jsstring :=
  fromCodePoints (flat_map upperCodePoint (codePoints s)).

(** The capital sigma is the one letter whose lower case depends on its
    place: it is the final sigma when a cased letter comes before it and
    none after it, case-ignorable characters being passed over on both
    sides. *)
Fixpoint beforeCased (cps : list N) : bool :=
  match cps with
  | [] => false
  | c :: r => if isCaseIgnorable c then beforeCased r else isCased c
  end.

Fixpoint lowerFrom (afterCased : bool) (cps : list N) : list N :=
  match cps with
  | [] => []
  | c :: r =>
      (if (c =? 0x3A3)%N
       then [if afterCased && negb (beforeCased r) then 0x3C2%N else 0x3C3%N]
       else lowerCodePoint c)
      ++ lowerFrom (if isCaseIgnorable c then afterCased else isCased c) r
  end.

Definition toLowerCase (s : jsstring) : jsstring :=
  fromCodePoints (lowerFrom false (codePoints s)).

(** The decimal digits of a natural number. *)
Fixpoint digits_aux (fuel : nat) (n : N) (acc : jsstring) : jsstring :=
  match fuel with
  | O => acc
  | S f =>
      let acc' := (48 + n mod 10)%N :: acc in
      if (n <? 10)%N then acc' else digits_aux f (n / 10)%N acc'
  end.

Definition digits (n : N) : jsstring := digits_aux (S (N.to_nat (N.log2 n))) n [].

(** ** Numbers

    A Number is an IEEE 754 double.  [Finite negative m e] is the double
    nearest to [m * 2^e] (ties to the even mantissa), with its sign: every
    integer of at most 53 bits is such a double as it is, [2^63] is
    [Finite false 1 63], one half is [Finite false 1 (-1)]. *)

Inductive number :=
| NaN
| Infinity (negative : bool)
| Finite (negative : bool) (m : N) (e : Z).

Definition ofZ (z : Z) : number := Finite (z <? 0)%Z (Z.abs_N z) 0.

(** The absolute value of a finite double: zero, or a mantissa below [2^53]
    and an exponent from [-1074] to [971], the mantissa being at least
    [2^52] unless the exponent is [-1074]. *)
Inductive magnitude :=
| MZero
| MInfinite
| MFinite (m : N) (e : Z).

(** [m / 2^shift], rounded to the nearest integer, ties to even. *)
Definition roundShift (m shift : N) : N :=
  if (shift =? 0)%N then m
  else
    let q := N.shiftr m shift in
    let r := (m - N.shiftl q shift)%N in
    let half := N.shiftl 1 (shift - 1) in
    if (r <? half)%N then q
    else if (half <? r)%N then (q + 1)%N
    else if N.even q then q else (q + 1)%N.

Definition magnitudeOf (m : N) (e : Z) : magnitude :=
  if (m =? 0)%N then MZero
  else
    let e1 := Z.max (e + Z.of_N (N.size m) - 53) (-1074) in
    let m1 := if (e <=? e1)%Z then roundShift m (Z.to_N (e1 - e))
              else N.shiftl m (Z.to_N (e - e1)) in
    let (m2, e2) := if (m1 =? 2 ^ 53)%N then ((2 ^ 52)%N, (e1 + 1)%Z)
                    else (m1, e1) in
    if (m2 =? 0)%N then MZero
    else if (971 <? e2)%Z then MInfinite
    else MFinite m2 e2.

(** [Number::toString] in radix 10 works on the decimal [s * 10^(n-k)] that
    has the fewest digits [k] among those that the double nearest to them
    is the number, and among these is the nearest to the number.  The
    comparisons are exact: [cmpScaled s p x q] compares [s * 10^p] with
    [x * 2^q]. *)
Definition cmpScaled (s p x q : Z) : comparison :=
  (s * 10 ^ Z.max p 0 * 2 ^ Z.max (- q) 0
   ?= x * 2 ^ Z.max q 0 * 10 ^ Z.max (- p) 0)%Z.

(** The integer part of [x * 2^q / 10^p]. *)
Definition floorScaled (x q p : Z) : Z :=
  ((x * 2 ^ Z.max q 0 * 10 ^ Z.max (- p) 0)
   / (2 ^ Z.max (- q) 0 * 10 ^ Z.max p 0))%Z.

(** The [n] with [10^(n-1) <= x * 2^q < 10^n], found from an estimate. *)
Fixpoint exponentDown (fuel : nat) (x q n : Z) : Z :=
  match fuel with
  | O => n
  | S f => match cmpScaled 1 (n - 1) x q with
           | Gt => exponentDown f x q (n - 1)
           | _ => n
           end
  end.

Fixpoint exponentUp (fuel : nat) (x q n : Z) : Z :=
  match fuel with
  | O => n
  | S f => match cmpScaled 1 n x q with
           | Gt => n
           | _ => exponentUp f x q (n + 1)
           end
  end.

Definition decimalExponent (m : N) (e : Z) : Z :=
  let estimate := ((Z.of_N (N.size m) + e) * 30103 / 100000)%Z in
  exponentUp 1100 (Z.of_N m) e (exponentDown 1100 (Z.of_N m) e estimate).

(** Whether the double nearest to [s * 10^p] is [m * 2^e]: the decimal lies
    between the middles of the gaps to the two neighbours of the double, a
    middle being counted in when the mantissa is even.  The gap below a
    power of two is half the gap above it. *)
Definition roundsTo (m : N) (e : Z) (s p : Z) : bool :=
  let x := Z.of_N m in
  let low := if ((m =? 2 ^ 52)%N && (-1074 <? e)%Z)%bool
             then (4 * x - 1)%Z else (4 * x - 2)%Z in
  let high := (4 * x + 2)%Z in
  match cmpScaled s p low (e - 2), cmpScaled s p high (e - 2) with
  | Gt, Lt => true
  | Eq, Lt => N.even m
  | Gt, Eq => N.even m
  | _, _ => false
  end.

(** The decimal of [k] digits for [m * 2^e], if there is one. *)
Definition decimalOf (m : N) (e n k : Z) : option Z :=
  let p := (n - k)%Z in
  let s1 := floorScaled (Z.of_N m) e p in
  let s2 := (s1 + 1)%Z in
  match roundsTo m e s1 p, roundsTo m e s2 p with
  | true, true =>
      match cmpScaled (2 * s1 + 1) p (2 * Z.of_N m) e with
      | Gt => Some s1
      | Lt => Some s2
      | Eq => Some (if Z.even s1 then s1 else s2)
      end
  | true, false => Some s1
  | false, true => Some s2
  | false, false => None
  end.

Fixpoint shortestDecimal (fuel : nat) (m : N) (e n k : Z) : Z * Z :=
  match fuel with
  | O => (0%Z, k)
  | S f => match decimalOf m e n k with
           | Some s => (s, k)
           | None => shortestDecimal f m e n (k + 1)
           end
  end.

Fixpoint dropZeros (rev_digits : jsstring) : jsstring :=
  match rev_digits with
  | c :: r => if (c =? 48)%N then dropZeros r else rev_digits
  | [] => []
  end.

(** The digits of [s] without the zeros at its end, and [n]. *)
Definition decimalDigits (m : N) (e : Z) : jsstring * Z :=
  let n := decimalExponent m e in
  let (s, k) := shortestDecimal 17 m e n 1 in
  let ds := digits (Z.to_N s) in
  (rev (dropZeros (rev ds)), (n + (Z.of_nat (length ds) - k))%Z).

Definition zeros (n : Z) : jsstring := repeat 48%N (Z.to_nat n).

Definition formatDecimal (ds : jsstring) (n : Z) : jsstring :=
  let k := Z.of_nat (length ds) in
  if ((k <=? n) && (n <=? 21))%Z then ds ++ zeros (n - k)
  else if ((0 <? n) && (n <=? 21))%Z
       then firstn (Z.to_nat n) ds ++ 46%N :: skipn (Z.to_nat n) ds
  else if ((-6 <? n) && (n <=? 0))%Z then 48%N :: 46%N :: zeros (- n) ++ ds
  else
    let ex := (n - 1)%Z in
    let exponent := 101%N :: (if (ex <? 0)%Z then 45%N else 43%N)
                             :: digits (Z.abs_N ex) in
    match ds with
    | [] => []
    | [d] => d :: exponent
    | d :: rest => d :: 46%N :: rest ++ exponent
    end.

Definition numberToString (x : number) : jsstring :=
  match x with
  | NaN => [78; 97; 78]%N
  | Infinity negative =>
      (if negative then [45%N] else []) ++ [73; 110; 102; 105; 110; 105; 116; 121]%N
  | Finite negative m e =>
      match magnitudeOf m e with
      | MZero => [48%N]
      | MInfinite =>
          (if negative then [45%N] else [])
            ++ [73; 110; 102; 105; 110; 105; 116; 121]%N
      | MFinite m' e' =>
          let (ds, n) := decimalDigits m' e' in
          (if negative then [45%N] else []) ++ formatDecimal ds n
      end
  end.

(** A number is falsy when it is [NaN] or a zero. *)
Definition numberTruthy (x : number) : bool :=
  match x with
  | NaN => false
  | Infinity _ => true
  | Finite _ m e => match magnitudeOf m e with MZero => false | _ => true end
  end.

(** ** Values

    The values that reach the pipeline: what [JSON.parse] gives, what
    [sheet_to_json] puts in a cell, what a parser stores in the mapping. *)

#[warnings="-register-all"]
Inductive jsval :=
| VUndefined
| VNull
| VBool (b : bool)
| VNum (x : number)
| VStr (s : jsstring)
| VArr (items : list jsval)
| VObj (props : list (jsstring * jsval)).

Definition truthy (v : jsval) : bool :=
  match v with
  | VUndefined | VNull => false
  | VBool b => b
  | VNum x => numberTruthy x
  | VStr s => negb (str_eqb s [])
  | VArr _ | VObj _ => true
  end.

(** [v != null] *)
Definition notNullish (v : jsval) : bool :=
  match v with
  | VUndefined | VNull => false
  | _ => true
  end.

(** [String(v)], which is also the property key that [o[v]] uses.  An array
    is written as its elements joined by commas, [null] and [undefined]
    elements as nothing.  An object is written [[object Object]] by the
    method it inherits; when a property of its own hides that method,
    [String] throws instead: [ToString] is [String] on the values that are
    [printable] (below), and [StringOf] is [String] with its exception.
    The cells of a data sheet and the values of a mapping, on which
    [sheetRow] and [makePairs] call [ToString], are taken to be
    printable. *)
Fixpoint ToString (v : jsval) : jsstring :=
  match v with
  | VUndefined => js "undefined"
  | VNull => js "null"
  | VBool true => js "true"
  | VBool false => js "false"
  | VNum x => numberToString x
  | VStr s => s
  | VArr items =>
      join (js ",")
           (map (fun x => match x with
                          | VUndefined | VNull => []
                          | _ => ToString x
                          end) items)
  | VObj _ => js "[object Object]"
  end.

(** [a || b] *)
Definition orElse (a b : jsval) : jsval := if truthy a then a else b.

(** ** Objects used as maps *)

Definition obj (V : Type) := list (jsstring * V).

Fixpoint parseDigits (acc : N) (s : jsstring) : option N :=
  match s with
  | [] => Some acc
  | c :: r =>
      if ((48 <=? c) && (c <=? 57))%N then parseDigits (acc * 10 + (c - 48))%N r
      else None
  end.

(** A property key is an array index when it is the canonical decimal form of
    an integer below [2^32 - 1]; such keys are enumerated first, in ascending
    order. *)
Definition arrayIndex (k : jsstring) : option N :=
  match k with
  | [] => None
  | c :: r =>
      if (c =? 48)%N then match r with [] => Some 0%N | _ => None end
      else match parseDigits 0 k with
           | Some n => if (n <? 4294967295)%N then Some n else None
           | None => None
           end
  end.

Section Objects.
Context {V : Type}.

Fixpoint obj_get (o : obj V) (k : jsstring) : option V :=
  match o with
  | [] => None
  | (k', v) :: o' => if str_eqb k' k then Some v else obj_get o' k
  end.

Definition obj_has (o : obj V) (k : jsstring) : bool :=
  match obj_get o k with Some _ => true | None => false end.

Fixpoint obj_replace (o : obj V) (k : jsstring) (v : V) : obj V :=
  match o with
  | [] => []
  | (k', v') :: o' =>
      if str_eqb k' k then (k', v) :: o' else (k', v') :: obj_replace o' k v
  end.

(** A new array-index key goes before the first key that is not a smaller
    array index. *)
Fixpoint obj_insertIndex (o : obj V) (n : N) (k : jsstring) (v : V) : obj V :=
  match o with
  | [] => [(k, v)]
  | (k', v') :: o' =>
      match arrayIndex k' with
      | Some m =>
          if (m <? n)%N then (k', v') :: obj_insertIndex o' n k v
          else (k, v) :: o
      | None => (k, v) :: o
      end
  end.

(** [o[k] = v].  On a plain object the key [__proto__] is the accessor of
    [Object.prototype]: assigning to it creates no property. *)
Definition obj_set (o : obj V) (k : jsstring) (v : V) : obj V :=
  if str_eqb k (js "__proto__") then o
  else if obj_has o k then obj_replace o k v
  else match arrayIndex k with
       | Some n => obj_insertIndex o n k v
       | None => o ++ [(k, v)]
       end.

(** [Object.keys(o)], [Object.entries(o)] is [o] itself. *)
Definition keys (o : obj V) : list jsstring := map fst o.
End Objects.

(** Whether [String(v)] returns.  The objects of the pipeline are plain
    data: none of their properties is a function.  For such an object
    [String] calls the inherited [toString], unless a property [toString]
    of its own hides it, and then it throws a [TypeError].  An array is
    written through the [String] of its elements. *)
Fixpoint printable (v : jsval) : bool :=
  match v with
  | VArr items => forallb printable items
  | VObj props => negb (obj_has props (js "toString"))
  | _ => true
  end.

(** [o.k], [undefined] when [o] has no such property. *)
Definition obj_prop (o : obj jsval) (k : jsstring) : jsval :=
  match obj_get o k with
  | Some v => v
  | None => VUndefined
  end.

(** ** Exceptions *)

Inductive result (A : Type) :=
| Ok (a : A)
| Thrown.
Arguments Ok {A} a.
Arguments Thrown {A}.

Definition bind {A B} (r : result A) (k : A -> result B) : result B :=
  match r with
  | Ok a => k a
  | Thrown => Thrown
  end.

(** [String(v)] where the handler that calls it has a [catch] for it. *)
Definition StringOf (v : jsval) : result jsstring :=
  if printable v then Ok (ToString v) else Thrown.

(** [v.trim()] throws a TypeError on a value that is not a string. *)
Definition trimVal (v : jsval) : result jsstring :=
  match v with
  | VStr s => Ok (trim s)
  | _ => Thrown
  end.

End JS.

Import JS.

Declare Scope js_scope.
Notation "x <- r ;; k" := (bind r (fun x => k))
  (at level 61, r at next level, right associativity) : js_scope.
Open Scope js_scope.

(** The labels and decorations of the source. *)
Definition label_deviceId : jsstring := js "设备编号".
Definition label_deviceName : jsstring := js "设备名称".
Definition label_model : jsstring := js "型号".
Definition label_manufacturer : jsstring := js "厂家".
Definition delim_start : jsstring := js "$%".
Definition delim_end : jsstring := js "%$".

(* ================================================================== *)
(** * Identifier normalisation *)
(* ================================================================== *)

Module Normalizer.

(** [processData], the test of [Object.keys(data).find]:
    [k.trim().replace(/^\$%|%\$$/g, '')].  The pattern is global with two
    alternatives: [^\$%] can only match at index 0, and [%\$$] only at the
    end, at or after the end of an earlier match. *)
Definition replaceDecoration (s : jsstring) : jsstring :=
  let s1 := if startsWith delim_start s then skipn 2 s else s in
  if endsWith delim_end s1 then firstn (length s1 - 2) s1 else s1.

Definition processData_clean (k : jsstring) : jsstring :=
  replaceDecoration (trim k).

(** [handleMerge], the body of [keyValuePairs.forEach]:
    [cleanKey = key.trim()], sliced when it starts with [$%] and ends with
    [%$]. *)
Definition handleMerge_cleanKey (key : jsstring) : jsstring :=
  let cleanKey := trim key in
  if startsWith delim_start cleanKey && endsWith delim_end cleanKey
  then slice cleanKey 2 (-2)
  else cleanKey.

End Normalizer.

Import Normalizer.

(* ================================================================== *)
(** * Data model and collaborators *)
(* ================================================================== *)

Module Vault.

Definition bytes := list N.

(** A stored blob, by what reading it gives: [content.text()] and
    [content.arrayBuffer()] (or a [FileReader]); [Thrown] when the read
    fails. *)
Record Blob := {
  blob_text : result jsstring;
  blob_arrayBuffer : result bytes
}.

(** [types.ts]: the fields of [FileMetadata] and [StoredFile] that the
    pipeline reads. *)
Record FileMetadata := {
  meta_id : jsstring;
  meta_name : jsstring;
  meta_isDeviceInfo : bool
}.

Record StoredFile := {
  sf_id : jsstring;
  sf_name : jsstring;
  sf_type : jsstring;
  sf_content : Blob
}.

(** [services/storage.ts]: [getAllMetadata] gives the records in the order
    of the store's answer; both calls reject when the request fails, and
    [getFile] resolves to [undefined] for an unknown id. *)
Record Store := {
  getAllMetadata : result (list FileMetadata);
  getFile : jsstring -> result (option StoredFile)
}.

(** A table of the HTML that [mammoth.convertToHtml] gives, as the DOM
    queries of the source see it: [table.querySelectorAll('tr')], and for
    each row its [td] and [th] cells in document order. *)
Record Cell := {
  cell_th : bool;
  textContent : jsstring
}.
Definition TableRow := list Cell.
Definition Table := list TableRow.

(** The parsed document: [doc.querySelectorAll('table')],
    [doc.querySelectorAll('tr')] and [doc.body.textContent]. *)
Record HtmlDoc := {
  doc_tables : list Table;
  doc_rows : list TableRow;
  doc_bodyText : jsstring
}.

(** [row.querySelectorAll('td')] *)
Definition tdCells (r : TableRow) : list Cell :=
  filter (fun c => negb (cell_th c)) r.

(** [window.XLSX]: [XLSX.read] of a buffer followed by [sheet_to_json] of the
    first sheet, without options (one object per data row, keyed by the header
    labels) and with [{header: 1}] (one array per row). *)
Record Xlsx := {
  sheet_objects : bytes -> result (list (obj jsval));
  sheet_rows : bytes -> result (list (list jsval))
}.

(** [window.mammoth] *)
Record Mammoth := {
  convertToHtml : bytes -> result HtmlDoc;
  extractRawText : bytes -> result jsstring
}.

(** What the page finds in [window] when a handler runs, and the built-in
    functions whose results it cannot compute itself.  [docxtemplater]
    stands for [new PizZip(buffer)], [new docxtemplater(zip, options)] with
    the delimiters [$%] and [%$], [doc.render(data)] and
    [doc.getZip().generate]: the bytes of the rendered document, or
    [Thrown].  [JSON_parse] is [Thrown] on a text that is not JSON. *)
Record Runtime := {
  XLSX : option Xlsx;
  mammoth : option Mammoth;
  PizZip : bool;
  docxtemplater : option (bytes -> obj jsstring -> result bytes);
  JSON_parse : jsstring -> result jsval;
  randomUUID : nat -> jsstring;
  now : N
}.

Inductive PairStatus := replaced | not_found.

Record KeyValuePair := {
  id : jsstring;
  key : jsstring;
  value : jsstring;
  status : option PairStatus
}.

Inductive MergeStatus := idle | processing | success | error.

(** The texts given to [setMergeMessage]. *)
Inductive Message :=
| MsgNone
| MsgLoadingDefault
| MsgLoading
| MsgParsing
| MsgFoundDevice (deviceId : jsstring)
| MsgLoaded (n : nat)
| MsgNoIdentifiers
| MsgHandleError (msg : string)
| MsgProcessed
| MsgReplaced (n : nat)
| MsgFailedToProcess.

Inductive BlobPart :=
| PartString (s : jsstring)
| PartBytes (b : bytes).

(** [new File([part], name, {type, lastModified})] *)
Record File := {
  file_part : BlobPart;
  file_name : jsstring;
  file_type : jsstring;
  file_lastModified : N
}.

Inductive LogEntry :=
| Warn (msg : string)
| Error (msg : string).

(** The state of [DetailSidebar] that the merge handlers read and write;
    [uuidsDrawn] counts the calls of [crypto.randomUUID]. *)
Record Session := {
  fileData : option StoredFile;
  keyValuePairs : list KeyValuePair;
  mergeStatus : MergeStatus;
  mergeMessage : Message;
  dataFileName : option jsstring;
  resultFile : option File;
  uuidsDrawn : nat
}.

Definition setKeyValuePairs (ps : list KeyValuePair) (s : Session) : Session :=
  {| fileData := fileData s; keyValuePairs := ps;
     mergeStatus := mergeStatus s; mergeMessage := mergeMessage s;
     dataFileName := dataFileName s; resultFile := resultFile s;
     uuidsDrawn := uuidsDrawn s |}.

Definition setMergeStatus (st : MergeStatus) (s : Session) : Session :=
  {| fileData := fileData s; keyValuePairs := keyValuePairs s;
     mergeStatus := st; mergeMessage := mergeMessage s;
     dataFileName := dataFileName s; resultFile := resultFile s;
     uuidsDrawn := uuidsDrawn s |}.

Definition setMergeMessage (m : Message) (s : Session) : Session :=
  {| fileData := fileData s; keyValuePairs := keyValuePairs s;
     mergeStatus := mergeStatus s; mergeMessage := m;
     dataFileName := dataFileName s; resultFile := resultFile s;
     uuidsDrawn := uuidsDrawn s |}.

Definition setDataFileName (n : option jsstring) (s : Session) : Session :=
  {| fileData := fileData s; keyValuePairs := keyValuePairs s;
     mergeStatus := mergeStatus s; mergeMessage := mergeMessage s;
     dataFileName := n; resultFile := resultFile s;
     uuidsDrawn := uuidsDrawn s |}.

Definition setResultFile (f : option File) (s : Session) : Session :=
  {| fileData := fileData s; keyValuePairs := keyValuePairs s;
     mergeStatus := mergeStatus s; mergeMessage := mergeMessage s;
     dataFileName := dataFileName s; resultFile := f;
     uuidsDrawn := uuidsDrawn s |}.

Definition drawUUIDs (n : nat) (s : Session) : Session :=
  {| fileData := fileData s; keyValuePairs := keyValuePairs s;
     mergeStatus := mergeStatus s; mergeMessage := mergeMessage s;
     dataFileName := dataFileName s; resultFile := resultFile s;
     uuidsDrawn := uuidsDrawn s + n |}.

End Vault.

Import Vault.

(* ================================================================== *)
(** * Enrichment lookup *)
(* ================================================================== *)

Module Enrichment.

Record Details := {
  deviceName : jsval;
  model : jsval;
  manufacturer : jsval
}.

(** [row[k]] for a key that may be [undefined] ([k ? row[k] : undefined]). *)
Definition field (row : obj jsval) (k : option jsstring) : jsval :=
  match k with
  | Some k' => match obj_get row k' with Some v => v | None => VUndefined end
  | None => VUndefined
  end.

(** [rowKeys.find(k => k.trim() === label)] *)
Definition findKey (label : jsstring) (rowKeys : list jsstring) : option jsstring :=
  find (fun k => str_eqb (trim k) label) rowKeys.

(** The loop over the rows of a sheet.  [idKey] is not empty when it is
    found, so [idKey && ...] tests that it was found; [deviceId.trim()] is
    evaluated only then. *)
Fixpoint scanSheet (deviceId : jsval) (json : list (obj jsval))
  : result (option Details) :=
  match json with
  | [] => Ok None
  | row :: rest =>
      let rowKeys := keys row in
      match findKey label_deviceId rowKeys with
      | Some idKey =>
          cell <- StringOf (field row (Some idKey)) ;;
          d <- trimVal deviceId ;;
          if str_eqb (trim cell) d then
            Ok (Some {| deviceName := field row (findKey label_deviceName rowKeys);
                        model := field row (findKey label_model rowKeys);
                        manufacturer := field row (findKey label_manufacturer rowKeys) |})
          else scanSheet deviceId rest
      | None => scanSheet deviceId rest
      end
  end.

(** [index !== -1 ? cells[index]?.textContent?.trim() : undefined] *)
Definition cellText (cells : list Cell) (index : option nat) : jsval :=
  match index with
  | Some i => match nth_error cells i with
              | Some c => VStr (trim (textContent c))
              | None => VUndefined
              end
  | None => VUndefined
  end.

(** The loop [for (let i = 1; i < rows.length; i++)] over the rows below the
    header. *)
Fixpoint scanTableRows (deviceId : jsval) (headerCells : list jsstring)
  (idIndex : nat) (rows : list TableRow) : result (option Details) :=
  match rows with
  | [] => Ok None
  | r :: rest =>
      let cells := tdCells r in
      match nth_error cells idIndex with
      | Some c =>
          d <- trimVal deviceId ;;
          if str_eqb (trim (textContent c)) d then
            Ok (Some {| deviceName := cellText cells (indexOf label_deviceName headerCells);
                        model := cellText cells (indexOf label_model headerCells);
                        manufacturer := cellText cells (indexOf label_manufacturer headerCells) |})
          else scanTableRows deviceId headerCells idIndex rest
      | None => scanTableRows deviceId headerCells idIndex rest
      end
  end.

(** The loop over the tables of a document. *)
Fixpoint scanTables (deviceId : jsval) (tables : list Table)
  : result (option Details) :=
  match tables with
  | [] => Ok None
  | rows :: more =>
      match rows with
      | header :: ((_ :: _) as body) =>
          let headerCells := map (fun c => trim (textContent c)) header in
          match indexOf label_deviceId headerCells with
          | Some idIndex =>
              found <- scanTableRows deviceId headerCells idIndex body ;;
              match found with
              | Some d => Ok (Some d)
              | None => scanTables deviceId more
              end
          | None => scanTables deviceId more
          end
      | _ => scanTables deviceId more
      end
  end.

(** One turn of [for (const fileMeta of deviceFiles)]: [Ok (Some d)] is the
    [return] of a match, [Ok None] a turn that ends without one. *)
Definition scanFile (rt : Runtime) (st : Store) (deviceId : jsval)
  (fileMeta : FileMetadata) : result (option Details) :=
  file <- getFile st (meta_id fileMeta) ;;
  match file with
  | None => Ok None
  | Some file =>
      let fname := toLowerCase (sf_name file) in
      if endsWith (js ".xlsx") fname || endsWith (js ".xls") fname then
        match XLSX rt with
        | Some xlsx =>
            buffer <- blob_arrayBuffer (sf_content file) ;;
            json <- sheet_objects xlsx buffer ;;
            scanSheet deviceId json
        | None => Ok None
        end
      else if endsWith (js ".docx") fname || endsWith (js ".doc") fname then
        match mammoth rt with
        | Some mm =>
            buffer <- blob_arrayBuffer (sf_content file) ;;
            doc <- convertToHtml mm buffer ;;
            scanTables deviceId (doc_tables doc)
        | None => Ok None
        end
      else Ok None
  end.

Fixpoint scanFiles (rt : Runtime) (st : Store) (deviceId : jsval)
  (deviceFiles : list FileMetadata) : result (option Details) :=
  match deviceFiles with
  | [] => Ok None
  | fileMeta :: rest =>
      found <- scanFile rt st deviceId fileMeta ;;
      match found with
      | Some d => Ok (Some d)
      | None => scanFiles rt st deviceId rest
      end
  end.

(** [searchDeviceInStorage]: one [try] around the whole scan; its [catch]
    logs a warning and the function returns [null]. *)
Definition searchDeviceInStorage (rt : Runtime) (st : Store) (deviceId : jsval)
  : option Details * list LogEntry :=
  match (allFiles <- getAllMetadata st ;;
         scanFiles rt st deviceId (filter meta_isDeviceInfo allFiles)) with
  | Ok found => (found, [])
  | Thrown => (None, [Warn "Error searching device info"])
  end.

(** [processData], up to the construction of the pairs: the search for the
    device-id key and the enrichment of [data].  The [try] around the call of
    [searchDeviceInStorage] never catches anything, since that function does
    not throw. *)
Definition findDeviceIdKey (data : obj jsval) : option jsstring :=
  find (fun k => str_eqb (processData_clean k) label_deviceId) (keys data).

Definition deviceIdOf (data : obj jsval) : jsval :=
  match findDeviceIdKey data with
  | Some deviceIdKey =>
      if negb (str_eqb deviceIdKey [])
      then field data (Some deviceIdKey)
      else VStr []
  | None => VStr []
  end.

Definition setIfTruthy (data : obj jsval) (k : jsstring) (v : jsval) : obj jsval :=
  if truthy v then obj_set data k v else data.

Definition applyDetails (data : obj jsval) (details : Details) : obj jsval :=
  let data1 := setIfTruthy data (js "$%设备名称%$") (deviceName details) in
  let data2 := setIfTruthy data1 (js "$%型号%$") (model details) in
  setIfTruthy data2 (js "$%厂家%$") (manufacturer details).

Definition enrich (rt : Runtime) (st : Store) (data : obj jsval)
  : obj jsval * list LogEntry :=
  let deviceId := deviceIdOf data in
  if truthy deviceId then
    match searchDeviceInStorage rt st deviceId with
    | (Some details, log) => (applyDetails data details, log)
    | (None, log) => (data, log)
    end
  else (data, []).

(** [Object.entries(data).map(...)]: the [i]-th pair takes the next UUID. *)
Fixpoint makePairs (rt : Runtime) (drawn : nat) (entries : obj jsval)
  : list KeyValuePair :=
  match entries with
  | [] => []
  | (k, v) :: rest =>
      {| id := randomUUID rt drawn; key := k; value := ToString v;
         status := None |} :: makePairs rt (S drawn) rest
  end.

Definition processData (rt : Runtime) (st : Store) (data : obj jsval)
  (s : Session) : Session * list LogEntry :=
  let deviceId := deviceIdOf data in
  let s1 := if truthy deviceId
            then setMergeMessage (MsgFoundDevice (ToString deviceId)) s
            else s in
  let (data', log) := enrich rt st data in
  let pairs := makePairs rt (uuidsDrawn s1) data' in
  let s2 := drawUUIDs (length pairs) s1 in
  match pairs with
  | _ :: _ =>
      (setMergeMessage (MsgLoaded (length pairs))
         (setMergeStatus idle (setKeyValuePairs pairs s2)), log)
  | [] =>
      (setMergeMessage MsgNoIdentifiers
         (setMergeStatus error (setKeyValuePairs [] s2)), log)
  end.

End Enrichment.

Import Enrichment.

(* ================================================================== *)
(** * Format parsers *)
(* ================================================================== *)

Module Parsers.

(** [span p s]: the longest prefix of [s] whose characters satisfy [p], and
    the rest. *)
Fixpoint span (p : N -> bool) (s : jsstring) : jsstring * jsstring :=
  match s with
  | [] => ([], [])
  | c :: r => if p c then let (a, b) := span p r in (c :: a, b) else ([], s)
  end.

(** The pattern of the text handler: from the start of the line, group 1 is
    one or more characters other than [:], [=] and [,]; then come one or more
    of [:], [=], [,] and tab; group 2 is the rest, which must reach the end
    of the line without a line terminator. *)
Definition isKeyChar (c : N) : bool :=
  negb ((c =? 58) || (c =? 61) || (c =? 44))%N.

Definition isSepChar (c : N) : bool :=
  ((c =? 58) || (c =? 61) || (c =? 44) || (c =? 9))%N.

Definition noLineTerminator (s : jsstring) : bool :=
  forallb (fun c => negb (isLineTerminator c)) s.

(** The separators and group 2 against [after], with a separator run of at
    most [m] characters, longest first: the value of group 2. *)
Fixpoint matchSeps (m : nat) (after : jsstring) : option jsstring :=
  match m with
  | O => None
  | S m' =>
      let rest := skipn m after in
      if noLineTerminator rest then Some rest else matchSeps m' after
  end.

(** The whole pattern with a group 1 of at most [n] characters, longest
    first. *)
Fixpoint matchKey (n : nat) (s : jsstring) : option (jsstring * jsstring) :=
  match n with
  | O => None
  | S n' =>
      let after := skipn n s in
      match matchSeps (length (fst (span isSepChar after))) after with
      | Some rest => Some (firstn n s, rest)
      | None => matchKey n' s
      end
  end.

Definition matchLine (s : jsstring) : option (jsstring * jsstring) :=
  matchKey (length (fst (span isKeyChar s))) s.

(** The body of [lines.forEach] in the fallback of the text handler. *)
Definition parseLine (data : obj jsval) (line : jsstring) : obj jsval :=
  let trimmed := trim line in
  if str_eqb trimmed [] then data
  else
    match matchLine trimmed with
    | Some (g1, g2) => obj_set data (trim g1) (VStr (trim g2))
    | None =>
        let parts := splitWhitespace trimmed in
        if 2 <=? length parts
        then obj_set data (hd [] parts) (VStr (join (js " ") (tl parts)))
        else obj_set data trimmed (VStr [])
    end.

Definition parseLines (data : obj jsval) (text : jsstring) : obj jsval :=
  fold_left parseLine (splitOn 10 text) data.

(** The callback of [json.forEach] for a parsed array: [item.key] throws on
    [null], and is [undefined] on anything that is not an object with that
    property; [data[item.key]] writes the key as a string. *)
Definition fillItem (data : obj jsval) (item : jsval) : result (obj jsval) :=
  match item with
  | VUndefined | VNull => Thrown
  | VObj props =>
      let k := obj_prop props (js "key") in
      if truthy k
      then key <- StringOf k ;;
           Ok (obj_set data key (orElse (obj_prop props (js "value")) (VStr [])))
      else Ok data
  | _ => Ok data
  end.

(** [json.forEach]: the mapping when the loop ends, and [true] when it ends
    by an exception. *)
Fixpoint fillItems (data : obj jsval) (items : list jsval) : obj jsval * bool :=
  match items with
  | [] => (data, false)
  | item :: rest =>
      match fillItem data item with
      | Ok data' => fillItems data' rest
      | Thrown => (data, true)
      end
  end.

(** The callback of [Object.entries(json).forEach]. *)
Definition fillEntry (data : obj jsval) (kv : jsstring * jsval) : obj jsval :=
  match snd kv with
  | VStr _ => obj_set data (fst kv) (snd kv)
  | _ => data
  end.

(** The first arm of the text handler after [JSON.parse]: an array, then
    anything whose [typeof] is [object] ([null] included, on which
    [Object.entries] throws), then the rest. *)
Definition fillFromJson (json : jsval) : obj jsval * bool :=
  match json with
  | VArr items => fillItems [] items
  | VNull => ([], true)
  | VObj props => (fold_left fillEntry props [], false)
  | _ => ([], false)
  end.

(** The text handler (.json, .txt, .csv) up to the call of [processData]:
    the [catch] arm runs when [JSON.parse] or the filling throws, on the
    mapping as the filling left it. *)
Definition parseTextData (rt : Runtime) (text : jsstring) : obj jsval :=
  match JSON_parse rt text with
  | Ok json =>
      match fillFromJson json with
      | (data, false) => data
      | (partial, true) => parseLines partial text
      end
  | Thrown => parseLines [] text
  end.

(** The body of [jsonData.forEach] in the spreadsheet handler. *)
Definition sheetRow (mapping : obj jsval) (row : list jsval) : obj jsval :=
  match row with
  | c0 :: _ =>
      if notNullish c0 then
        obj_set mapping (trim (ToString c0))
          (VStr (trim (ToString (orElse (nth 1 row VUndefined) (VStr [])))))
      else mapping
  | [] => mapping
  end.

Definition parseSheet (jsonData : list (list jsval)) : obj jsval :=
  fold_left sheetRow jsonData [].

(** The body of [rows.forEach] in the word-processor handler; the second
    component is [foundPairs]. *)
Definition wordRow (acc : obj jsval * bool) (row : TableRow) : obj jsval * bool :=
  let cells := tdCells row in
  match cells with
  | c0 :: _ =>
      let k := trim (textContent c0) in
      let v := match nth_error cells 1 with
               | Some c1 => trim (textContent c1)
               | None => []
               end in
      if negb (str_eqb k []) then (obj_set (fst acc) k (VStr v), true) else acc
  | [] => acc
  end.

(** [trimmed.split(/[:=]\s*/)] *)
Fixpoint splitColonEq_aux (cur : jsstring) (afterSep : bool) (s : jsstring)
  : list jsstring :=
  match s with
  | [] => [rev cur]
  | x :: s' =>
      if afterSep && isWhiteSpace x then splitColonEq_aux cur true s'
      else if ((x =? 58) || (x =? 61))%N then rev cur :: splitColonEq_aux [] true s'
      else splitColonEq_aux (x :: cur) false s'
  end.

Definition splitColonEq (s : jsstring) : list jsstring :=
  splitColonEq_aux [] false s.

(** The body of [lines.forEach] in the paragraph fallback.  [split] gives at
    least one part, so the [else] arm of [parts.length >= 1] is never
    taken. *)
Definition wordLine (mapping : obj jsval) (line : jsstring) : obj jsval :=
  let trimmed := trim line in
  if str_eqb trimmed [] then mapping
  else
    match splitColonEq trimmed with
    | p0 :: rest =>
        let k := trim p0 in
        if negb (str_eqb k [])
        then obj_set mapping k (VStr (trim (join (js " ") rest)))
        else mapping
    | [] => mapping
    end.

(** The word-processor handler up to the call of [processData]: the rows
    of the document, and its text when no row gave a pair. *)
Definition parseWord (doc : HtmlDoc) : obj jsval :=
  let (mapping, foundPairs) := fold_left wordRow (doc_rows doc) ([], false) in
  if foundPairs then mapping
  else fold_left wordLine (splitOn 10 (doc_bodyText doc)) mapping.

Definition handleError (msg : string) (s : Session) : Session :=
  setKeyValuePairs [] (setMergeMessage (MsgHandleError msg) (setMergeStatus error s)).

Definition hasExt (exts : list string) (fileName : jsstring) : bool :=
  existsb (fun e => endsWith (js e) (toLowerCase fileName)) exts.

(** [parseAndLoadDataFile].  A [FileReader] whose read fails never calls
    [onload]: the session stays as it was set before the read. *)
Definition parseAndLoadDataFile (rt : Runtime) (st : Store) (blob : Blob)
  (fileName : jsstring) (s : Session) : Session * list LogEntry :=
  let s0 := setMergeMessage MsgParsing
              (setMergeStatus processing (setDataFileName (Some fileName) s)) in
  if hasExt [".json"; ".txt"; ".csv"]%string fileName then
    match blob_text blob with
    | Ok text => processData rt st (parseTextData rt text) s0
    | Thrown => (s0, [])
    end
  else if hasExt [".xlsx"; ".xls"]%string fileName then
    match XLSX rt with
    | None => (handleError "Excel parser library not loaded. Please refresh." s0, [])
    | Some xlsx =>
        match blob_arrayBuffer blob with
        | Ok buffer =>
            match sheet_rows xlsx buffer with
            | Ok jsonData => processData rt st (parseSheet jsonData) s0
            | Thrown => (handleError "Failed to parse Excel file." s0,
                         [Error "Excel parse error"])
            end
        | Thrown => (s0, [])
        end
    end
  else if hasExt [".docx"; ".doc"]%string fileName then
    match mammoth rt with
    | None => (handleError "Word parser library not loaded. Please refresh." s0, [])
    | Some mm =>
        match blob_arrayBuffer blob with
        | Ok arrayBuffer =>
            match convertToHtml mm arrayBuffer with
            | Ok doc => processData rt st (parseWord doc) s0
            | Thrown => (handleError "Failed to parse Word file." s0,
                         [Error "Mammoth error"])
            end
        | Thrown => (s0, [])
        end
    end
  else (handleError "Unsupported file format." s0, []).

End Parsers.

Import Parsers.

(* ================================================================== *)
(** * Placeholder substitution *)
(* ================================================================== *)

Module Substitution.

Definition docx_mime : jsstring :=
  js "application/vnd.openxmlformats-officedocument.wordprocessingml.document".





(** [newContent.match(regex)] for the global pattern of a non-empty literal
    [lit]: the number of matches, found from left to right, each search
    starting where the previous match ended. *)
Fixpoint countMatches_from (fuel : nat) (lit s : jsstring) : nat :=
  match fuel with
  | O => 0
  | S f =>
      match s with
      | [] => 0
      | _ :: s' =>
          if startsWith lit s
          then S (countMatches_from f lit (skipn (length lit) s))
          else countMatches_from f lit s'
      end
  end.

Definition countMatches (lit s : jsstring) : nat :=
  countMatches_from (length s) lit s.

(** The expansion of a replacement string for a pattern without groups:
    [$$] is a dollar, [$&] the match, [$`] the text before the match, [$']
    the text after it; any other character, a lone dollar included, stands
    for itself. *)
Fixpoint GetSubstitution (matched before after repl : jsstring) : jsstring :=
  match repl with
  | [] => []
  | c :: r =>
      if (c =? 36)%N then
        match r with
        | d :: r' =>
            if (d =? 36)%N then 36%N :: GetSubstitution matched before after r'
            else if (d =? 38)%N then matched ++ GetSubstitution matched before after r'
            else if (d =? 96)%N then before ++ GetSubstitution matched before after r'
            else if (d =? 39)%N then after ++ GetSubstitution matched before after r'
            else c :: GetSubstitution matched before after r
        | [] => [c]
        end
      else c :: GetSubstitution matched before after r
  end.

(** [newContent.replace(regex, repl)] for the global pattern of a non-empty
    literal [lit]; [before] is the text already passed. *)
Fixpoint replaceAll_from (fuel : nat) (lit repl before s : jsstring) : jsstring :=
  match fuel with
  | O => s
  | S f =>
      match s with
      | [] => []
      | c :: s' =>
          if startsWith lit s then
            let after := skipn (length lit) s in
            GetSubstitution lit before after repl
              ++ replaceAll_from f lit repl (before ++ lit) after
          else c :: replaceAll_from f lit repl (before ++ [c]) s'
      end
  end.

Definition replaceAll (lit repl s : jsstring) : jsstring :=
  replaceAll_from (length s) lit repl [] s.

Definition withStatus (p : KeyValuePair) (st : PairStatus) : KeyValuePair :=
  {| id := id p; key := key p; value := value p; status := Some st |}.

(** The callback of [keyValuePairs.map] in the plain-text arm; the two
    variables that it updates, [newContent] and [replacementCount], are
    passed along. *)
Definition mergePair (acc : jsstring * nat) (p : KeyValuePair)
  : (jsstring * nat) * KeyValuePair :=
  let (newContent, replacementCount) := acc in
  if negb (str_eqb (key p) []) && includes (key p) newContent then
    let matches := countMatches (key p) newContent in
    if 0 <? matches then
      ((replaceAll (key p) (value p) newContent, replacementCount + matches),
       withStatus p replaced)
    else (acc, withStatus p not_found)
  else (acc, withStatus p not_found).

Fixpoint mergePairs (acc : jsstring * nat) (ps : list KeyValuePair)
  : (jsstring * nat) * list KeyValuePair :=
  match ps with
  | [] => (acc, [])
  | p :: rest =>
      let (acc1, p') := mergePair acc p in
      let (acc2, rest') := mergePairs acc1 rest in
      (acc2, p' :: rest')
  end.

(** [name.replace(re, '_merged$1')] where [re] is a dot followed by one or
    more word characters up to the end of the name: the first place where it
    matches, if there is one. *)
Fixpoint outputName (name : jsstring) : jsstring :=
  match name with
  | [] => []
  | c :: r =>
      if (c =? 46)%N && negb (str_eqb r []) && forallb isWordChar r
      then js "_merged" ++ name
      else c :: outputName r
  end.

(** The callback of [keyValuePairs.map] in the structured arm. *)
Definition searchKeyOf (k : jsstring) : jsstring :=
  let cleanKey := trim k in
  let s1 := if startsWith delim_start cleanKey then cleanKey
            else delim_start ++ cleanKey in
  if endsWith delim_end s1 then s1 else s1 ++ delim_end.

Definition checkPair (textContent : jsstring) (p : KeyValuePair) : KeyValuePair :=
  withStatus p (if includes (searchKeyOf (key p)) textContent
                then replaced else not_found).

(** The object given to [doc.render]. *)
Definition renderData (ps : list KeyValuePair) : obj jsstring :=
  fold_left (fun data p => obj_set data (handleMerge_cleanKey (key p)) (value p))
            ps [].

Definition isDocx (fd : StoredFile) : bool :=
  endsWith (js ".docx") (toLowerCase (sf_name fd)) || str_eqb (sf_type fd) docx_mime.

(** The structured arm of the [try] block: the session after the state
    updates that the arm made, what it logged, and the file and message it
    ends with, or [Thrown]. *)
Definition mergeDocx (rt : Runtime) (fd : StoredFile) (s : Session)
  : Session * list LogEntry * result (File * Message) :=
  match PizZip rt, docxtemplater rt with
  | true, Some render =>
      match blob_arrayBuffer (sf_content fd) with
      | Thrown => (s, [], Thrown)
      | Ok arrayBuffer =>
          let (s1, log) :=
            match mammoth rt with
            | Some mm =>
                match extractRawText mm arrayBuffer with
                | Ok textContent =>
                    (setKeyValuePairs
                       (map (checkPair textContent) (keyValuePairs s)) s, [])
                | Thrown =>
                    (s, [Warn "Could not check identifier existence in docx"])
                end
            | None => (s, [])
            end in
          match render arrayBuffer (renderData (keyValuePairs s)) with
          | Ok out =>
              (s1, log,
               Ok ({| file_part := PartBytes out;
                      file_name := outputName (sf_name fd);
                      file_type := docx_mime;
                      file_lastModified := now rt |}, MsgProcessed))
          | Thrown => (s1, log, Thrown)
          end
      end
  | _, _ => (s, [], Thrown)
  end.

(** The plain-text arm. *)
Definition mergeText (rt : Runtime) (fd : StoredFile) (s : Session)
  : Session * list LogEntry * result (File * Message) :=
  match blob_text (sf_content fd) with
  | Thrown => (s, [], Thrown)
  | Ok content =>
      let '((newContent, replacementCount), updatedPairs) :=
        mergePairs (content, 0) (keyValuePairs s) in
      (setKeyValuePairs updatedPairs s, [],
       Ok ({| file_part := PartString newContent;
              file_name := outputName (sf_name fd);
              file_type := sf_type fd;
              file_lastModified := now rt |}, MsgReplaced replacementCount))
  end.

(** How a call of [handleMerge] ended: the guard returned at once, the [try]
    block ran to its end, or the [catch] block ran. *)
Inductive Outcome := Skipped | Completed | Caught.

Definition handleMerge (rt : Runtime) (s : Session)
  : Session * list LogEntry * Outcome :=
  match fileData s, keyValuePairs s with
  | Some fd, _ :: _ =>
      let s0 := setResultFile None (setMergeStatus processing s) in
      let '(s1, log, r) :=
        if isDocx fd then mergeDocx rt fd s0 else mergeText rt fd s0 in
      match r with
      | Ok (newFile, msg) =>
          (setMergeMessage msg
             (setMergeStatus success (setResultFile (Some newFile) s1)),
           log, Completed)
      | Thrown =>
          (setMergeMessage MsgFailedToProcess (setMergeStatus error s1),
           log ++ [Error "handleMerge"], Caught)
      end
  | _, _ => (s, [], Skipped)
  end.

(** The editing of the pairs. *)
Definition handlePairChange_key (i v : jsstring) (s : Session) : Session :=
  setKeyValuePairs
    (map (fun p => if str_eqb (id p) i
                   then {| id := id p; key := v; value := value p; status := None |}
                   else p) (keyValuePairs s)) s.

Definition handlePairChange_value (i v : jsstring) (s : Session) : Session :=
  setKeyValuePairs
    (map (fun p => if str_eqb (id p) i
                   then {| id := id p; key := key p; value := v; status := None |}
                   else p) (keyValuePairs s)) s.

Definition removePair (i : jsstring) (s : Session) : Session :=
  setKeyValuePairs (filter (fun p => negb (str_eqb (id p) i)) (keyValuePairs s)) s.

Definition addPair (rt : Runtime) (s : Session) : Session :=
  drawUUIDs 1
    (setKeyValuePairs
       (keyValuePairs s ++ [{| id := randomUUID rt (uuidsDrawn s); key := [];
                               value := []; status := None |}]) s).

End Substitution.

Import Substitution.

(* ================================================================== *)
(** * Category labels ([App.tsx]) *)
(* ================================================================== *)

Module Categories.

(** [customCategories.includes(trimmedName)] *)
Definition arrayIncludes (l : list jsstring) (x : jsstring) : bool :=
  existsb (fun y => str_eqb y x) l.

(** [handleAddCategory]: the list given to [setCustomCategories], or the
    list as it was when the setter is not called. *)
Definition handleAddCategory (customCategories : list jsstring) (name : jsstring)
  : list jsstring :=
  let trimmedName := trim name in
  if negb (arrayIncludes customCategories trimmedName)
     && negb (str_eqb (toUpperCase trimmedName) (js "IMAGES"))
     && negb (str_eqb (toUpperCase trimmedName) (js "DOCUMENTS"))
     && negb (str_eqb (toUpperCase trimmedName) (js "DEVICE TYPE"))
  then customCategories ++ [trimmedName]
  else customCategories.

End Categories.

Import Categories.

(* ================================================================== *)
(** * Notions used in the statements *)
(* ================================================================== *)

Module Notions.

(** A mapping without an empty key. *)
Definition noEmptyKey {V} (o : obj V) : Prop := ~ In [] (keys o).

(** Equality of two strings up to the case of the letters [A] to [Z]. *)
Fixpoint eqIgnoreCase (a b : jsstring) : bool :=
  match a, b with
  | [], [] => true
  | x :: a', y :: b' => (lowerUnit x =? lowerUnit y)%N && eqIgnoreCase a' b'
  | _, _ => false
  end.

(** One of the three characters at which a line is cut into key and value. *)
Definition isDelimiter (c : N) : bool := ((c =? 58) || (c =? 61) || (c =? 44))%N.

(** A pair without its status. *)
Definition unstatus (p : KeyValuePair) : jsstring * jsstring * jsstring :=
  (id p, key p, value p).

(** The text on which the presence check of the structured variant runs,
    when it runs: the libraries are loaded, the buffer of the target file
    can be read and [mammoth] extracts its text. *)
Definition checkedText (rt : Runtime) (fd : StoredFile) : option jsstring :=
  match PizZip rt, docxtemplater rt, blob_arrayBuffer (sf_content fd), mammoth rt with
  | true, Some _, Ok buffer, Some mm =>
      match extractRawText mm buffer with
      | Ok textContent => Some textContent
      | Thrown => None
      end
  | _, _, _, _ => None
  end.

(** The key and value of the pairs made from a mapping. *)
Definition entryStrings (data : obj jsval) : list (jsstring * jsstring) :=
  map (fun kv => (fst kv, ToString (snd kv))) data.

Definition keyValues (ps : list KeyValuePair) : list (jsstring * jsstring) :=
  map (fun p => (key p, value p)) ps.

(** [sheet_to_json] without options, as the library documents it, for a
    sheet whose first row is [header]: one object per following row, with the
    cell of each column under the label of that column, empty cells
    omitted. *)
Definition rowObject (header : list jsstring) (row : list jsval) : obj jsval :=
  fold_left (fun o hc => if notNullish (snd hc) then obj_set o (fst hc) (snd hc) else o)
            (combine header row) [].

Definition sheet_to_json (header : list jsstring) (rows : list (list jsval))
  : list (obj jsval) :=
  map (rowObject header) rows.

End Notions.

Import Notions.

(* ================================================================== *)
(** * Concrete inputs *)
(* ================================================================== *)

Module Fixtures.

Definition kv (k v : string) : KeyValuePair :=
  {| id := js k; key := js k; value := js v; status := None |}.

Definition D100 : jsstring := js "D100".

Definition deviceSheet : list (obj jsval) :=
  sheet_to_json
    [label_deviceId; label_deviceName; label_model; label_manufacturer]
    [[VStr D100; VStr (js "Sensor"); VStr (js "M1"); VStr (js "ACME")]].

Definition sensorDetails : Details :=
  {| deviceName := VStr (js "Sensor"); model := VStr (js "M1");
     manufacturer := VStr (js "ACME") |}.

(** A run time in which every library is loaded.  The buffer [[1]] holds the
    device sheet, [[2]] cannot be parsed by any library, [[3]] is a document
    whose text is [Dear $%Name%$] and which the templater refuses, [[4]] is
    a sheet of two rows, the second with blanks in its first column. *)
Definition xlsx0 : Xlsx :=
  {| sheet_objects := fun b =>
       match b with
       | [1%N] => Ok deviceSheet
       | [2%N] => Thrown
       | _ => Ok []
       end;
     sheet_rows := fun b =>
       match b with
       | [2%N] => Thrown
       | [4%N] => Ok [[VStr (js "Name"); VStr (js "Ann")];
                      [VStr (js "   "); VStr (js "orphan")]]
       | _ => Ok []
       end |}.

Definition rt0 : Runtime :=
  {| XLSX := Some xlsx0;
     mammoth := Some {| convertToHtml := fun b =>
                          match b with
                          | [2%N] => Thrown
                          | _ => Ok {| doc_tables := []; doc_rows := []; doc_bodyText := [] |}
                          end;
                        extractRawText := fun b =>
                          match b with
                          | [3%N] => Ok (js "Dear $%Name%$")
                          | _ => Thrown
                          end |};
     PizZip := true;
     docxtemplater := Some (fun b _ =>
                              match b with
                              | [3%N] => Thrown
                              | _ => Ok b
                              end);
     JSON_parse := fun _ => Thrown;
     randomUUID := fun n => digits (N.of_nat n);
     now := 0%N |}.

Definition blobOf (b : bytes) (t : string) : Blob :=
  {| blob_text := Ok (js t); blob_arrayBuffer := Ok b |}.

Definition goodSheet : StoredFile :=
  {| sf_id := js "good"; sf_name := js "devices.xlsx"; sf_type := js "";
     sf_content := blobOf [1%N] "" |}.


Definition metaOf (f : StoredFile) : FileMetadata :=
  {| meta_id := sf_id f; meta_name := sf_name f; meta_isDeviceInfo := true |}.

Definition storeOf (files : list StoredFile) : Store :=
  {| getAllMetadata := Ok (map metaOf files);
     getFile := fun i => Ok (find (fun f => str_eqb (sf_id f) i) files) |}.


Definition emptySession : Session :=
  {| fileData := None; keyValuePairs := []; mergeStatus := idle;
     mergeMessage := MsgNone; dataFileName := None; resultFile := None;
     uuidsDrawn := 0 |}.

Definition sessionOf (fd : StoredFile) (ps : list KeyValuePair) : Session :=
  {| fileData := Some fd; keyValuePairs := ps; mergeStatus := idle;
     mergeMessage := MsgNone; dataFileName := None; resultFile := None;
     uuidsDrawn := 0 |}.

Definition textFile (name text : string) : StoredFile :=
  {| sf_id := js "t"; sf_name := js name; sf_type := js "text/plain";
     sf_content := blobOf [] text |}.

Definition unreadableFile : StoredFile :=
  {| sf_id := js "u"; sf_name := js "notes.txt"; sf_type := js "text/plain";
     sf_content := {| blob_text := Thrown; blob_arrayBuffer := Thrown |} |}.

(** A session whose target file cannot be read. *)
Definition failedInput : Session := sessionOf unreadableFile [kv "NAME" "Bob"].

Definition refusedTemplate : StoredFile :=
  {| sf_id := js "d"; sf_name := js "letter.docx"; sf_type := docx_mime;
     sf_content := blobOf [3%N] "" |}.

End Fixtures.

Import Fixtures.

(* ================================================================== *)
(** * The main view ([App.tsx], [types.ts], [AddCategoryModal.tsx]) *)
(* ================================================================== *)

Module App.

(** [types.ts]: [FileMetadata] with all its fields; a field that may be
    missing is an [option]. *)
Record FileMeta := {
  fm_id : jsstring;
  fm_name : jsstring;
  fm_type : jsstring;
  fm_size : Z;
  fm_lastModified : Z;
  fm_category : option jsstring;
  fm_aiDescription : option jsstring;
  fm_aiTags : option (list jsstring);
  fm_isDeviceInfo : option bool;
  fm_isDataMergeFile : option bool;
  fm_parentFileId : option jsstring
}.

(** The truth value of a flag that may be missing. *)
Definition flag (b : option bool) : bool :=
  match b with
  | Some true => true
  | _ => false
  end.

(** [getFileExtension] *)
Definition getFileExtension (filename : jsstring) : jsstring :=
  let parts := splitOn 46 filename in
  if 1 <? length parts then slice (toUpperCase (last parts [])) 0 5 else [].

(** [handleDeleteCategory]: the new list of categories and the new filter. *)
Definition handleDeleteCategory (customCategories : list jsstring)
  (filterType categoryToDelete : jsstring) : list jsstring * jsstring :=
  (filter (fun c => negb (str_eqb c categoryToDelete)) customCategories,
   if str_eqb filterType categoryToDelete then js "ALL" else filterType).

(** [AddCategoryModal], [handleSubmit] with [onAdd] bound to
    [handleAddCategory]: the list of categories, and whether the modal was
    closed. *)
Definition handleSubmit (customCategories : list jsstring) (name : jsstring)
  : list jsstring * bool :=
  if negb (str_eqb (trim name) [])
  then (handleAddCategory customCategories (trim name), true)
  else (customCategories, false).

(** [file.aiTags?.some(tag => tag.toLowerCase().includes(q))], [undefined]
    being false where it is used. *)
Definition someTag (q : jsstring) (file : FileMeta) : bool :=
  match fm_aiTags file with
  | Some tags => existsb (fun tag => includes q (toLowerCase tag)) tags
  | None => false
  end.

(** The callback of [files.filter] in [filteredFiles]. *)
Definition isShown (searchQuery filterType : jsstring) (file : FileMeta) : bool :=
  let matchesSearch :=
    includes (toLowerCase searchQuery) (toLowerCase (fm_name file))
    || someTag (toLowerCase searchQuery) file in
  if negb matchesSearch then false
  else if str_eqb filterType (js "ALL") then true
  else if str_eqb filterType (js "IMAGE") then startsWith (js "image/") (fm_type file)
  else if str_eqb filterType (js "VIDEO") then startsWith (js "video/") (fm_type file)
  else if str_eqb filterType (js "AUDIO") then startsWith (js "audio/") (fm_type file)
  else if str_eqb filterType (js "DOCUMENT") then
    includes (js "pdf") (fm_type file) || includes (js "text") (fm_type file)
    || includes (js "word") (fm_type file) || includes (js "document") (fm_type file)
  else
    match fm_category file with
    | Some c =>
        if str_eqb c filterType then true
        else includes (toLowerCase filterType) (toLowerCase (fm_name file))
             || someTag (toLowerCase filterType) file
    | None =>
        includes (toLowerCase filterType) (toLowerCase (fm_name file))
        || someTag (toLowerCase filterType) file
    end.

Definition filteredFiles (searchQuery filterType : jsstring) (files : list FileMeta)
  : list FileMeta :=
  filter (isShown searchQuery filterType) files.

(** [loadFiles]: the files of the main view are the records that are not
    data-merge files. *)
Definition mainFiles (data : list FileMeta) : list FileMeta :=
  filter (fun f => negb (flag (fm_isDataMergeFile f))) data.

(** [deviceInfoFiles] and [selectedFileMeta] *)
Definition deviceInfoFiles (files : list FileMeta) : list FileMeta :=
  filter (fun f => flag (fm_isDeviceInfo f)) files.

Definition selectedFileMeta (files : list FileMeta) (selectedFileId : option jsstring)
  : option FileMeta :=
  match selectedFileId with
  | Some i => find (fun f => str_eqb (fm_id f) i) files
  | None => None
  end.

(** [totalSize] *)
Definition totalSize (files : list FileMeta) : Z :=
  fold_left (fun acc curr => (acc + fm_size curr)%Z) files 0%Z.

End App.

Import App.

(* ================================================================== *)
(** * The blob store ([services/storage.ts]) *)
(* ================================================================== *)

Module Storage.

(** [StoredFile]: the metadata and the content. *)
Record FileRecord := {
  rec_meta : FileMeta;
  rec_content : Blob
}.

Definition rec_id (r : FileRecord) : jsstring := fm_id (rec_meta r).

(** A [File] of the browser, by what [saveFile] reads of it. *)
Record BrowserFile := {
  bf_name : jsstring;
  bf_type : jsstring;
  bf_size : Z;
  bf_lastModified : Z;
  bf_blob : Blob
}.

(** The object store [files] of the database, whose key path is [id]: its
    records in the order of their keys.  String keys are ordered by their
    code units. *)
Definition DB := list FileRecord.

Fixpoint key_ltb (a b : jsstring) : bool :=
  match a, b with
  | _, [] => false
  | [], _ :: _ => true
  | x :: a', y :: b' => (x <? y)%N || ((x =? y)%N && key_ltb a' b')
  end.

(** [store.get(id)] *)
Definition db_get (db : DB) (i : jsstring) : option FileRecord :=
  find (fun r => str_eqb (rec_id r) i) db.

(** [store.put(record)]: the record takes the place of the one with its key,
    or its place in the order of the keys. *)
Fixpoint db_put (r : FileRecord) (db : DB) : DB :=
  match db with
  | [] => [r]
  | x :: rest =>
      if str_eqb (rec_id x) (rec_id r) then r :: rest
      else if key_ltb (rec_id r) (rec_id x) then r :: db
      else x :: db_put r rest
  end.

(** [store.add(record)]: the request fails when the key is taken, and
    when the environment makes it fail (the quota is exceeded, the
    transaction is aborted): [requestFails] is that decision. *)
Definition db_add (requestFails : bool) (r : FileRecord) (db : DB) : result DB :=
  if requestFails then Thrown
  else match db_get db (rec_id r) with
       | Some _ => Thrown
       | None => Ok (db_put r db)
       end.

(** [store.delete(id)] *)
Definition db_delete (i : jsstring) (db : DB) : DB :=
  filter (fun r => negb (str_eqb (rec_id r) i)) db.

(** The service.  For the requests that read, replace or delete a record
    the database is taken to be open and the request to succeed.

    [saveFile]: the id is the [drawn]-th UUID; [requestFails] also stands
    for a database that cannot be opened. *)
Definition saveFile (rt : Runtime) (drawn : nat) (requestFails : bool)
  (file : BrowserFile)
  (category : option jsstring) (isDeviceInfo isDataMergeFile : bool)
  (parentFileId : option jsstring) (db : DB) : result (FileRecord * DB) :=
  let storedFile :=
    {| rec_meta := {| fm_id := randomUUID rt drawn;
                      fm_name := bf_name file;
                      fm_type := bf_type file;
                      fm_size := bf_size file;
                      fm_lastModified := bf_lastModified file;
                      fm_category := category;
                      fm_aiDescription := None;
                      fm_aiTags := None;
                      fm_isDeviceInfo := Some isDeviceInfo;
                      fm_isDataMergeFile := Some isDataMergeFile;
                      fm_parentFileId := parentFileId |};
       rec_content := bf_blob file |} in
  db' <- db_add requestFails storedFile db ;;
  Ok (storedFile, db').

(** [metadata.sort((a, b) => b.lastModified - a.lastModified)]: the sort is
    stable, so the result is the one of an insertion that puts a record
    before the first record that is not newer than it. *)
Fixpoint insertNewest (m : FileMeta) (l : list FileMeta) : list FileMeta :=
  match l with
  | [] => [m]
  | x :: rest =>
      if (fm_lastModified m <? fm_lastModified x)%Z
      then x :: insertNewest m rest
      else m :: l
  end.

Definition sortNewest (l : list FileMeta) : list FileMeta :=
  fold_right insertNewest [] l.

(** [getAllMetadata] *)
Definition getAllMetadata (db : DB) : list FileMeta :=
  sortNewest (map rec_meta db).

(** [getFile] and [deleteFile] *)
Definition getFile (db : DB) (i : jsstring) : option FileRecord := db_get db i.

Definition deleteFile (i : jsstring) (db : DB) : DB := db_delete i db.

(** [Partial<FileMetadata>]: a field that is given overrides the field of
    the record. *)
Record PartialMeta := {
  p_id : option jsstring;
  p_name : option jsstring;
  p_type : option jsstring;
  p_size : option Z;
  p_lastModified : option Z;
  p_category : option (option jsstring);
  p_aiDescription : option (option jsstring);
  p_aiTags : option (option (list jsstring));
  p_isDeviceInfo : option (option bool);
  p_isDataMergeFile : option (option bool);
  p_parentFileId : option (option jsstring)
}.

Definition over {A} (u : option A) (x : A) : A :=
  match u with
  | Some v => v
  | None => x
  end.

(** [{ ...file, ...updates }] *)
Definition applyUpdates (m : FileMeta) (u : PartialMeta) : FileMeta :=
  {| fm_id := over (p_id u) (fm_id m);
     fm_name := over (p_name u) (fm_name m);
     fm_type := over (p_type u) (fm_type m);
     fm_size := over (p_size u) (fm_size m);
     fm_lastModified := over (p_lastModified u) (fm_lastModified m);
     fm_category := over (p_category u) (fm_category m);
     fm_aiDescription := over (p_aiDescription u) (fm_aiDescription m);
     fm_aiTags := over (p_aiTags u) (fm_aiTags m);
     fm_isDeviceInfo := over (p_isDeviceInfo u) (fm_isDeviceInfo m);
     fm_isDataMergeFile := over (p_isDataMergeFile u) (fm_isDataMergeFile m);
     fm_parentFileId := over (p_parentFileId u) (fm_parentFileId m) |}.

(** [updateMetadata]: throws when there is no record with the id. *)
Definition updateMetadata (i : jsstring) (updates : PartialMeta) (db : DB)
  : result DB :=
  match getFile db i with
  | None => Thrown
  | Some file =>
      Ok (db_put {| rec_meta := applyUpdates (rec_meta file) updates;
                    rec_content := rec_content file |} db)
  end.

(** The store as the merge handlers see it. *)
Definition toMetadata (m : FileMeta) : FileMetadata :=
  {| meta_id := fm_id m; meta_name := fm_name m;
     meta_isDeviceInfo := flag (fm_isDeviceInfo m) |}.

Definition toStoredFile (r : FileRecord) : StoredFile :=
  {| sf_id := rec_id r; sf_name := fm_name (rec_meta r);
     sf_type := fm_type (rec_meta r); sf_content := rec_content r |}.

Definition storeOfDB (db : DB) : Store :=
  {| Vault.getAllMetadata := Ok (map toMetadata (getAllMetadata db));
     Vault.getFile := fun i => Ok (option_map toStoredFile (getFile db i)) |}.

End Storage.

(** The short names [getFile] and [getAllMetadata] stay those of the store
    interface of the handlers; the service's are written with the module. *)
Import Storage.
Import Vault.

(* ================================================================== *)
(** * The saved data files of a target file ([DetailSidebar]) *)
(* ================================================================== *)

Module Sidebar.

(** The filter of [initDataMerge] and of [loadSavedDataFiles]. *)
Definition dataFilesOf (parentId : jsstring) (allFiles : list FileMeta)
  : list FileMeta :=
  filter (fun f => flag (fm_isDataMergeFile f)
                   && match fm_parentFileId f with
                      | Some p => str_eqb p parentId
                      | None => false
                      end) allFiles.

(** The state of the detail view: the session, the list of saved data files
    and the database. *)
Record View := {
  session : Session;
  savedDataFiles : list FileMeta;
  database : DB
}.

(** The reset that the effect on [fileMeta] does before [initDataMerge]. *)
Definition resetMerge (s : Session) : Session :=
  setResultFile None
    (setDataFileName None
       (setMergeMessage MsgNone (setMergeStatus idle (setKeyValuePairs [] s)))).

(** [initDataMerge] for the target file [parentId]. *)
Definition initDataMerge (rt : Runtime) (parentId : jsstring) (v : View)
  : View * list LogEntry :=
  let dataFiles := dataFilesOf parentId (Storage.getAllMetadata (database v)) in
  match dataFiles with
  | newestFile :: _ =>
      let s1 := setMergeMessage MsgLoadingDefault
                  (setMergeStatus processing (session v)) in
      match Storage.getFile (database v) (fm_id newestFile) with
      | Some file =>
          let (s2, log) :=
            parseAndLoadDataFile rt (storeOfDB (database v)) (rec_content file)
              (fm_name (rec_meta file)) s1 in
          ({| session := s2; savedDataFiles := dataFiles;
              database := database v |}, log)
      | None =>
          ({| session := s1; savedDataFiles := dataFiles;
              database := database v |}, [])
      end
  | [] =>
      ({| session := session v; savedDataFiles := dataFiles;
          database := database v |}, [])
  end.

(** [handleDataFileUpload] for the target file [parentId]: the file is
    parsed whether or not it could be saved. *)
Definition handleDataFileUpload (rt : Runtime) (parentId : jsstring)
  (requestFails : bool) (file : BrowserFile) (v : View) : View * list LogEntry :=
  let '(saved, db, s0, log0) :=
    match saveFile rt (uuidsDrawn (session v)) requestFails file None false true
                   (Some parentId) (database v) with
    | Ok (_, db') =>
        (dataFilesOf parentId (Storage.getAllMetadata db'), db',
         drawUUIDs 1 (session v), [])
    | Thrown =>
        (savedDataFiles v, database v, drawUUIDs 1 (session v),
         [Error "Failed to save data file to system:"])
    end in
  let (s1, log) :=
    parseAndLoadDataFile rt (storeOfDB db) (bf_blob file) (bf_name file) s0 in
  ({| session := s1; savedDataFiles := saved; database := db |}, log0 ++ log).

(** [handleSelectSavedFile] *)
Definition handleSelectSavedFile (rt : Runtime) (meta : FileMeta) (v : View)
  : View * list LogEntry :=
  let s0 := setMergeMessage MsgLoading (setMergeStatus processing (session v)) in
  match Storage.getFile (database v) (fm_id meta) with
  | Some file =>
      let (s1, log) :=
        parseAndLoadDataFile rt (storeOfDB (database v)) (rec_content file)
          (fm_name (rec_meta file)) s0 in
      ({| session := s1; savedDataFiles := savedDataFiles v;
          database := database v |}, log)
  | None =>
      ({| session := handleError "File not found in storage." s0;
          savedDataFiles := savedDataFiles v; database := database v |}, [])
  end.

(** [handleDeleteSavedFile] for the target file [parentId]: the selection is
    looked up in the list as it was before the deletion. *)
Definition handleDeleteSavedFile (parentId i : jsstring) (v : View) : View :=
  let db := deleteFile i (database v) in
  let s1 :=
    match find (fun f => str_eqb (fm_id f) i) (savedDataFiles v), dataFileName (session v) with
    | Some f, Some n =>
        if str_eqb (fm_name f) n
        then setKeyValuePairs [] (setDataFileName None (session v))
        else session v
    | _, _ => session v
    end in
  {| session := s1;
     savedDataFiles := dataFilesOf parentId (Storage.getAllMetadata db);
     database := db |}.

End Sidebar.

Import Sidebar.

(* ================================================================== *)
(** * The upload dialog ([UploadModal]) *)
(* ================================================================== *)

Module Upload.

(** [removeFile]: [prev.filter((_, i) => i !== index)] *)
Fixpoint removeFile_from {A} (i index : nat) (prev : list A) : list A :=
  match prev with
  | [] => []
  | x :: rest =>
      if negb (i =? index) then x :: removeFile_from (S i) index rest
      else removeFile_from (S i) index rest
  end.

Definition removeFile {A} (index : nat) (prev : list A) : list A :=
  removeFile_from 0 index prev.

(** The loop of [handleUpload]: the database after the files that were
    saved, the number of UUIDs drawn, and whether a save has thrown.
    [requestFails n] tells whether the environment fails the request of the
    save that draws the [n]-th UUID. *)
Fixpoint saveAll (rt : Runtime) (drawn : nat) (requestFails : nat -> bool)
  (category : jsstring) (files : list BrowserFile) (db : DB) : DB * nat * bool :=
  match files with
  | [] => (db, drawn, false)
  | file :: rest =>
      match saveFile rt drawn (requestFails drawn) file (Some category)
                     false false None db with
      | Ok (_, db') => saveAll rt (S drawn) requestFails category rest db'
      | Thrown => (db, S drawn, true)
      end
  end.

Record Dialog := {
  selectedFiles : list BrowserFile;
  selectedCategory : jsstring;
  isOpen : bool
}.

(** [handleUpload]: the dialog, the database, the UUIDs drawn and whether
    the alert was shown. *)
Definition handleUpload (rt : Runtime) (drawn : nat) (requestFails : nat -> bool)
  (d : Dialog) (db : DB) : Dialog * DB * nat * bool :=
  if str_eqb (selectedCategory d) [] then (d, db, drawn, false)
  else
    match saveAll rt drawn requestFails (selectedCategory d) (selectedFiles d) db with
    | (db', drawn', false) =>
        ({| selectedFiles := []; selectedCategory := []; isOpen := false |},
         db', drawn', false)
    | (db', drawn', true) => (d, db', drawn', true)
    end.

End Upload.

Import Upload.

(* ================================================================== *)
(** * The user accounts of the settings page ([SettingsPage]) *)
(* ================================================================== *)

Module Users.

Inductive UserRole := Administrator | Editor | Viewer.
Inductive UserStatus := Active | Inactive | Pending.

Record UserAccount := {
  user_id : jsstring;
  user_name : jsstring;
  role : UserRole;
  user_status : UserStatus;
  lastActive : jsstring
}.

Record FormData := {
  form_name : jsstring;
  form_role : UserRole;
  form_status : UserStatus;
  form_password : jsstring
}.

Record Page := {
  users : list UserAccount;
  editingUser : option UserAccount;
  userToDelete : option UserAccount;
  formData : FormData;
  isUserModalOpen : bool;
  usersDrawn : nat
}.

(** The state the page starts with. *)
Definition initialPage : Page :=
  {| users := [{| user_id := js "1"; user_name := js "admin";
                  role := Administrator; user_status := Active;
                  lastActive := js "Just now" |}];
     editingUser := None; userToDelete := None;
     formData := {| form_name := []; form_role := Viewer;
                    form_status := Active; form_password := [] |};
     isUserModalOpen := false; usersDrawn := 0 |}.

(** [filteredUsers] *)
Definition filteredUsers (searchQuery : jsstring) (p : Page) : list UserAccount :=
  filter (fun user => includes (toLowerCase searchQuery)
                               (toLowerCase (user_name user))) (users p).

Definition handleDeleteClick (user : UserAccount) (p : Page) : Page :=
  {| users := users p; editingUser := editingUser p; userToDelete := Some user;
     formData := formData p; isUserModalOpen := isUserModalOpen p;
     usersDrawn := usersDrawn p |}.

Definition confirmDeleteUser (p : Page) : Page :=
  match userToDelete p with
  | Some u =>
      {| users := filter (fun x => negb (str_eqb (user_id x) (user_id u))) (users p);
         editingUser := editingUser p; userToDelete := None;
         formData := formData p; isUserModalOpen := isUserModalOpen p;
         usersDrawn := usersDrawn p |}
  | None => p
  end.

Definition handleOpenModal (user : option UserAccount) (p : Page) : Page :=
  {| users := users p; editingUser := user; userToDelete := userToDelete p;
     formData := match user with
                 | Some u => {| form_name := user_name u; form_role := role u;
                                form_status := user_status u; form_password := [] |}
                 | None => {| form_name := []; form_role := Viewer;
                              form_status := Active; form_password := [] |}
                 end;
     isUserModalOpen := true; usersDrawn := usersDrawn p |}.

(** [{ ...u, ...userFields }]: the fields of the form but the password. *)
Definition withFields (u : UserAccount) (f : FormData) : UserAccount :=
  {| user_id := user_id u; user_name := form_name f; role := form_role f;
     user_status := form_status f; lastActive := lastActive u |}.

Definition handleSaveUser (rt : Runtime) (p : Page) : Page :=
  match editingUser p with
  | Some e =>
      {| users := map (fun u => if str_eqb (user_id u) (user_id e)
                                then withFields u (formData p) else u) (users p);
         editingUser := editingUser p; userToDelete := userToDelete p;
         formData := formData p; isUserModalOpen := false;
         usersDrawn := usersDrawn p |}
  | None =>
      {| users := users p
                  ++ [{| user_id := randomUUID rt (usersDrawn p);
                         user_name := form_name (formData p);
                         role := form_role (formData p);
                         user_status := form_status (formData p);
                         lastActive := js "Never" |}];
         editingUser := editingUser p; userToDelete := userToDelete p;
         formData := formData p; isUserModalOpen := false;
         usersDrawn := S (usersDrawn p) |}
  end.

End Users.

Import Users.

(* ================================================================== *)
(** * More concrete inputs *)
(* ================================================================== *)

Module MoreFixtures.

Definition metaNamed (i name : string) (modified : Z) (category : option jsstring)
  : FileMeta :=
  {| fm_id := js i; fm_name := js name; fm_type := js "text/plain";
     fm_size := 10%Z; fm_lastModified := modified; fm_category := category;
     fm_aiDescription := None; fm_aiTags := None;
     fm_isDeviceInfo := Some false; fm_isDataMergeFile := Some false;
     fm_parentFileId := None |}.

Definition dataFileRecord (i name text parent : string) (modified : Z) : FileRecord :=
  {| rec_meta := {| fm_id := js i; fm_name := js name; fm_type := js "text/plain";
                    fm_size := 10%Z; fm_lastModified := modified;
                    fm_category := None; fm_aiDescription := None;
                    fm_aiTags := None; fm_isDeviceInfo := Some false;
                    fm_isDataMergeFile := Some true;
                    fm_parentFileId := Some (js parent) |};
     rec_content := blobOf [] text |}.



Definition browserFile (name text : string) (modified : Z) : BrowserFile :=
  {| bf_name := js name; bf_type := js "text/plain"; bf_size := 10%Z;
     bf_lastModified := modified; bf_blob := blobOf [] text |}.

Definition uploadDialog : Dialog :=
  {| selectedFiles := [browserFile "a.txt" "A" 2; browserFile "b.txt" "B" 3;
                       browserFile "c.txt" "C" 4];
     selectedCategory := js "Pumps"; isOpen := true |}.

Definition noUpdates : PartialMeta :=
  {| p_id := None; p_name := None; p_type := None; p_size := None;
     p_lastModified := None; p_category := None; p_aiDescription := None;
     p_aiTags := None; p_isDeviceInfo := None; p_isDataMergeFile := None;
     p_parentFileId := None |}.

Definition setCategory (c : jsstring) : PartialMeta :=
  {| p_id := None; p_name := None; p_type := None; p_size := None;
     p_lastModified := None; p_category := Some (Some c); p_aiDescription := None;
     p_aiTags := None; p_isDeviceInfo := None; p_isDataMergeFile := None;
     p_parentFileId := None |}.

End MoreFixtures.

Import MoreFixtures.

(* ================================================================== *)
(** * More notions used in the statements *)
(* ================================================================== *)

Module PipelineNotions.

(** A mapping whose values are all strings. *)
Definition allStrings (o : obj jsval) : Prop :=
  forall k v, In (k, v) o -> exists s, v = VStr s.

(** The value of the last pair of the list whose key, cleaned as at key
    emission, is [k]. *)
Definition lastValue (k : jsstring) (ps : list KeyValuePair) : option jsstring :=
  option_map value
    (find (fun p => str_eqb (handleMerge_cleanKey (key p)) k) (rev ps)).

Definition isReplaced (p : KeyValuePair) : bool :=
  match status p with
  | Some replaced => true
  | _ => false
  end.

(** A category name as the modal gives it: not empty, without white space at
    its ends. *)
Definition cleanName (c : jsstring) : Prop := c <> [] /\ trim c = c.

(** A name that [handleAddCategory] refuses whatever the list. *)
Definition reservedName (c : jsstring) : bool :=
  str_eqb (toUpperCase c) (js "IMAGES")
  || str_eqb (toUpperCase c) (js "DOCUMENTS")
  || str_eqb (toUpperCase c) (js "DEVICE TYPE").

(** The names of the five built-in filters. *)
Definition builtinFilter (f : jsstring) : bool :=
  existsb (str_eqb f) [js "ALL"; js "IMAGE"; js "VIDEO"; js "AUDIO"; js "DOCUMENT"].

(** The cell of a row of a sheet in the identifier column: the first column
    whose label, trimmed, is the identifier label. *)
Definition idCell (row : obj jsval) : option jsval :=
  option_map (fun idKey => field row (Some idKey))
             (findKey label_deviceId (keys row)).


(** A row without an identifier column, or with another identifier. *)
Definition otherRow (v : jsstring) (row : obj jsval) : Prop :=
  match idCell row with
  | Some c => printable c = true /\ trim (ToString c) <> trim v
  | None => True
  end.



(** The three keys that the enrichment writes. *)
Definition detailKeys : list jsstring :=
  [js "$%设备名称%$"; js "$%型号%$"; js "$%厂家%$"].

End PipelineNotions.

Import PipelineNotions.

Module StoreNotions.

(** The records of a store are in the strict order of their keys. *)
Definition ordered (db : DB) : Prop :=
  StronglySorted (fun a b => key_ltb (rec_id a) (rec_id b) = true) db.

(** No record of a list is newer than a record before it. *)
Definition newestFirst (l : list FileMeta) : Prop :=
  StronglySorted (fun a b => (fm_lastModified b <= fm_lastModified a)%Z) l.

Definition modifiedAt (t : Z) (m : FileMeta) : bool :=
  (fm_lastModified m =? t)%Z.

End StoreNotions.

Import StoreNotions.

(* ================================================================== *)
(** * Facts about strings and objects *)
(* ================================================================== *)

Lemma str_eqb_eq (a b : jsstring) : str_eqb a b = true <-> a = b.
Proof.
  revert b; induction a as [|x a IH]; intros [|y b]; simpl; split; intro H;
    try reflexivity; try discriminate.
  - apply andb_true_iff in H as [Hx Hr]. apply N.eqb_eq in Hx.
    apply IH in Hr. now subst.
  - injection H as -> ->. rewrite N.eqb_refl. now apply IH.
Qed.

Lemma str_eqb_refl (a : jsstring) : str_eqb a a = true.
Proof. now apply str_eqb_eq. Qed.

Lemma str_eqb_neq (a b : jsstring) : str_eqb a b = false <-> a <> b.
Proof.
  split.
  - intros H E. apply str_eqb_eq in E. congruence.
  - intro H. destruct (str_eqb a b) eqn:E; [|reflexivity].
    apply str_eqb_eq in E. contradiction.
Qed.

Lemma startsWith_app (p s : jsstring) : startsWith p (p ++ s) = true.
Proof. induction p as [|x p IH]; simpl; [reflexivity|]. now rewrite N.eqb_refl. Qed.

Lemma startsWith_inv (p s : jsstring) :
  startsWith p s = true -> exists r, s = p ++ r.
Proof.
  revert s; induction p as [|x p IH]; intros s H.
  - now exists s.
  - destruct s as [|y s]; [discriminate|]. simpl in H.
    apply andb_true_iff in H as [Hx Hr]. apply N.eqb_eq in Hx. subst y.
    destruct (IH _ Hr) as [r ->]. now exists r.
Qed.

Lemma endsWith_app (p s : jsstring) : endsWith p (s ++ p) = true.
Proof. unfold endsWith. rewrite rev_app_distr. apply startsWith_app. Qed.

Lemma endsWith_inv (p s : jsstring) :
  endsWith p s = true -> exists r, s = r ++ p.
Proof.
  unfold endsWith. intro H. apply startsWith_inv in H as [r Hr].
  exists (rev r). rewrite <- (rev_involutive s), Hr, rev_app_distr.
  now rewrite rev_involutive.
Qed.

(** ** [trim] *)

Lemma trimStart_nonws (c : N) (s : jsstring) :
  isWhiteSpace c = false -> trimStart (c :: s) = c :: s.
Proof. intro H. simpl. now rewrite H. Qed.

Lemma trimStart_app_nonws (a : jsstring) (c : N) (b : jsstring) :
  isWhiteSpace c = false ->
  exists a', trimStart (a ++ c :: b) = a' ++ c :: b.
Proof.
  intro H. induction a as [|x a IH]; simpl.
  - exists []. now rewrite H.
  - destruct (isWhiteSpace x); [exact IH|]. now exists (x :: a).
Qed.

Lemma trim_nonws_ends (c d : N) (m : jsstring) :
  isWhiteSpace c = false -> isWhiteSpace d = false ->
  trim (c :: m ++ [d]) = c :: m ++ [d].
Proof.
  intros Hc Hd. unfold trim, trimEnd. rewrite trimStart_nonws by exact Hc.
  rewrite app_comm_cons, rev_unit. rewrite trimStart_nonws by exact Hd.
  rewrite <- rev_unit. apply rev_involutive.
Qed.

Lemma trim_single (c : N) : isWhiteSpace c = false -> trim [c] = [c].
Proof. intro H. unfold trim, trimEnd. simpl. rewrite H. simpl. now rewrite H. Qed.

Lemma trimStart_has_nonws (s : jsstring) (c : N) :
  In c s -> isWhiteSpace c = false -> trimStart s <> [].
Proof.
  induction s as [|x s IH]; intros Hin Hc; [destruct Hin|].
  simpl. destruct (isWhiteSpace x) eqn:E; [|discriminate].
  destruct Hin as [->|Hin]; [congruence|]. now apply IH.
Qed.

Lemma trimStart_incl (s : jsstring) (c : N) :
  In c s -> isWhiteSpace c = false -> In c (trimStart s).
Proof.
  induction s as [|x s IH]; intros Hin Hc; [destruct Hin|].
  simpl. destruct (isWhiteSpace x) eqn:E; [|exact Hin].
  destruct Hin as [->|Hin]; [congruence|]. now apply IH.
Qed.

Lemma trim_has_nonws (s : jsstring) (c : N) :
  In c s -> isWhiteSpace c = false -> trim s <> [].
Proof.
  intros Hin Hc E. unfold trim, trimEnd in E.
  apply (f_equal (@rev N)) in E. rewrite rev_involutive in E. simpl in E.
  revert E. apply trimStart_has_nonws with c; [|exact Hc].
  apply in_rev. rewrite rev_involutive. now apply trimStart_incl.
Qed.

Lemma trim_nil_inv (s : jsstring) (c : N) :
  trim s = [] -> In c s -> isWhiteSpace c = true.
Proof.
  intros E Hin. destruct (isWhiteSpace c) eqn:Hc; [reflexivity|].
  exfalso. now apply (trim_has_nonws s c).
Qed.

(** ** Objects *)

Section ObjectFacts.
Context {V : Type}.

Lemma obj_get_replace (o : obj V) (k k' : jsstring) (v : V) :
  obj_has o k = true ->
  obj_get (obj_replace o k v) k' = if str_eqb k k' then Some v else obj_get o k'.
Proof.
  unfold obj_has. induction o as [|[k0 v0] o IH]; simpl; [discriminate|].
  destruct (str_eqb k0 k) eqn:E0.
  - apply str_eqb_eq in E0. subst k0. intros _. simpl.
    now destruct (str_eqb k k').
  - intro H. simpl. destruct (str_eqb k0 k') eqn:E1.
    + destruct (str_eqb k k') eqn:E2; [|reflexivity].
      apply str_eqb_eq in E1, E2. subst. now rewrite str_eqb_refl in E0.
    + now apply IH.
Qed.

Lemma obj_get_insertIndex (o : obj V) (n : N) (k k' : jsstring) (v : V) :
  obj_has o k = false ->
  obj_get (obj_insertIndex o n k v) k' = if str_eqb k k' then Some v else obj_get o k'.
Proof.
  unfold obj_has. induction o as [|[k0 v0] o IH]; simpl; [reflexivity|].
  destruct (str_eqb k0 k) eqn:E0; [discriminate|]. intro H.
  assert (Hhead : obj_get ((k, v) :: (k0, v0) :: o) k'
                  = if str_eqb k k' then Some v else obj_get ((k0, v0) :: o) k')
    by reflexivity.
  destruct (arrayIndex k0) as [m|]; [|exact Hhead].
  destruct (m <? n)%N; [|exact Hhead].
  simpl. rewrite (IH H). destruct (str_eqb k0 k') eqn:E1; [|reflexivity].
  destruct (str_eqb k k') eqn:E2; [|reflexivity].
  apply str_eqb_eq in E1, E2. subst. now rewrite str_eqb_refl in E0.
Qed.

Lemma obj_get_app (o : obj V) (k k' : jsstring) (v : V) :
  obj_has o k = false ->
  obj_get (o ++ [(k, v)]) k' = if str_eqb k k' then Some v else obj_get o k'.
Proof.
  unfold obj_has. induction o as [|[k0 v0] o IH]; simpl; [reflexivity|].
  destruct (str_eqb k0 k) eqn:E0; [discriminate|]. intro H.
  rewrite (IH H). destruct (str_eqb k0 k') eqn:E1; [|reflexivity].
  destruct (str_eqb k k') eqn:E2; [|reflexivity].
  apply str_eqb_eq in E1, E2. subst. now rewrite str_eqb_refl in E0.
Qed.

(** Reading a mapping after [o[k] = v]. *)
Lemma obj_get_set (o : obj V) (k k' : jsstring) (v : V) :
  k <> js "__proto__" ->
  obj_get (obj_set o k v) k' = if str_eqb k k' then Some v else obj_get o k'.
Proof.
  intro Hp. apply str_eqb_neq in Hp. unfold obj_set. rewrite Hp.
  destruct (obj_has o k) eqn:H.
  - now apply obj_get_replace.
  - destruct (arrayIndex k); [now apply obj_get_insertIndex | now apply obj_get_app].
Qed.

Lemma keys_replace (o : obj V) (k : jsstring) (v : V) :
  keys (obj_replace o k v) = keys o.
Proof.
  induction o as [|[k0 v0] o IH]; simpl; [reflexivity|].
  destruct (str_eqb k0 k); simpl; [reflexivity|]. f_equal. exact IH.
Qed.

Lemma keys_insertIndex (o : obj V) (n : N) (k k' : jsstring) (v : V) :
  In k' (keys (obj_insertIndex o n k v)) -> k' = k \/ In k' (keys o).
Proof.
  induction o as [|[k0 v0] o IH]; simpl.
  - intros [<-|[]]. now left.
  - destruct (arrayIndex k0) as [m|].
    + destruct (m <? n)%N; simpl.
      * intros [<-|H]; [right; now left|]. destruct (IH H); auto.
      * intros [<-|H]; auto.
    + simpl. intros [<-|H]; auto.
Qed.

(** The keys after [o[k] = v] are [k] and the keys of [o]. *)
Lemma keys_set (o : obj V) (k k' : jsstring) (v : V) :
  In k' (keys (obj_set o k v)) -> k' = k \/ In k' (keys o).
Proof.
  unfold obj_set. destruct (str_eqb k (js "__proto__")); [auto|].
  destruct (obj_has o k).
  - rewrite keys_replace. auto.
  - destruct (arrayIndex k).
    + apply keys_insertIndex.
    + unfold keys. rewrite map_app, in_app_iff. simpl. intros [H|[<-|[]]]; auto.
Qed.

Lemma noEmptyKey_set (o : obj V) (k : jsstring) (v : V) :
  k <> [] -> noEmptyKey o -> noEmptyKey (obj_set o k v).
Proof.
  unfold noEmptyKey. intros Hk Ho Hin. apply keys_set in Hin as [E|Hin]; auto.
Qed.
End ObjectFacts.

(* ================================================================== *)
(** * Identifier normalisation: the two places *)
(* ================================================================== *)

Lemma slice_decoration (body : jsstring) :
  slice (delim_start ++ body ++ delim_end) 2 (-2) = body.
Proof.
  unfold slice, clampIndex. change delim_start with [36; 37]%N.
  change delim_end with [37; 36]%N.
  replace (length ([36; 37]%N ++ body ++ [37; 36]%N)) with (length body + 4)
    by (simpl; rewrite length_app; simpl; lia).
  replace (-2 <? 0)%Z with true by reflexivity.
  replace (2 <? 0)%Z with false by reflexivity.
  replace (Z.min 2 (Z.of_nat (length body + 4))) with 2%Z by lia.
  replace (Z.to_nat (Z.max (Z.of_nat (length body + 4) + -2) 0 - 2))
    with (length body) by lia.
  change (Z.to_nat 2) with 2. simpl skipn.
  rewrite firstn_app, firstn_all, Nat.sub_diag. simpl. apply app_nil_r.
Qed.

(** At key emission a balanced decoration is removed. *)
Lemma handleMerge_cleanKey_balanced (body : jsstring) :
  handleMerge_cleanKey (delim_start ++ body ++ delim_end) = body.
Proof.
  unfold handleMerge_cleanKey.
  assert (Ht : trim (delim_start ++ body ++ delim_end)
               = delim_start ++ body ++ delim_end).
  { change delim_start with [36; 37]%N. change delim_end with [37; 36]%N.
    change ([36; 37]%N ++ body ++ [37; 36]%N)
      with (36%N :: (37%N :: body ++ [37; 36]%N)).
    replace (37%N :: body ++ [37; 36]%N) with ((37%N :: body ++ [37%N]) ++ [36%N])
      by (simpl; now rewrite <- app_assoc).
    now apply trim_nonws_ends. }
  rewrite Ht, startsWith_app.
  replace (endsWith delim_end (delim_start ++ body ++ delim_end)) with true
    by (rewrite app_assoc; now rewrite endsWith_app).
  simpl. apply slice_decoration.
Qed.


(** Before the enrichment lookup a leading [$%] is removed whether or not a
    trailing [%$] is there. *)
Lemma processData_clean_leading_only (body : jsstring) :
  trim (delim_start ++ body) = delim_start ++ body ->
  endsWith delim_end body = false ->
  processData_clean (delim_start ++ body) = body.
Proof.
  intros Ht He. unfold processData_clean, replaceDecoration.
  rewrite Ht, startsWith_app. change delim_start with [36; 37]%N. simpl skipn.
  now rewrite He.
Qed.

(** C1 (code defect).  The two normalisations agree on a balanced and on an
    undecorated key, but not on a key with one side of the decoration: key
    emission in [handleMerge] leaves ["$%Foo"] as it is, and the test of
    [processData] turns it into ["Foo"], so that a key with only the leading
    decoration is taken for the device-id key. *)
Theorem processData_clean_strips_one_sided_decoration :
  handleMerge_cleanKey (js "$%Foo%$") = js "Foo"
  /\ handleMerge_cleanKey (js "Foo") = js "Foo"
  /\ handleMerge_cleanKey (js "$%Foo") = js "$%Foo"
  /\ processData_clean (js "$%Foo%$") = js "Foo"
  /\ processData_clean (js "Foo") = js "Foo"
  /\ processData_clean (js "$%Foo") = js "Foo"
  /\ processData_clean (js "Foo%$") = js "Foo"
  /\ findDeviceIdKey [(js "$%设备编号", VStr D100)] = Some (js "$%设备编号").
Proof. repeat split; reflexivity. Qed.

(* ================================================================== *)
(** * Category labels *)
(* ================================================================== *)

Lemma lowerUnit_upperUnit (x y : N) :
  lowerUnit x = lowerUnit y -> upperUnit x = upperUnit y.
Proof.
  unfold lowerUnit, upperUnit.
  repeat match goal with
         | |- context [(?a <=? ?b)%N] => destruct (N.leb_spec a b)
         end; simpl; lia.
Qed.

Lemma codePoints_ascii (s : jsstring) :
  forallb (fun c => (c <? 128)%N) s = true -> codePoints s = s.
Proof.
  induction s as [|c s IH]; [reflexivity|]. cbn [forallb codePoints].
  intro H. apply andb_true_iff in H as [Hc Hs]. apply N.ltb_lt in Hc.
  assert (Hl : isLeadSurrogate c = false).
  { unfold isLeadSurrogate. apply andb_false_iff. left. apply N.leb_gt. lia. }
  rewrite Hl. f_equal. now apply IH.
Qed.

Lemma upperUnit_ascii (c : N) : (c < 128)%N -> (upperUnit c < 128)%N.
Proof.
  unfold upperUnit. intro H.
  destruct ((97 <=? c) && (c <=? 122))%N; lia.
Qed.

(** On a string of ASCII characters [toUpperCase] maps the letters [a] to
    [z] and nothing else. *)
Lemma toUpperCase_ascii (s : jsstring) :
  forallb (fun c => (c <? 128)%N) s = true -> toUpperCase s = map upperUnit s.
Proof.
  intro H. unfold toUpperCase. rewrite (codePoints_ascii s H).
  induction s as [|c s IH]; [reflexivity|]. cbn [forallb] in H.
  apply andb_true_iff in H as [Hc Hs].
  cbn [flat_map map]. unfold upperCodePoint at 1. rewrite Hc.
  unfold fromCodePoints in *. cbn [app flat_map]. rewrite (IH Hs).
  unfold codeUnitsOf. apply N.ltb_lt in Hc.
  pose proof (upperUnit_ascii c Hc) as Hu.
  assert (Hlt : (upperUnit c <? 0x10000)%N = true) by (apply N.ltb_lt; lia).
  now rewrite Hlt.
Qed.

Lemma eqIgnoreCase_ascii (a b : jsstring) :
  eqIgnoreCase a b = true ->
  forallb (fun c => (c <? 128)%N) b = true ->
  forallb (fun c => (c <? 128)%N) a = true.
Proof.
  revert b; induction a as [|x a IH]; intros [|y b]; simpl; try discriminate;
    [reflexivity|].
  intros H Hb. apply andb_true_iff in H as [Hx Hr].
  apply andb_true_iff in Hb as [Hy Hb]. apply andb_true_iff. split.
  - apply N.eqb_eq in Hx. apply N.ltb_lt in Hy. apply N.ltb_lt.
    unfold lowerUnit in Hx.
    destruct ((65 <=? x) && (x <=? 90))%N eqn:Ex;
      destruct ((65 <=? y) && (y <=? 90))%N eqn:Ey;
      try (apply andb_true_iff in Ey as [_ Ey]; apply N.leb_le in Ey);
      lia.
  - now apply (IH b).
Qed.

Lemma eqIgnoreCase_map_upperUnit (a b : jsstring) :
  eqIgnoreCase a b = true -> map upperUnit a = map upperUnit b.
Proof.
  revert b; induction a as [|x a IH]; intros [|y b]; simpl; try discriminate;
    [reflexivity|].
  intro H. apply andb_true_iff in H as [Hx Hr]. apply N.eqb_eq in Hx.
  f_equal; [now apply lowerUnit_upperUnit | now apply IH].
Qed.

Lemma eqIgnoreCase_toUpperCase (a b : jsstring) :
  eqIgnoreCase a b = true ->
  forallb (fun c => (c <? 128)%N) b = true ->
  toUpperCase a = toUpperCase b.
Proof.
  intros H Hb. rewrite (toUpperCase_ascii b Hb).
  rewrite (toUpperCase_ascii a (eqIgnoreCase_ascii a b H Hb)).
  now apply eqIgnoreCase_map_upperUnit.
Qed.

Lemma arrayIncludes_In (l : list jsstring) (x : jsstring) :
  arrayIncludes l x = true <-> In x l.
Proof.
  unfold arrayIncludes. rewrite existsb_exists. split.
  - intros [y [Hy E]]. apply str_eqb_eq in E. now subst.
  - intro H. exists x. split; [exact H | apply str_eqb_refl].
Qed.

(** C9.  A name whose trimmed text is [IMAGES], [DOCUMENTS] or [DEVICE TYPE]
    up to the case of its letters, or is already in the list, leaves the list
    of categories as it was. *)
Theorem handleAddCategory_rejects (customCategories : list jsstring) (name : jsstring) :
  eqIgnoreCase (trim name) (js "IMAGES") = true
  \/ eqIgnoreCase (trim name) (js "DOCUMENTS") = true
  \/ eqIgnoreCase (trim name) (js "DEVICE TYPE") = true
  \/ In (trim name) customCategories ->
  handleAddCategory customCategories name = customCategories.
Proof.
  unfold handleAddCategory.
  intros [H|[H|[H|H]]].
  - apply eqIgnoreCase_toUpperCase in H; [|reflexivity]. rewrite H.
    change (toUpperCase (js "IMAGES")) with (js "IMAGES").
    rewrite (str_eqb_refl (js "IMAGES")). simpl.
    now rewrite andb_false_r.
  - apply eqIgnoreCase_toUpperCase in H; [|reflexivity]. rewrite H.
    change (toUpperCase (js "DOCUMENTS")) with (js "DOCUMENTS").
    rewrite (str_eqb_refl (js "DOCUMENTS")). simpl.
    now rewrite !andb_false_r.
  - apply eqIgnoreCase_toUpperCase in H; [|reflexivity]. rewrite H.
    change (toUpperCase (js "DEVICE TYPE")) with (js "DEVICE TYPE").
    rewrite (str_eqb_refl (js "DEVICE TYPE")). simpl.
    now rewrite !andb_false_r.
  - apply arrayIncludes_In in H. now rewrite H.
Qed.

Lemma handleAddCategory_rejects_witness :
  eqIgnoreCase (trim (js "  Device Type ")) (js "DEVICE TYPE") = true
  /\ handleAddCategory [js "Pumps"] (js "  Device Type ") = [js "Pumps"].
Proof.
  split; [reflexivity|].
  apply (handleAddCategory_rejects [js "Pumps"] (js "  Device Type ")).
  right; right; left. reflexivity.
Defined.

(** A name that is neither reserved nor present is appended, trimmed. *)
Example handleAddCategory_adds :
  handleAddCategory [js "Pumps"] (js " Valves ") = [js "Pumps"; js "Valves"].
Proof. reflexivity. Qed.

(* ================================================================== *)
(** * Plain-text substitution *)
(* ================================================================== *)





(** A replacement without a dollar stands for itself. *)
Lemma GetSubstitution_plain (matched before after repl : jsstring) :
  ~ In 36%N repl -> GetSubstitution matched before after repl = repl.
Proof.
  induction repl as [|c r IH]; [reflexivity|].
  intro H. simpl. destruct (c =? 36)%N eqn:E.
  - apply N.eqb_eq in E. subst c. exfalso. apply H. now left.
  - f_equal. apply IH. intro Hin. apply H. now right.
Qed.

Lemma includes_countMatches_from (lit s : jsstring) (fuel : nat) :
  includes lit s = true -> lit <> [] -> length s <= fuel ->
  0 < countMatches_from fuel lit s.
Proof.
  revert s. induction fuel as [|f IH]; intros s Hinc Hl Hf.
  - destruct s; [|simpl in Hf; lia]. destruct lit; [congruence|discriminate].
  - destruct s as [|c s].
    + destruct lit; [congruence|discriminate].
    + cbn [countMatches_from]. destruct (startsWith lit (c :: s)) eqn:E; [lia|].
      cbn [includes] in Hinc. rewrite E in Hinc. simpl in Hinc.
      apply IH; [exact Hinc | exact Hl | simpl in Hf; lia].
Qed.

Lemma startsWith_skipn_length (lit s : jsstring) :
  lit <> [] -> startsWith lit s = true ->
  length (skipn (length lit) s) < length s.
Proof.
  intros Hl H. apply startsWith_inv in H as [r ->].
  rewrite skipn_app, skipn_all, Nat.sub_diag, !length_app. simpl.
  destruct lit; [congruence | simpl; lia].
Qed.

(** With a replacement that has no dollar, the result of the global
    replacement does not depend on the fuel, once there is enough of it, nor
    on the text already passed. *)
Lemma replaceAll_from_plain (lit repl : jsstring) :
  lit <> [] -> ~ In 36%N repl ->
  forall n s fuel1 fuel2 before1 before2,
    length s <= n -> length s <= fuel1 -> length s <= fuel2 ->
    replaceAll_from fuel1 lit repl before1 s
    = replaceAll_from fuel2 lit repl before2 s.
Proof.
  intros Hl Hr. induction n as [|n IH]; intros s f1 f2 b1 b2 Hn H1 H2.
  - destruct s; [|simpl in Hn; lia]. now destruct f1, f2.
  - destruct s as [|c s]; [now destruct f1, f2|].
    destruct f1 as [|f1]; [simpl in H1; lia|].
    destruct f2 as [|f2]; [simpl in H2; lia|].
    cbn [replaceAll_from]. destruct (startsWith lit (c :: s)) eqn:E.
    + rewrite !GetSubstitution_plain by exact Hr. f_equal.
      pose proof (startsWith_skipn_length _ _ Hl E) as Hlen. simpl length in Hlen.
      apply IH; simpl in Hn, H1, H2; lia.
    + f_equal. apply IH; simpl in Hn, H1, H2; lia.
Qed.

Lemma countMatches_from_fuel (lit : jsstring) :
  lit <> [] ->
  forall n s fuel1 fuel2,
    length s <= n -> length s <= fuel1 -> length s <= fuel2 ->
    countMatches_from fuel1 lit s = countMatches_from fuel2 lit s.
Proof.
  intros Hl. induction n as [|n IH]; intros s f1 f2 Hn H1 H2.
  - destruct s; [|simpl in Hn; lia]. now destruct f1, f2.
  - destruct s as [|c s]; [now destruct f1, f2|].
    destruct f1 as [|f1]; [simpl in H1; lia|].
    destruct f2 as [|f2]; [simpl in H2; lia|].
    cbn [countMatches_from]. destruct (startsWith lit (c :: s)) eqn:E.
    + f_equal.
      pose proof (startsWith_skipn_length _ _ Hl E) as Hlen. simpl length in Hlen.
      apply IH; simpl in Hn, H1, H2; lia.
    + apply IH; simpl in Hn, H1, H2; lia.
Qed.

(** The global replacement of a literal by a replacement without a dollar,
    read from left to right: where the literal starts, it is replaced by the
    value and the scan goes on after it; elsewhere the character is kept. *)
Lemma replaceAll_match (lit repl post : jsstring) :
  lit <> [] -> ~ In 36%N repl ->
  replaceAll lit repl (lit ++ post) = repl ++ replaceAll lit repl post.
Proof.
  intros Hl Hr. unfold replaceAll.
  destruct (lit ++ post) as [|c s] eqn:Es.
  { destruct lit; [congruence|discriminate]. }
  cbn [length replaceAll_from]. rewrite <- Es, startsWith_app.
  rewrite GetSubstitution_plain by exact Hr. f_equal.
  rewrite skipn_app, skipn_all, Nat.sub_diag. simpl skipn.
  assert (Hlen : length post <= length s).
  { apply (f_equal (@length N)) in Es. rewrite length_app in Es. simpl in Es.
    destruct lit; [congruence | simpl in Es; lia]. }
  apply (replaceAll_from_plain lit repl Hl Hr (length s)); lia.
Qed.

Lemma replaceAll_skip (lit repl : jsstring) (c : N) (s : jsstring) :
  lit <> [] -> ~ In 36%N repl -> startsWith lit (c :: s) = false ->
  replaceAll lit repl (c :: s) = c :: replaceAll lit repl s.
Proof.
  intros Hl Hr E. unfold replaceAll. cbn [length replaceAll_from]. rewrite E.
  f_equal. apply (replaceAll_from_plain lit repl Hl Hr (length s)); lia.
Qed.

Lemma replaceAll_nil (lit repl : jsstring) : replaceAll lit repl [] = [].
Proof. reflexivity. Qed.

Lemma countMatches_match (lit post : jsstring) :
  lit <> [] -> countMatches lit (lit ++ post) = S (countMatches lit post).
Proof.
  intros Hl. unfold countMatches.
  destruct (lit ++ post) as [|c s] eqn:Es.
  { destruct lit; [congruence|discriminate]. }
  cbn [length countMatches_from]. rewrite <- Es, startsWith_app. f_equal.
  rewrite skipn_app, skipn_all, Nat.sub_diag. simpl skipn.
  assert (Hlen : length post <= length s).
  { apply (f_equal (@length N)) in Es. rewrite length_app in Es. simpl in Es.
    destruct lit; [congruence | simpl in Es; lia]. }
  apply (countMatches_from_fuel lit Hl (length s)); lia.
Qed.

Lemma countMatches_skip (lit : jsstring) (c : N) (s : jsstring) :
  lit <> [] -> startsWith lit (c :: s) = false ->
  countMatches lit (c :: s) = countMatches lit s.
Proof.
  intros Hl E. unfold countMatches. cbn [length countMatches_from]. rewrite E.
  apply (countMatches_from_fuel lit Hl (length s)); lia.
Qed.

(** A key that is in the text has at least one match. *)
Lemma includes_countMatches (lit s : jsstring) :
  includes lit s = true -> lit <> [] -> 0 < countMatches lit s.
Proof. intros. now apply includes_countMatches_from. Qed.

(** A pair whose key is empty or not in the current text: status
    [not-found], text and count as they were. *)
Lemma mergePair_absent (newContent : jsstring) (replacementCount : nat)
  (p : KeyValuePair) :
  key p = [] \/ includes (key p) newContent = false ->
  mergePair (newContent, replacementCount) p
  = ((newContent, replacementCount), withStatus p not_found).
Proof.
  unfold mergePair. intros [H|H]; rewrite H; [reflexivity|].
  now rewrite andb_false_r.
Qed.

(** A pair whose key is in the current text: status [replaced], the count
    grows by the number of matches, which is not zero. *)
Lemma mergePair_present (newContent : jsstring) (replacementCount : nat)
  (p : KeyValuePair) :
  key p <> [] -> includes (key p) newContent = true ->
  mergePair (newContent, replacementCount) p
  = ((replaceAll (key p) (value p) newContent,
      replacementCount + countMatches (key p) newContent),
     withStatus p replaced)
  /\ 0 < countMatches (key p) newContent.
Proof.
  intros Hk Hinc. pose proof (includes_countMatches _ _ Hinc Hk) as Hpos.
  split; [|exact Hpos]. unfold mergePair. rewrite Hinc.
  apply str_eqb_neq in Hk. rewrite Hk. simpl.
  apply Nat.ltb_lt in Hpos. now rewrite Hpos.
Qed.


(** C6 (code defect).  The text of the specification's example is replaced
    as claimed, but the value is given to [String.prototype.replace] as a
    replacement pattern: with the value ["$$5"] each occurrence of the key
    becomes ["$5"], and with ["<$&>"] it becomes the key between angle
    brackets, not the pair's value. *)
Theorem mergePairs_value_is_a_replacement_pattern :
  mergePairs (js "Hello NAME, welcome", 0) [kv "NAME" "Bob"]
  = ((js "Hello Bob, welcome", 1), [withStatus (kv "NAME" "Bob") replaced])
  /\ mergePairs (js "Total: PRICE", 0) [kv "PRICE" "$$5"]
     = ((js "Total: $5", 1), [withStatus (kv "PRICE" "$$5") replaced])
  /\ mergePairs (js "Hello NAME", 0) [kv "NAME" "<$&>"]
     = ((js "Hello <NAME>", 1), [withStatus (kv "NAME" "<$&>") replaced])
  /\ (let '(s', _, o) :=
        handleMerge rt0 (sessionOf (textFile "bill.txt" "Total: PRICE") [kv "PRICE" "$$5"]) in
      (option_map file_part (resultFile s'), mergeMessage s', o))
     = (Some (PartString (js "Total: $5")), MsgReplaced 1, Completed).
Proof. repeat split; reflexivity. Qed.


(* ================================================================== *)
(** * The name and type of the output file *)
(* ================================================================== *)

Lemma forallb_isWordChar_dot (a b : jsstring) :
  forallb isWordChar (a ++ 46%N :: b) = false.
Proof.
  rewrite forallb_app. simpl. now rewrite andb_false_r.
Qed.

(** A name that ends with a dot and word characters gets [_merged] before
    that dot. *)
Lemma outputName_extension (stem ext : jsstring) :
  ext <> [] -> forallb isWordChar ext = true ->
  outputName (stem ++ 46%N :: ext) = stem ++ js "_merged" ++ 46%N :: ext.
Proof.
  intros Hne Hw. induction stem as [|c stem IH].
  - cbn [app outputName]. rewrite N.eqb_refl, Hw.
    apply str_eqb_neq in Hne. now rewrite Hne.
  - cbn [app outputName]. rewrite forallb_isWordChar_dot, andb_false_r.
    now rewrite IH.
Qed.

(** Any other name is left as it is. *)
Lemma outputName_no_extension (name : jsstring) :
  (forall stem ext, name = stem ++ 46%N :: ext -> ext <> [] ->
                    forallb isWordChar ext = false) ->
  outputName name = name.
Proof.
  induction name as [|c r IH]; intro H; [reflexivity|].
  cbn [outputName].
  destruct ((c =? 46)%N && negb (str_eqb r []) && forallb isWordChar r) eqn:E.
  - apply andb_true_iff in E as [E Hw]. apply andb_true_iff in E as [Hc Hr].
    apply N.eqb_eq in Hc. subst c.
    apply negb_true_iff, str_eqb_neq in Hr.
    rewrite (H [] r eq_refl Hr) in Hw. discriminate.
  - f_equal. apply IH. intros stem ext -> Hne.
    now apply (H (c :: stem) ext).
Qed.

Lemma mergeDocx_Ok (rt : Runtime) (fd : StoredFile) (s s1 : Session)
  (log : list LogEntry) (f : File) (msg : Message) :
  mergeDocx rt fd s = (s1, log, Ok (f, msg)) ->
  file_name f = outputName (sf_name fd) /\ file_type f = docx_mime.
Proof.
  unfold mergeDocx.
  destruct (PizZip rt); [|discriminate].
  destruct (docxtemplater rt) as [render|]; [|discriminate].
  destruct (blob_arrayBuffer (sf_content fd)) as [buffer|]; [|discriminate].
  destruct (match mammoth rt with Some _ => _ | None => _ end) as [s2 log2].
  destruct (render buffer _); [|discriminate].
  intro H. injection H as _ _ <- _. now split.
Qed.

Lemma mergeText_Ok (rt : Runtime) (fd : StoredFile) (s s1 : Session)
  (log : list LogEntry) (f : File) (msg : Message) :
  mergeText rt fd s = (s1, log, Ok (f, msg)) ->
  file_name f = outputName (sf_name fd) /\ file_type f = sf_type fd.
Proof.
  unfold mergeText.
  destruct (blob_text (sf_content fd)) as [content|]; [|discriminate].
  destruct (mergePairs _ _) as [[newContent n] updated].
  intro H. injection H as _ _ <- _. now split.
Qed.

(** C8 (amended).  After a run that succeeds, the output file is named after
    the input file: when the input name ends with a dot followed by one or
    more word characters, [_merged] is inserted before that dot; any other
    name (no extension, or a last segment with other characters) is kept as
    it is.  The type is the input's type in the plain-text variant and the
    word-processor type in the structured one. *)
Theorem handleMerge_output_file (rt : Runtime) (s s' : Session)
  (log : list LogEntry) :
  handleMerge rt s = (s', log, Completed) ->
  exists fd f,
    fileData s = Some fd /\ resultFile s' = Some f
    /\ (forall stem ext,
           sf_name fd = stem ++ 46%N :: ext -> ext <> [] ->
           forallb isWordChar ext = true ->
           file_name f = stem ++ js "_merged" ++ 46%N :: ext)
    /\ ((forall stem ext,
            sf_name fd = stem ++ 46%N :: ext -> ext <> [] ->
            forallb isWordChar ext = false) ->
        file_name f = sf_name fd)
    /\ file_type f = (if isDocx fd then docx_mime else sf_type fd).
Proof.
  unfold handleMerge. intro H.
  destruct (fileData s) as [fd|]; [|discriminate].
  destruct (keyValuePairs s) as [|p ps]; [discriminate|].
  destruct (if isDocx fd then _ else _) as [[s1 log1] r] eqn:Hb.
  destruct r as [[f msg]|]; [|discriminate].
  injection H as <- _. exists fd, f.
  assert (Hf : file_name f = outputName (sf_name fd)
               /\ file_type f = if isDocx fd then docx_mime else sf_type fd).
  { destruct (isDocx fd).
    - now apply mergeDocx_Ok in Hb.
    - now apply mergeText_Ok in Hb. }
  destruct Hf as [Hn Ht]. repeat split; try assumption; try reflexivity.
  - intros stem ext E Hne Hw. rewrite Hn, E. now apply outputName_extension.
  - intro Hno. rewrite Hn. now apply outputName_no_extension.
Qed.

Lemma handleMerge_output_file_witness :
  handleMerge rt0 (sessionOf (textFile "report.final.txt" "Hello NAME") [kv "NAME" "Bob"])
  = (fst (fst (handleMerge rt0
        (sessionOf (textFile "report.final.txt" "Hello NAME") [kv "NAME" "Bob"]))),
     [], Completed)
  /\ exists fd f,
      fileData (sessionOf (textFile "report.final.txt" "Hello NAME") [kv "NAME" "Bob"])
      = Some fd
      /\ resultFile (fst (fst (handleMerge rt0
           (sessionOf (textFile "report.final.txt" "Hello NAME") [kv "NAME" "Bob"]))))
         = Some f
      /\ (forall stem ext,
             sf_name fd = stem ++ 46%N :: ext -> ext <> [] ->
             forallb isWordChar ext = true ->
             file_name f = stem ++ js "_merged" ++ 46%N :: ext)
      /\ ((forall stem ext,
              sf_name fd = stem ++ 46%N :: ext -> ext <> [] ->
              forallb isWordChar ext = false) ->
          file_name f = sf_name fd)
      /\ file_type f = (if isDocx fd then docx_mime else sf_type fd).
Proof.
  split; [reflexivity|].
  apply (handleMerge_output_file rt0
           (sessionOf (textFile "report.final.txt" "Hello NAME") [kv "NAME" "Bob"])
           _ []).
  reflexivity.
Defined.

(** The claim as it is written fails for a name without an extension: the
    run succeeds and the output file is named [README], without [_merged]. *)
Lemma handleMerge_keeps_name_without_extension :
  (let '(s', _, o) :=
     handleMerge rt0 (sessionOf (textFile "README" "Hello NAME") [kv "NAME" "Bob"]) in
   (option_map file_name (resultFile s'), o))
  = (Some (js "README"), Completed)
  /\ includes (js "_merged") (js "README") = false.
Proof. split; reflexivity. Qed.

Example outputName_two_dots : outputName (js "archive.tar.gz") = js "archive.tar_merged.gz".
Proof. reflexivity. Qed.

(* ================================================================== *)
(** * A run of the substitution that fails *)
(* ================================================================== *)

Lemma unstatus_checkPair (textContent : jsstring) (ps : list KeyValuePair) :
  map unstatus (map (checkPair textContent) ps) = map unstatus ps.
Proof. rewrite map_map. now apply map_ext. Qed.

Lemma mergeText_Thrown (rt : Runtime) (fd : StoredFile) (s s1 : Session)
  (log : list LogEntry) :
  mergeText rt fd s = (s1, log, Thrown) -> s1 = s /\ log = [].
Proof.
  unfold mergeText.
  destruct (blob_text (sf_content fd)) as [content|].
  - destruct (mergePairs _ _) as [[newContent n] updated]. discriminate.
  - intro H. injection H as <- <-. now split.
Qed.

Lemma mergeDocx_Thrown (rt : Runtime) (fd : StoredFile) (s s1 : Session)
  (log : list LogEntry) :
  mergeDocx rt fd s = (s1, log, Thrown) ->
  s1 = match checkedText rt fd with
       | Some textContent =>
           setKeyValuePairs (map (checkPair textContent) (keyValuePairs s)) s
       | None => s
       end.
Proof.
  unfold mergeDocx, checkedText.
  destruct (PizZip rt); [|intro H; now injection H as <- _].
  destruct (docxtemplater rt) as [render|]; [|intro H; now injection H as <- _].
  destruct (blob_arrayBuffer (sf_content fd)) as [buffer|];
    [|intro H; now injection H as <- _].
  destruct (mammoth rt) as [mm|].
  - destruct (extractRawText mm buffer) as [textContent|];
      (destruct (render buffer _); [discriminate|]);
      intro H; now injection H as <- _.
  - destruct (render buffer _); [discriminate|].
    intro H. now injection H as <- _.
Qed.

(** C3 (amended).  After a run that fails, the session is in the error state
    with the generic message and without an output document; the target file
    and the data-file name are as before, and so are the pairs with their
    ids, keys and values, in the same order.  The statuses of the pairs are
    as before too in the plain-text variant, and in the structured variant
    when the failure comes before the presence check; when that check ran on
    the extracted text before the failure, every pair carries the status
    that the check gave it. *)
Theorem handleMerge_caught (rt : Runtime) (s s' : Session) (log : list LogEntry) :
  handleMerge rt s = (s', log, Caught) ->
  mergeStatus s' = error /\ mergeMessage s' = MsgFailedToProcess
  /\ resultFile s' = None
  /\ fileData s' = fileData s /\ dataFileName s' = dataFileName s
  /\ map unstatus (keyValuePairs s') = map unstatus (keyValuePairs s)
  /\ exists fd,
      fileData s = Some fd
      /\ keyValuePairs s'
         = match (if isDocx fd then checkedText rt fd else None) with
           | Some textContent => map (checkPair textContent) (keyValuePairs s)
           | None => keyValuePairs s
           end.
Proof.
  unfold handleMerge. intro H.
  destruct (fileData s) as [fd|] eqn:Hfd; [|discriminate].
  destruct (keyValuePairs s) as [|p ps] eqn:Hps; [discriminate|].
  destruct (if isDocx fd then _ else _) as [[s1 log1] r] eqn:Hb.
  destruct r as [[f msg]|]; [discriminate|].
  injection H as <- _.
  set (s0 := setResultFile None (setMergeStatus processing s)) in *.
  assert (Hs1 : s1 = match (if isDocx fd then checkedText rt fd else None) with
                     | Some textContent =>
                         setKeyValuePairs (map (checkPair textContent) (p :: ps)) s0
                     | None => s0
                     end).
  { destruct (isDocx fd).
    - apply mergeDocx_Thrown in Hb. subst s0. simpl in Hb. now rewrite Hps in Hb.
    - now apply mergeText_Thrown in Hb as [-> _]. }
  rewrite Hs1. subst s0.
  destruct (if isDocx fd then checkedText rt fd else None) as [textContent|] eqn:Hc;
    simpl; rewrite Hfd, ?Hps; repeat split; try reflexivity.
  - apply (unstatus_checkPair textContent (p :: ps)).
  - exists fd. now rewrite Hc.
  - exists fd. now rewrite Hc.
Qed.

Lemma handleMerge_caught_witness :
  handleMerge rt0 failedInput
  = (fst (fst (handleMerge rt0 failedInput)), [Error "handleMerge"], Caught)
  /\ mergeStatus (fst (fst (handleMerge rt0 failedInput))) = error
  /\ mergeMessage (fst (fst (handleMerge rt0 failedInput))) = MsgFailedToProcess
  /\ resultFile (fst (fst (handleMerge rt0 failedInput))) = None
  /\ keyValuePairs (fst (fst (handleMerge rt0 failedInput)))
     = keyValuePairs failedInput.
Proof.
  split; [reflexivity|].
  destruct (handleMerge_caught rt0 failedInput
              (fst (fst (handleMerge rt0 failedInput))) [Error "handleMerge"]
              eq_refl)
    as (H1 & H2 & H3 & _).
  split; [exact H1|]. split; [exact H2|]. split; [exact H3|]. reflexivity.
Defined.

(** The claim as it is written fails in the structured variant: the
    templater refuses the document after the presence check, the run ends in
    the error state, and the statuses of the pairs are no longer unset. *)
Lemma handleMerge_failed_run_sets_statuses :
  (let '(s', _, o) :=
     handleMerge rt0 (sessionOf refusedTemplate [kv "Name" "Ann"; kv "Date" "today"]) in
   (o, mergeStatus s', resultFile s', map status (keyValuePairs s')))
  = (Caught, error, None, [Some replaced; Some not_found])
  /\ map status (keyValuePairs
                   (sessionOf refusedTemplate [kv "Name" "Ann"; kv "Date" "today"]))
     = [None; None].
Proof. split; reflexivity. Qed.

(* ================================================================== *)
(** * Enrichment lookup *)
(* ================================================================== *)

Ltac evaluate t := let v := eval vm_compute in t in change t with v.









Example deviceSheet_rows :
  deviceSheet
  = [[(label_deviceId, VStr D100); (label_deviceName, VStr (js "Sensor"));
      (label_model, VStr (js "M1")); (label_manufacturer, VStr (js "ACME"))]].
Proof. reflexivity. Qed.

Lemma scanSheet_deviceSheet (v : jsstring) :
  trim v = D100 -> scanSheet (VStr v) deviceSheet = Ok (Some sensorDetails).
Proof.
  intro Hv. evaluate deviceSheet. cbn [scanSheet].
  match goal with |- context [findKey label_deviceId ?ks] =>
    evaluate (findKey label_deviceId ks) end.
  cbv iota.
  match goal with |- context [StringOf ?c] => evaluate (StringOf c) end.
  cbn [trimVal bind]. rewrite Hv.
  match goal with |- context [str_eqb ?a D100] => evaluate (str_eqb a D100) end.
  cbv iota. do 2 f_equal.
Qed.


(* ================================================================== *)
(** * The line parser of the text handler *)
(* ================================================================== *)

Lemma span_stop (p : N -> bool) (a : jsstring) (c : N) (b : jsstring) :
  forallb p a = true -> p c = false -> span p (a ++ c :: b) = (a, c :: b).
Proof.
  intros Ha Hc. induction a as [|x a IH]; simpl.
  - now rewrite Hc.
  - simpl in Ha. apply andb_true_iff in Ha as [Hx Ha]. rewrite Hx.
    now rewrite (IH Ha).
Qed.

Lemma span_split (p : N -> bool) (s : jsstring) :
  s = fst (span p s) ++ snd (span p s).
Proof.
  induction s as [|c s IH]; simpl; [reflexivity|].
  destruct (p c); [|reflexivity].
  destruct (span p s) as [a b]. simpl in *. now f_equal.
Qed.

Lemma skipn_span (p : N -> bool) (s : jsstring) :
  skipn (length (fst (span p s))) s = snd (span p s).
Proof.
  rewrite (span_split p s) at 2.
  now rewrite skipn_app, skipn_all, Nat.sub_diag.
Qed.

Lemma noLineTerminator_span (p : N -> bool) (s : jsstring) :
  noLineTerminator s = true -> noLineTerminator (snd (span p s)) = true.
Proof.
  unfold noLineTerminator. rewrite (span_split p s) at 1.
  rewrite forallb_app. intro H. now apply andb_true_iff in H as [_ H].
Qed.

Lemma isDelimiter_isKeyChar (d : N) : isDelimiter d = true -> isKeyChar d = false.
Proof. unfold isDelimiter, isKeyChar. now intros ->. Qed.

Lemma isDelimiter_isSepChar (d : N) : isDelimiter d = true -> isSepChar d = true.
Proof. unfold isDelimiter, isSepChar. intros ->. reflexivity. Qed.

(** The pattern on a line that has a delimiter after a key that is not
    empty: group 1 is the key, group 2 what follows the run of separators
    that starts at the delimiter. *)
Lemma matchLine_delimited (k rest : jsstring) (d : N) :
  k <> [] -> forallb isKeyChar k = true -> isDelimiter d = true ->
  noLineTerminator rest = true ->
  matchLine (k ++ d :: rest) = Some (k, snd (span isSepChar rest)).
Proof.
  intros Hk Hkey Hd Hrest. unfold matchLine.
  rewrite (span_stop _ _ _ _ Hkey (isDelimiter_isKeyChar _ Hd)). cbn [fst].
  destruct k as [|c k']; [congruence|].
  set (key := c :: k'). change (length key) with (S (length k')).
  cbn [matchKey]. fold (length key).
  replace (S (length k')) with (length key) by reflexivity.
  replace (skipn (length key) (key ++ d :: rest)) with (d :: rest)
    by (now rewrite skipn_app, skipn_all, Nat.sub_diag).
  cbn [span]. rewrite (isDelimiter_isSepChar _ Hd).
  destruct (span isSepChar rest) as [a b] eqn:Hsp. cbn [fst length matchSeps].
  replace (skipn (S (length a)) (d :: rest)) with b.
  - pose proof (noLineTerminator_span isSepChar rest Hrest) as Hb.
    rewrite Hsp in Hb. cbn [snd] in Hb. rewrite Hb.
    now rewrite firstn_app, firstn_all, Nat.sub_diag, app_nil_r.
  - cbn [skipn]. pose proof (skipn_span isSepChar rest) as E.
    rewrite Hsp in E. cbn [fst snd] in E. now rewrite E.
Qed.

(** C7 (amended).  A text that [JSON.parse] refuses is read line by line
    into an empty mapping.  For a line that, once trimmed, has a non-empty
    part before its first [:], [=] or [,], the key is that part, trimmed,
    and the value is what follows the whole run of [:], [=], [,] and tab
    characters that starts there, trimmed (the rest of the line holding no
    carriage return and no line or paragraph separator).  The three lines of
    the example give the three pairs in that order. *)
Theorem parseLine_delimited :
  (forall rt text,
      JSON_parse rt text = Thrown ->
      parseTextData rt text = fold_left parseLine (splitOn 10 text) [])
  /\ (forall (data : obj jsval) (line k rest : jsstring) (d : N),
         trim line = k ++ d :: rest ->
         k <> [] -> forallb isKeyChar k = true -> isDelimiter d = true ->
         noLineTerminator rest = true ->
         parseLine data line
         = obj_set data (trim k) (VStr (trim (snd (span isSepChar rest)))))
  /\ parseTextData rt0 (js "A:1
B=2
C,3")
     = [(js "A", VStr (js "1")); (js "B", VStr (js "2")); (js "C", VStr (js "3"))].
Proof.
  split; [|split].
  - intros rt text H. unfold parseTextData. now rewrite H.
  - intros data line k rest d Ht Hk Hkey Hd Hrest. unfold parseLine.
    rewrite Ht.
    replace (str_eqb (k ++ d :: rest) []) with false
      by (symmetry; apply str_eqb_neq; destruct k; discriminate).
    now rewrite (matchLine_delimited _ _ _ Hk Hkey Hd Hrest).
  - reflexivity.
Qed.

Lemma parseLine_delimited_witness :
  trim (js "  Serial No = : 42 ") = js "Serial No " ++ 61%N :: js " : 42"
  /\ parseLine [] (js "  Serial No = : 42 ")
     = [(js "Serial No", VStr (js ": 42"))].
Proof.
  split; [reflexivity|].
  rewrite (proj1 (proj2 parseLine_delimited) [] (js "  Serial No = : 42 ")
             (js "Serial No ") (js " : 42") 61%N
             eq_refl ltac:(discriminate) eq_refl eq_refl eq_refl).
  reflexivity.
Defined.

(** The claim as it is written fails on a line with two delimiters in a row:
    cut at the first delimiter, ["A::1"] would give the value [":1"]; the
    parser gives ["1"]. *)
Lemma parseLine_not_cut_at_first_delimiter :
  ~ (forall (line k rest : jsstring) (d : N),
        line = k ++ d :: rest ->
        forallb isKeyChar k = true -> isDelimiter d = true ->
        parseLine [] line = [(k, VStr (trim rest))]).
Proof.
  intro H.
  specialize (H (js "A::1") (js "A") (js ":1") 58%N eq_refl eq_refl eq_refl).
  vm_compute in H. discriminate.
Qed.

(** Other lines that are not cut at their first delimiter. *)
Example parseLine_leading_delimiter :
  parseLine [] (js "=5") = [(js "=5", VStr [])].
Proof. reflexivity. Qed.

Example parseLine_tab_separated :
  parseLine [] (9%N :: js "a" ++ 9%N :: js "b" ++ 9%N :: js "c")
  = [(js "a" ++ 9%N :: js "b", VStr (js "c"))].
Proof. reflexivity. Qed.

Example parseLine_whitespace_separated :
  parseLine [] (js "Name Ann Lee") = [(js "Name", VStr (js "Ann Lee"))].
Proof. reflexivity. Qed.

(* ================================================================== *)
(** * Empty keys *)
(* ================================================================== *)

Lemma trimStart_head (s r : jsstring) (c : N) :
  trimStart s = c :: r -> isWhiteSpace c = false.
Proof.
  induction s as [|x s IH]; simpl; [discriminate|].
  destruct (isWhiteSpace x) eqn:E; [exact IH|].
  intro H. injection H as <- _. exact E.
Qed.

(** A trimmed string that is not empty starts with a character that is not
    white space. *)
Lemma trim_head (s r : jsstring) (c : N) :
  trim s = c :: r -> isWhiteSpace c = false.
Proof.
  unfold trim, trimEnd. destruct (trimStart s) as [|c0 t] eqn:Ht; [discriminate|].
  pose proof (trimStart_head _ _ _ Ht) as Hc0.
  simpl rev. destruct (trimStart_app_nonws (rev t) c0 [] Hc0) as [a' Ha].
  rewrite Ha, rev_app_distr. simpl. intro H. injection H as <- _. exact Hc0.
Qed.

Lemma matchKey_group1 (n : nat) (s g1 g2 : jsstring) :
  matchKey n s = Some (g1, g2) -> exists m, g1 = firstn (S m) s.
Proof.
  induction n as [|n IH]; simpl; [discriminate|].
  destruct (matchSeps _ _); [|exact IH].
  intro H. injection H as <- _. now exists n.
Qed.

Lemma splitWhitespace_aux_head (cur s : jsstring) :
  cur <> [] -> hd [] (splitWhitespace_aux cur false s) <> [].
Proof.
  revert cur. induction s as [|x s IH]; intros cur Hc; simpl.
  - intro E. apply (f_equal (@rev N)) in E. rewrite rev_involutive in E. now simpl in E.
  - destruct (isWhiteSpace x).
    + simpl. intro E. apply (f_equal (@rev N)) in E.
      rewrite rev_involutive in E. now simpl in E.
    + apply IH. discriminate.
Qed.

(** The line parser of the text handler never adds an empty key. *)
Lemma parseLine_noEmptyKey (data : obj jsval) (line : jsstring) :
  noEmptyKey data -> noEmptyKey (parseLine data line).
Proof.
  intro Hd. unfold parseLine.
  destruct (trim line) as [|c r] eqn:Ht; [exact Hd|].
  pose proof (trim_head _ _ _ Ht) as Hc.
  cbn [str_eqb].
  destruct (matchLine (c :: r)) as [[g1 g2]|] eqn:Hm.
  - apply noEmptyKey_set; [|exact Hd].
    unfold matchLine in Hm. apply matchKey_group1 in Hm as [m ->].
    apply trim_has_nonws with c; [now left | exact Hc].
  - destruct (2 <=? length (splitWhitespace (c :: r))).
    + apply noEmptyKey_set; [|exact Hd].
      unfold splitWhitespace. cbn [splitWhitespace_aux]. rewrite Hc.
      apply splitWhitespace_aux_head. discriminate.
    + apply noEmptyKey_set; [discriminate | exact Hd].
Qed.

Lemma parseLines_noEmptyKey (data : obj jsval) (text : jsstring) :
  noEmptyKey data -> noEmptyKey (parseLines data text).
Proof.
  unfold parseLines. generalize (splitOn 10 text). intro lines.
  revert data. induction lines as [|l lines IH]; intros data Hd; simpl; [exact Hd|].
  apply IH. now apply parseLine_noEmptyKey.
Qed.

Lemma wordRow_noEmptyKey (acc : obj jsval * bool) (row : TableRow) :
  noEmptyKey (fst acc) -> noEmptyKey (fst (wordRow acc row)).
Proof.
  intro Ha. unfold wordRow. destruct (tdCells row) as [|c0 cells]; [exact Ha|].
  destruct (str_eqb (trim (textContent c0)) []) eqn:E; simpl; [exact Ha|].
  apply noEmptyKey_set; [now apply str_eqb_neq | exact Ha].
Qed.

Lemma wordLine_noEmptyKey (mapping : obj jsval) (line : jsstring) :
  noEmptyKey mapping -> noEmptyKey (wordLine mapping line).
Proof.
  intro Hm. unfold wordLine. destruct (str_eqb (trim line) []); [exact Hm|].
  destruct (splitColonEq (trim line)) as [|p0 rest]; [exact Hm|].
  destruct (str_eqb (trim p0) []) eqn:E; simpl; [exact Hm|].
  apply noEmptyKey_set; [now apply str_eqb_neq | exact Hm].
Qed.

(** X3.  The word-processor handler never adds an empty key: it tests the
    trimmed key before it stores it. *)
Lemma parseWord_noEmptyKey (doc : HtmlDoc) : noEmptyKey (parseWord doc).
Proof.
  unfold parseWord.
  assert (Hrows : forall rows acc, noEmptyKey (fst acc) ->
                    noEmptyKey (fst (fold_left wordRow rows acc))).
  { induction rows as [|r rows IH]; intros acc Ha; simpl; [exact Ha|].
    apply IH. now apply wordRow_noEmptyKey. }
  assert (Hlines : forall lines m, noEmptyKey m ->
                     noEmptyKey (fold_left wordLine lines m)).
  { induction lines as [|l lines IH]; intros m Hm; simpl; [exact Hm|].
    apply IH. now apply wordLine_noEmptyKey. }
  specialize (Hrows (doc_rows doc) ([], false)).
  destruct (fold_left wordRow (doc_rows doc) ([], false)) as [mapping found].
  simpl in Hrows. assert (Hm : noEmptyKey mapping) by (apply Hrows; intros []).
  destruct found; [exact Hm | now apply Hlines].
Qed.

(** The spreadsheet handler keeps the invariant on a row whose first cell
    has text once trimmed, and drops a row without cells or with a [null] or
    missing first cell. *)
Lemma sheetRow_noEmptyKey (mapping : obj jsval) (row : list jsval) :
  noEmptyKey mapping ->
  (forall c0 rest, row = c0 :: rest -> notNullish c0 = true ->
                   trim (ToString c0) <> []) ->
  noEmptyKey (sheetRow mapping row).
Proof.
  intros Hm Hrow. unfold sheetRow. destruct row as [|c0 rest]; [exact Hm|].
  destruct (notNullish c0) eqn:E; [|exact Hm].
  apply noEmptyKey_set; [|exact Hm]. now apply (Hrow c0 rest).
Qed.

(** C4 (code defect).  The spreadsheet handler only tests that the first
    cell of a row is not [null]: a row whose first cell is empty or holds
    only white space is stored under the empty key, where the handler for
    word-processor tables stores nothing for such a row.  Rows with a [null]
    or missing first cell are dropped. *)
Theorem parseSheet_stores_empty_key :
  parseSheet [[VStr (js "   "); VStr (js "orphan")]] = [([], VStr (js "orphan"))]
  /\ parseSheet [[VStr []; VStr (js "orphan")]] = [([], VStr (js "orphan"))]
  /\ parseSheet [[VNull; VStr (js "orphan")]; [VUndefined; VStr (js "x")]; []] = []
  /\ keyValues (keyValuePairs
       (fst (parseAndLoadDataFile rt0 (storeOf []) (blobOf [4%N] "")
               (js "data.xlsx") emptySession)))
     = [(js "Name", js "Ann"); ([], js "orphan")]
  /\ fst (wordRow ([], false)
            [{| cell_th := false; textContent := js "   " |};
             {| cell_th := false; textContent := js "orphan" |}]) = [].
Proof. repeat split; reflexivity. Qed.

(** The JSON arm of the text handler: an array element is stored when its
    [key] is truthy; the entries of an object are stored under their keys as
    they are, when their value is a string. *)
Example fillFromJson_object :
  fillFromJson (VObj [(js "X", VStr (js "9")); (js "Y", VNum (ofZ 5))])
  = ([(js "X", VStr (js "9"))], false).
Proof. reflexivity. Qed.

Example fillFromJson_array :
  fillFromJson
    (VArr [VObj [(js "key", VStr (js "A")); (js "value", VStr (js "1"))];
           VObj [(js "key", VStr []); (js "value", VStr (js "2"))];
           VObj [(js "key", VStr (js "C"))]])
  = ([(js "A", VStr (js "1")); (js "C", VStr [])], false).
Proof. reflexivity. Qed.

Example fillFromJson_array_null :
  fillFromJson
    (VArr [VObj [(js "key", VStr (js "A")); (js "value", VStr (js "1"))]; VNull])
  = ([(js "A", VStr (js "1"))], true).
Proof. reflexivity. Qed.

Example fillFromJson_object_empty_key :
  fillFromJson (VObj [([], VStr (js "x"))]) = ([([], VStr (js "x"))], false).
Proof. reflexivity. Qed.

(* ================================================================== *)
(** * More on objects *)
(* ================================================================== *)

Section MoreObjectFacts.
Context {V : Type}.

Lemma entries_replace (o : obj V) (k : jsstring) (v : V) (e : jsstring * V) :
  In e (obj_replace o k v) -> e = (k, v) \/ In e o.
Proof.
  induction o as [|[k0 v0] o IH]; simpl; [tauto|].
  destruct (str_eqb k0 k) eqn:E; simpl.
  - apply str_eqb_eq in E. subst k0. intros [<-|H]; auto.
  - intros [<-|H]; auto. destruct (IH H); auto.
Qed.

Lemma entries_insertIndex (o : obj V) (n : N) (k : jsstring) (v : V)
  (e : jsstring * V) :
  In e (obj_insertIndex o n k v) -> e = (k, v) \/ In e o.
Proof.
  induction o as [|[k0 v0] o IH]; simpl.
  - intros [<-|[]]. now left.
  - destruct (arrayIndex k0) as [m|].
    + destruct (m <? n)%N; simpl.
      * intros [<-|H]; auto. destruct (IH H); auto.
      * intros [<-|H]; auto.
    + simpl. intros [<-|H]; auto.
Qed.

(** The entries after [o[k] = v] are [(k, v)] and entries of [o]. *)
Lemma entries_set (o : obj V) (k : jsstring) (v : V) (e : jsstring * V) :
  In e (obj_set o k v) -> e = (k, v) \/ In e o.
Proof.
  unfold obj_set. destruct (str_eqb k (js "__proto__")); [auto|].
  destruct (obj_has o k).
  - apply entries_replace.
  - destruct (arrayIndex k).
    + apply entries_insertIndex.
    + rewrite in_app_iff. simpl. intros [H|[<-|[]]]; auto.
Qed.

Lemma keys_insertIndex_incl (o : obj V) (n : N) (k k' : jsstring) (v : V) :
  In k' (keys o) -> In k' (keys (obj_insertIndex o n k v)).
Proof.
  induction o as [|[k0 v0] o IH]; simpl; [tauto|].
  intro H. destruct (arrayIndex k0) as [m|].
  - destruct (m <? n)%N; simpl.
    + destruct H as [H|H]; auto.
    + auto.
  - simpl. auto.
Qed.

(** No key is lost by [o[k] = v]. *)
Lemma keys_set_incl (o : obj V) (k k' : jsstring) (v : V) :
  In k' (keys o) -> In k' (keys (obj_set o k v)).
Proof.
  unfold obj_set. destruct (str_eqb k (js "__proto__")); [auto|].
  destruct (obj_has o k).
  - now rewrite keys_replace.
  - destruct (arrayIndex k).
    + apply keys_insertIndex_incl.
    + unfold keys. rewrite map_app, in_app_iff. auto.
Qed.

Lemma length_replace (o : obj V) (k : jsstring) (v : V) :
  length (obj_replace o k v) = length o.
Proof.
  induction o as [|[k0 v0] o IH]; simpl; [reflexivity|].
  destruct (str_eqb k0 k); simpl; [reflexivity | now rewrite IH].
Qed.

Lemma length_insertIndex (o : obj V) (n : N) (k : jsstring) (v : V) :
  length (obj_insertIndex o n k v) = S (length o).
Proof.
  induction o as [|[k0 v0] o IH]; simpl; [reflexivity|].
  destruct (arrayIndex k0) as [m|]; [|reflexivity].
  destruct (m <? n)%N; simpl; [now rewrite IH | reflexivity].
Qed.

(** [o[k] = v] adds at most one entry and removes none. *)
Lemma length_set (o : obj V) (k : jsstring) (v : V) :
  length o <= length (obj_set o k v) <= S (length o).
Proof.
  unfold obj_set. destruct (str_eqb k (js "__proto__")); [lia|].
  destruct (obj_has o k).
  - rewrite length_replace. lia.
  - destruct (arrayIndex k).
    + rewrite length_insertIndex. lia.
    + rewrite length_app. simpl. lia.
Qed.

(** Reading a key other than [__proto__] after [o[k] = v]. *)
Lemma obj_get_set_other (o : obj V) (k k' : jsstring) (v : V) :
  k' <> js "__proto__" ->
  obj_get (obj_set o k v) k' = if str_eqb k k' then Some v else obj_get o k'.
Proof.
  intro Hk'. destruct (str_eqb k (js "__proto__")) eqn:E.
  - unfold obj_set. rewrite E. apply str_eqb_eq in E. subst k.
    apply not_eq_sym, str_eqb_neq in Hk'. now rewrite Hk'.
  - apply obj_get_set. now apply str_eqb_neq.
Qed.
End MoreObjectFacts.

Lemma find_app {A} (f : A -> bool) (l1 l2 : list A) :
  find f (l1 ++ l2) = match find f l1 with Some x => Some x | None => find f l2 end.
Proof.
  induction l1 as [|x l1 IH]; simpl; [reflexivity|]. now destruct (f x).
Qed.

(* ================================================================== *)
(** * What the parsers store *)
(* ================================================================== *)

Lemma allStrings_set (o : obj jsval) (k s : jsstring) :
  allStrings o -> allStrings (obj_set o k (VStr s)).
Proof.
  intros Ho k' v' Hin. apply entries_set in Hin as [E|Hin].
  - injection E as _ ->. now exists s.
  - now apply (Ho k').
Qed.

Lemma allStrings_nil : allStrings [].
Proof. intros k v []. Qed.

Lemma parseLine_allStrings (data : obj jsval) (line : jsstring) :
  allStrings data -> allStrings (parseLine data line).
Proof.
  intro Hd. unfold parseLine. destruct (str_eqb (trim line) []); [exact Hd|].
  destruct (matchLine (trim line)) as [[g1 g2]|].
  - now apply allStrings_set.
  - destruct (2 <=? length (splitWhitespace (trim line))); now apply allStrings_set.
Qed.

Lemma fold_left_invariant {A B} (P : A -> Prop) (f : A -> B -> A) (l : list B) :
  (forall a b, P a -> P (f a b)) -> forall a, P a -> P (fold_left f l a).
Proof.
  intro Hf. induction l as [|b l IH]; intros a Ha; simpl; [exact Ha|].
  apply IH. now apply Hf.
Qed.

Lemma sheetRow_allStrings (mapping : obj jsval) (row : list jsval) :
  allStrings mapping -> allStrings (sheetRow mapping row).
Proof.
  intro Hm. unfold sheetRow. destruct row as [|c0 rest]; [exact Hm|].
  destruct (notNullish c0); [now apply allStrings_set | exact Hm].
Qed.

Lemma wordRow_allStrings (acc : obj jsval * bool) (row : TableRow) :
  allStrings (fst acc) -> allStrings (fst (wordRow acc row)).
Proof.
  intro Ha. unfold wordRow. destruct (tdCells row) as [|c0 cells]; [exact Ha|].
  destruct (negb (str_eqb (trim (textContent c0)) [])); simpl; [|exact Ha].
  now apply allStrings_set.
Qed.

Lemma wordLine_allStrings (mapping : obj jsval) (line : jsstring) :
  allStrings mapping -> allStrings (wordLine mapping line).
Proof.
  intro Hm. unfold wordLine. destruct (str_eqb (trim line) []); [exact Hm|].
  destruct (splitColonEq (trim line)) as [|p0 rest]; [exact Hm|].
  destruct (negb (str_eqb (trim p0) [])); [now apply allStrings_set | exact Hm].
Qed.

Lemma fillEntry_allStrings (data : obj jsval) (kv : jsstring * jsval) :
  allStrings data -> allStrings (fillEntry data kv).
Proof.
  intro Hd. unfold fillEntry. destruct (snd kv); try exact Hd.
  now apply allStrings_set.
Qed.

(** X1.  Every value that the line parser of the text handler, the
    spreadsheet handler, the word-processor handler and the object arm of
    the JSON handler store in the mapping is a string, so the value of each
    pair shown is the stored string itself. *)
Theorem parsers_store_strings :
  (forall text, allStrings (parseLines [] text))
  /\ (forall jsonData, allStrings (parseSheet jsonData))
  /\ (forall doc, allStrings (parseWord doc))
  /\ (forall props, allStrings (fst (fillFromJson (VObj props))))
  /\ (forall data, allStrings data ->
                   entryStrings data
                   = map (fun kv => (fst kv, match snd kv with
                                             | VStr s => s
                                             | _ => []
                                             end)) data).
Proof.
  repeat split.
  - intro text. unfold parseLines.
    apply fold_left_invariant; [apply parseLine_allStrings | apply allStrings_nil].
  - intro jsonData. unfold parseSheet.
    apply fold_left_invariant; [apply sheetRow_allStrings | apply allStrings_nil].
  - intro doc. unfold parseWord.
    pose proof (fold_left_invariant (fun acc => allStrings (fst acc)) wordRow
                  (doc_rows doc) wordRow_allStrings ([], false) allStrings_nil) as H.
    destruct (fold_left wordRow (doc_rows doc) ([], false)) as [mapping found].
    simpl in H. destruct found; [exact H|].
    apply fold_left_invariant; [apply wordLine_allStrings | exact H].
  - intro props. simpl.
    apply fold_left_invariant; [apply fillEntry_allStrings | apply allStrings_nil].
  - intros data Hd. unfold entryStrings. apply map_ext_in.
    intros [k v] Hin. destruct (Hd k v Hin) as [s ->]. reflexivity.
Qed.

Lemma parsers_store_strings_witness :
  entryStrings [(js "A", VStr (js "1"))] = [(js "A", js "1")].
Proof.
  apply (proj2 (proj2 (proj2 (proj2 parsers_store_strings)))
           [(js "A", VStr (js "1"))]).
  intros k v [H|[]]. exists (js "1"). congruence.
Defined.


(** The array arm of the JSON handler stores the value as it is: a number
    stays a number until the pairs are made. *)
Example fillFromJson_array_number :
  fillFromJson (VArr [VObj [(js "key", VStr (js "n")); (js "value", VNum (ofZ 5))]])
  = ([(js "n", VNum (ofZ 5))], false).
Proof. reflexivity. Qed.

(** X2.  A text that [JSON.parse] refuses never gives an entry with an empty
    key. *)
Theorem parseTextData_fallback_noEmptyKey (rt : Runtime) (text : jsstring) :
  JSON_parse rt text = Thrown -> noEmptyKey (parseTextData rt text).
Proof.
  intro H. unfold parseTextData. rewrite H.
  apply parseLines_noEmptyKey. intros [].
Qed.

Lemma parseTextData_fallback_noEmptyKey_witness :
  JSON_parse rt0 (js " : 1") = Thrown
  /\ noEmptyKey (parseTextData rt0 (js " : 1")).
Proof.
  split; [reflexivity|].
  apply (parseTextData_fallback_noEmptyKey rt0 (js " : 1")). reflexivity.
Defined.

(* ================================================================== *)
(** * More on the substitution *)
(* ================================================================== *)

Lemma mergePair_unstatus (acc : jsstring * nat) (p : KeyValuePair) :
  unstatus (snd (mergePair acc p)) = unstatus p
  /\ status (snd (mergePair acc p)) <> None.
Proof.
  unfold mergePair. destruct acc as [t n].
  destruct (negb (str_eqb (key p) []) && includes (key p) t).
  - destruct (0 <? countMatches (key p) t); now split.
  - now split.
Qed.

Lemma mergePairs_unstatus (acc : jsstring * nat) (ps : list KeyValuePair) :
  map unstatus (snd (mergePairs acc ps)) = map unstatus ps.
Proof.
  revert acc. induction ps as [|p ps IH]; intro acc; simpl; [reflexivity|].
  pose proof (mergePair_unstatus acc p) as [Hu _].
  destruct (mergePair acc p) as [acc1 p']. simpl in Hu.
  specialize (IH acc1). destruct (mergePairs acc1 ps) as [acc2 rest'].
  simpl in *. now rewrite Hu, IH.
Qed.

(** X4.  The plain-text substitution keeps the pairs: as many, in the same
    order, with the same ids, keys and values; and it gives a status to
    every one of them. *)
Theorem mergePairs_keeps_pairs (acc : jsstring * nat) (ps : list KeyValuePair) :
  map unstatus (snd (mergePairs acc ps)) = map unstatus ps
  /\ Forall (fun p => status p <> None) (snd (mergePairs acc ps)).
Proof.
  revert acc. induction ps as [|p ps IH]; intro acc; simpl.
  - split; [reflexivity | constructor].
  - pose proof (mergePair_unstatus acc p) as [Hu Hs].
    destruct (mergePair acc p) as [acc1 p']. simpl in Hu, Hs.
    specialize (IH acc1). destruct (mergePairs acc1 ps) as [acc2 rest'].
    simpl in *. destruct IH as [IH1 IH2]. split.
    + now rewrite Hu, IH1.
    + now constructor.
Qed.

Lemma mergePair_count (t : jsstring) (n : nat) (p : KeyValuePair) :
  (isReplaced (snd (mergePair (t, n) p)) = true
   /\ n < snd (fst (mergePair (t, n) p)))
  \/ (status (snd (mergePair (t, n) p)) = Some not_found
      /\ fst (mergePair (t, n) p) = (t, n)).
Proof.
  unfold mergePair.
  destruct (negb (str_eqb (key p) []) && includes (key p) t); [|now right].
  destruct (0 <? countMatches (key p) t) eqn:E; [|now right].
  left. simpl. apply Nat.ltb_lt in E. split; [reflexivity | lia].
Qed.

(** X5.  The count that the plain-text substitution reports is at least the
    number of pairs marked [replaced].  It is the count it started from
    exactly when every pair is marked [not-found], and then the text is the
    text it started from. *)
Theorem mergePairs_count (t : jsstring) (n : nat) (ps : list KeyValuePair) :
  n + length (filter isReplaced (snd (mergePairs (t, n) ps)))
    <= snd (fst (mergePairs (t, n) ps))
  /\ (snd (fst (mergePairs (t, n) ps)) = n
      <-> Forall (fun p => status p = Some not_found) (snd (mergePairs (t, n) ps)))
  /\ (snd (fst (mergePairs (t, n) ps)) = n -> fst (fst (mergePairs (t, n) ps)) = t).
Proof.
  revert t n. induction ps as [|p ps IH]; intros t n.
  - simpl. repeat split; auto. lia.
  - cbn [mergePairs].
    destruct (mergePair_count t n p) as [[Hr Hlt]|[Hs He]];
      destruct (mergePair (t, n) p) as [[t1 n1] p'] eqn:Hp; simpl in *.
    + specialize (IH t1 n1).
      destruct (mergePairs (t1, n1) ps) as [[t2 n2] rest']. simpl in *.
      destruct IH as (IH1 & IH2 & IH3). rewrite Hr. simpl.
      split; [lia|]. split; [|lia].
      split; [lia|]. intro HF. inversion HF as [|? ? Hp' _]; subst.
      unfold isReplaced in Hr. rewrite Hp' in Hr. discriminate.
    + injection He as -> ->. specialize (IH t n).
      destruct (mergePairs (t, n) ps) as [[t2 n2] rest']. simpl in *.
      destruct IH as (IH1 & IH2 & IH3).
      assert (Hnr : isReplaced p' = false) by (unfold isReplaced; now rewrite Hs).
      rewrite Hnr. split; [exact IH1|]. split; [|exact IH3].
      split.
      * intro E. constructor; [exact Hs | now apply IH2].
      * intro HF. inversion HF; subst. now apply IH2.
Qed.

Lemma mergePairs_count_witness :
  fst (fst (mergePairs (js "Hello", 0) [kv "X" "Y"])) = js "Hello".
Proof.
  apply (proj2 (proj2 (mergePairs_count (js "Hello") 0 [kv "X" "Y"]))).
  reflexivity.
Defined.


Lemma mergePair_ignores_status (acc : jsstring * nat) (p q : KeyValuePair) :
  unstatus p = unstatus q -> mergePair acc p = mergePair acc q.
Proof.
  destruct p as [i k v st], q as [i' k' v' st']. unfold unstatus. simpl.
  intro H. injection H as -> -> ->. reflexivity.
Qed.

(** X6.  A run of the plain-text substitution does not read the statuses
    left by an earlier run: two lists of pairs with the same ids, keys and
    values give the same text, count and statuses. *)
Theorem mergePairs_ignores_old_status (acc : jsstring * nat)
  (ps qs : list KeyValuePair) :
  map unstatus ps = map unstatus qs -> mergePairs acc ps = mergePairs acc qs.
Proof.
  revert acc qs. induction ps as [|p ps IH]; intros acc [|q qs] H;
    try discriminate; [reflexivity|].
  simpl in H.
  assert (Hp : unstatus p = unstatus q) by congruence.
  assert (Hr : map unstatus ps = map unstatus qs) by congruence.
  simpl. rewrite (mergePair_ignores_status acc p q Hp).
  destruct (mergePair acc q) as [acc1 q']. now rewrite (IH acc1 qs Hr).
Qed.

Lemma mergePairs_ignores_old_status_witness :
  map unstatus [withStatus (kv "NAME" "Bob") not_found] = map unstatus [kv "NAME" "Bob"]
  /\ mergePairs (js "Hello NAME", 0) [withStatus (kv "NAME" "Bob") not_found]
     = mergePairs (js "Hello NAME", 0) [kv "NAME" "Bob"].
Proof.
  split; [reflexivity|].
  apply (mergePairs_ignores_old_status (js "Hello NAME", 0)
           [withStatus (kv "NAME" "Bob") not_found] [kv "NAME" "Bob"]).
  reflexivity.
Defined.

Lemma mergeDocx_keeps (rt : Runtime) (fd : StoredFile) (s s1 : Session)
  (log : list LogEntry) (r : result (File * Message)) :
  mergeDocx rt fd s = (s1, log, r) ->
  exists ps, s1 = setKeyValuePairs ps s
             /\ map unstatus ps = map unstatus (keyValuePairs s).
Proof.
  unfold mergeDocx.
  assert (Hid : exists ps, s = setKeyValuePairs ps s
                           /\ map unstatus ps = map unstatus (keyValuePairs s)).
  { exists (keyValuePairs s). split; [now destruct s | reflexivity]. }
  destruct (PizZip rt); [|intro H; now injection H as <- _ _].
  destruct (docxtemplater rt) as [render|]; [|intro H; now injection H as <- _ _].
  destruct (blob_arrayBuffer (sf_content fd)) as [buffer|];
    [|intro H; now injection H as <- _ _].
  destruct (mammoth rt) as [mm|].
  - destruct (extractRawText mm buffer) as [textContent|].
    + destruct (render buffer _); intro H; injection H as <- _ _;
        (eexists; split; [reflexivity | apply unstatus_checkPair]).
    + destruct (render buffer _); intro H; now injection H as <- _ _.
  - destruct (render buffer _); intro H; now injection H as <- _ _.
Qed.

Lemma mergeText_keeps (rt : Runtime) (fd : StoredFile) (s s1 : Session)
  (log : list LogEntry) (r : result (File * Message)) :
  mergeText rt fd s = (s1, log, r) ->
  exists ps, s1 = setKeyValuePairs ps s
             /\ map unstatus ps = map unstatus (keyValuePairs s).
Proof.
  unfold mergeText.
  destruct (blob_text (sf_content fd)) as [content|].
  - pose proof (mergePairs_unstatus (content, 0) (keyValuePairs s)) as Hk.
    destruct (mergePairs (content, 0) (keyValuePairs s)) as [[newContent n] updated].
    simpl in Hk. intro H. injection H as <- _ _. now exists updated.
  - intro H. injection H as <- _ _. exists (keyValuePairs s).
    split; [now destruct s | reflexivity].
Qed.

(** X7.  Whatever its outcome, a call of [handleMerge] keeps the target
    file, the data-file name and the pairs with their ids, keys and values in
    their order.  When the guard returns, nothing changes; otherwise the
    session ends in the success or in the error state, and it holds a result
    document exactly when it ends in the success state. *)
Theorem handleMerge_session (rt : Runtime) (s s' : Session)
  (log : list LogEntry) (o : Outcome) :
  handleMerge rt s = (s', log, o) ->
  fileData s' = fileData s /\ dataFileName s' = dataFileName s
  /\ map unstatus (keyValuePairs s') = map unstatus (keyValuePairs s)
  /\ (o = Skipped -> s' = s /\ log = [])
  /\ (o = Completed -> mergeStatus s' = success /\ resultFile s' <> None)
  /\ (o = Caught -> mergeStatus s' = error /\ resultFile s' = None)
  /\ (o = Skipped <-> fileData s = None \/ keyValuePairs s = []).
Proof.
  unfold handleMerge. intro H.
  destruct (fileData s) as [fd|] eqn:Hfd.
  2:{ injection H as <- <- <-. rewrite Hfd.
      repeat split; try discriminate; auto. }
  destruct (keyValuePairs s) as [|p ps] eqn:Hps.
  { injection H as <- <- <-. rewrite Hfd, Hps.
    repeat split; try discriminate; auto. }
  destruct (if isDocx fd then _ else _) as [[s1 log1] r] eqn:Hb.
  assert (Hk : exists qs,
             s1 = setKeyValuePairs qs (setResultFile None (setMergeStatus processing s))
             /\ map unstatus qs = map unstatus (p :: ps)).
  { destruct (isDocx fd).
    - apply mergeDocx_keeps in Hb. simpl in Hb. now rewrite Hps in Hb.
    - apply mergeText_keeps in Hb. simpl in Hb. now rewrite Hps in Hb. }
  destruct Hk as (qs & -> & Hqs).
  destruct r as [[f msg]|]; injection H as <- _ <-; simpl; rewrite Hfd;
    repeat split; try discriminate; try assumption; try reflexivity.
  - intros [E|E]; discriminate.
  - intros [E|E]; discriminate.
Qed.

Lemma handleMerge_session_witness :
  handleMerge rt0 (sessionOf (textFile "a.txt" "A") [kv "A" "B"])
  = (fst (fst (handleMerge rt0 (sessionOf (textFile "a.txt" "A") [kv "A" "B"]))),
     [], Completed)
  /\ map unstatus (keyValuePairs
       (fst (fst (handleMerge rt0 (sessionOf (textFile "a.txt" "A") [kv "A" "B"])))))
     = map unstatus [kv "A" "B"].
Proof.
  split; [reflexivity|].
  destruct (handleMerge_session rt0 (sessionOf (textFile "a.txt" "A") [kv "A" "B"])
              _ [] Completed eq_refl) as (_ & _ & H & _).
  exact H.
Defined.

Lemma renderData_from (ps : list KeyValuePair) (data : obj jsstring) (k : jsstring) :
  k <> js "__proto__" ->
  obj_get (fold_left (fun d p => obj_set d (handleMerge_cleanKey (key p)) (value p))
                     ps data) k
  = match lastValue k ps with
    | Some v => Some v
    | None => obj_get data k
    end.
Proof.
  intro Hk. unfold lastValue. revert data.
  induction ps as [|p ps IH]; intro data; [reflexivity|].
  cbn [fold_left]. rewrite IH. simpl rev. rewrite find_app.
  destruct (find _ (rev ps)) as [q|]; [reflexivity|].
  simpl. rewrite (obj_get_set_other _ _ _ _ Hk).
  now destruct (str_eqb (handleMerge_cleanKey (key p)) k).
Qed.

(** X8.  The object given to the templater holds, under each key other than
    [__proto__], the value of the last pair whose key, trimmed and stripped
    of a balanced decoration, is that key; it holds nothing under a key that
    no pair has.  So of two pairs [Name] and [$%Name%$] the later one is the
    one rendered. *)
Theorem renderData_last_wins (ps : list KeyValuePair) (k : jsstring) :
  k <> js "__proto__" -> obj_get (renderData ps) k = lastValue k ps.
Proof.
  intro Hk. unfold renderData. rewrite (renderData_from ps [] k Hk).
  now destruct (lastValue k ps).
Qed.

Lemma renderData_last_wins_witness :
  obj_get (renderData [kv "Name" "Ann"; kv "Date" "today"; kv " $%Name%$ " "Bob"])
          (js "Name")
  = Some (js "Bob").
Proof.
  rewrite (renderData_last_wins
             [kv "Name" "Ann"; kv "Date" "today"; kv " $%Name%$ " "Bob"] (js "Name")).
  - reflexivity.
  - discriminate.
Defined.





(** For a key with one side of the decoration the two differ: the check
    looks for [$%Foo%$], the templater is given the key [$%Foo]. *)
Example searchKeyOf_one_sided :
  searchKeyOf (js "$%Foo") = js "$%Foo%$"
  /\ handleMerge_cleanKey (js "$%Foo") = js "$%Foo".
Proof. split; reflexivity. Qed.

(* ================================================================== *)
(** * More on the enrichment and on loading a data file *)
(* ================================================================== *)

(** X10.  The scan of a sheet answers with a record only for a device id
    that is a string and a row that has an identifier column whose cell,
    written as a string and trimmed, is the trimmed device id; the three
    fields are read from that row under the labels of their columns.  For a
    device id that is a string and a sheet whose identifier cells can all
    be written as strings, the scan does not throw; and it answers with no
    record when no row has that identifier. *)
Theorem scanSheet_sound (deviceId : jsval) (json : list (obj jsval)) :
  (forall d,
      scanSheet deviceId json = Ok (Some d) ->
      exists v row idKey,
        deviceId = VStr v /\ In row json
        /\ findKey label_deviceId (keys row) = Some idKey
        /\ trim idKey = label_deviceId
        /\ printable (field row (Some idKey)) = true
        /\ trim (ToString (field row (Some idKey))) = trim v
        /\ d = {| deviceName := field row (findKey label_deviceName (keys row));
                  model := field row (findKey label_model (keys row));
                  manufacturer := field row (findKey label_manufacturer (keys row)) |})
  /\ (forall v, deviceId = VStr v ->
                Forall (fun row => match idCell row with
                                   | Some c => printable c = true
                                   | None => True
                                   end) json ->
                scanSheet deviceId json <> Thrown)
  /\ (forall v, deviceId = VStr v -> Forall (otherRow v) json ->
                scanSheet deviceId json = Ok None).
Proof.
  split; [|split].
  - intros d. induction json as [|row rest IH]; [discriminate|].
    cbn [scanSheet].
    destruct (findKey label_deviceId (keys row)) as [idKey|] eqn:Hk.
    + unfold StringOf.
      destruct (printable (field row (Some idKey))) eqn:Hp; [|discriminate].
      cbn [bind].
      destruct deviceId as [| | | |v| |]; try discriminate.
      cbn [trimVal bind].
      destruct (str_eqb (trim (ToString (field row (Some idKey)))) (trim v)) eqn:E.
      * intro H. injection H as <-. exists v, row, idKey.
        apply str_eqb_eq in E. unfold findKey in Hk.
        pose proof (find_some _ _ Hk) as [_ Hl]. apply str_eqb_eq in Hl.
        repeat split; auto. now left.
      * intro H. destruct (IH H) as (v' & row' & idKey' & Hv & Hin & Hrest).
        exists v', row', idKey'. split; [exact Hv|]. split; [now right | exact Hrest].
    + intro H. destruct (IH H) as (v' & row' & idKey' & Hv & Hin & Hrest).
      exists v', row', idKey'. split; [exact Hv|]. split; [now right | exact Hrest].
  - intros v ->. induction 1 as [|row rest Hrow _ IH]; [discriminate|].
    cbn [scanSheet]. unfold idCell in Hrow.
    destruct (findKey label_deviceId (keys row)) as [idKey|]; [|exact IH].
    cbn [option_map] in Hrow. unfold StringOf. rewrite Hrow.
    cbn [trimVal bind]. now destruct (str_eqb _ (trim v)).
  - intros v ->. induction 1 as [|row rest Hrow _ IH]; [reflexivity|].
    cbn [scanSheet]. unfold otherRow, idCell in Hrow.
    destruct (findKey label_deviceId (keys row)) as [idKey|]; [|exact IH].
    cbn [option_map] in Hrow. destruct Hrow as [Hp Hne].
    unfold StringOf. rewrite Hp.
    cbn [trimVal bind]. apply str_eqb_neq in Hne. now rewrite Hne.
Qed.

Lemma scanSheet_sound_witness :
  scanSheet (VStr (js " D100 ")) deviceSheet = Ok (Some sensorDetails)
  /\ exists v row idKey,
      VStr (js " D100 ") = VStr v /\ In row deviceSheet
      /\ findKey label_deviceId (keys row) = Some idKey
      /\ trim idKey = label_deviceId
      /\ printable (field row (Some idKey)) = true
      /\ trim (ToString (field row (Some idKey))) = trim v
      /\ sensorDetails
         = {| deviceName := field row (findKey label_deviceName (keys row));
              model := field row (findKey label_model (keys row));
              manufacturer := field row (findKey label_manufacturer (keys row)) |}.
Proof.
  split; [reflexivity|].
  apply (proj1 (scanSheet_sound (VStr (js " D100 ")) deviceSheet) sensorDetails).
  reflexivity.
Defined.

Lemma setIfTruthy_get (data : obj jsval) (k k' : jsstring) (v : jsval) :
  k <> js "__proto__" -> k <> k' ->
  obj_get (setIfTruthy data k v) k' = obj_get data k'.
Proof.
  intros Hp Hne. unfold setIfTruthy. destruct (truthy v); [|reflexivity].
  rewrite (obj_get_set _ _ _ _ Hp). apply str_eqb_neq in Hne. now rewrite Hne.
Qed.

Lemma setIfTruthy_keys (data : obj jsval) (k k' : jsstring) (v : jsval) :
  In k' (keys data) -> In k' (keys (setIfTruthy data k v)).
Proof.
  unfold setIfTruthy. destruct (truthy v); [apply keys_set_incl | trivial].
Qed.

Lemma setIfTruthy_length (data : obj jsval) (k : jsstring) (v : jsval) :
  length data <= length (setIfTruthy data k v) <= S (length data).
Proof.
  unfold setIfTruthy. destruct (truthy v); [apply length_set | lia].
Qed.

Lemma applyDetails_get (data : obj jsval) (details : Details) (k : jsstring) :
  ~ In k detailKeys ->
  obj_get (applyDetails data details) k = obj_get data k.
Proof.
  unfold detailKeys. simpl. intro Hk. unfold applyDetails.
  rewrite !setIfTruthy_get; try reflexivity;
    try (vm_compute; discriminate); intro E; apply Hk; auto.
Qed.









(** X11.  The enrichment writes under the three decorated keys only: every
    other key reads as before, no key of the mapping is lost, and at most
    three entries are added.  A mapping without a device-id key, or whose
    device id is empty, is left as it is, without any log. *)
Theorem enrich_only_adds_details (rt : Runtime) (st : Store) (data : obj jsval) :
  (forall k, ~ In k detailKeys ->
             obj_get (fst (enrich rt st data)) k = obj_get data k)
  /\ (forall k, In k (keys data) -> In k (keys (fst (enrich rt st data))))
  /\ length data <= length (fst (enrich rt st data)) <= length data + 3
  /\ (truthy (deviceIdOf data) = false -> enrich rt st data = (data, [])).
Proof.
  unfold enrich. destruct (truthy (deviceIdOf data)).
  - destruct (searchDeviceInStorage rt st (deviceIdOf data)) as [[details|] log];
      cbn [fst].
    + repeat split.
      * intros k Hk. now apply applyDetails_get.
      * intros k Hk. unfold applyDetails. now do 3 apply setIfTruthy_keys.
      * unfold applyDetails.
        pose proof (setIfTruthy_length data (js "$%设备名称%$") (deviceName details)).
        pose proof (setIfTruthy_length
                      (setIfTruthy data (js "$%设备名称%$") (deviceName details))
                      (js "$%型号%$") (model details)).
        pose proof (setIfTruthy_length
                      (setIfTruthy
                         (setIfTruthy data (js "$%设备名称%$") (deviceName details))
                         (js "$%型号%$") (model details))
                      (js "$%厂家%$") (manufacturer details)).
        lia.
      * unfold applyDetails.
        pose proof (setIfTruthy_length data (js "$%设备名称%$") (deviceName details)).
        pose proof (setIfTruthy_length
                      (setIfTruthy data (js "$%设备名称%$") (deviceName details))
                      (js "$%型号%$") (model details)).
        pose proof (setIfTruthy_length
                      (setIfTruthy
                         (setIfTruthy data (js "$%设备名称%$") (deviceName details))
                         (js "$%型号%$") (model details))
                      (js "$%厂家%$") (manufacturer details)).
        lia.
      * discriminate.
    + repeat split; auto; try lia; discriminate.
  - cbn [fst]. repeat split; auto; lia.
Qed.

Lemma enrich_only_adds_details_witness :
  enrich rt0 (storeOf [])  [(js "A", VStr (js "1"))]
  = ([(js "A", VStr (js "1"))], []).
Proof.
  apply (proj2 (proj2 (proj2 (enrich_only_adds_details rt0 (storeOf [])
                                [(js "A", VStr (js "1"))])))).
  reflexivity.
Defined.







Lemma handleError_state (msg : string) (s : Session) :
  mergeStatus (handleError msg s) = error
  /\ keyValuePairs (handleError msg s) = []
  /\ dataFileName (handleError msg s) = dataFileName s
  /\ resultFile (handleError msg s) = resultFile s
  /\ fileData (handleError msg s) = fileData s.
Proof. repeat split. Qed.

Lemma processData_loaded_state (rt : Runtime) (st : Store) (data : obj jsval)
  (s : Session) :
  let s' := fst (processData rt st data s) in
  dataFileName s' = dataFileName s /\ resultFile s' = resultFile s
  /\ fileData s' = fileData s
  /\ (mergeStatus s' = idle /\ keyValuePairs s' <> []
      \/ mergeStatus s' = error /\ keyValuePairs s' = []).
Proof.
  intro s'. subst s'. unfold processData.
  destruct (enrich rt st data) as [data' log].
  destruct (makePairs rt _ data') as [|p ps] eqn:Hm; cbn [fst].
  - simpl. do 3 (split; [now destruct (truthy (deviceIdOf data))|]).
    right. now split.
  - simpl. do 3 (split; [now destruct (truthy (deviceIdOf data))|]).
    left. split; [reflexivity | discriminate].
Qed.

(** X13.  After [parseAndLoadDataFile] the name of the data file is the
    name given, and the target file and the result of an earlier run are as
    before.  The session is never in the success state: it is idle with at
    least one pair, or in the error state without pairs, or still in the
    processing state with the pairs it had (when the file could not be
    read). *)
Theorem parseAndLoadDataFile_state (rt : Runtime) (st : Store) (blob : Blob)
  (fileName : jsstring) (s : Session) :
  let s' := fst (parseAndLoadDataFile rt st blob fileName s) in
  dataFileName s' = Some fileName
  /\ resultFile s' = resultFile s /\ fileData s' = fileData s
  /\ (mergeStatus s' = idle /\ keyValuePairs s' <> []
      \/ mergeStatus s' = error /\ keyValuePairs s' = []
      \/ mergeStatus s' = processing /\ keyValuePairs s' = keyValuePairs s).
Proof.
  intro s'. subst s'. unfold parseAndLoadDataFile.
  set (s0 := setMergeMessage MsgParsing
               (setMergeStatus processing (setDataFileName (Some fileName) s))).
  assert (Hproc : forall data,
             let s' := fst (processData rt st data s0) in
             dataFileName s' = Some fileName
             /\ resultFile s' = resultFile s /\ fileData s' = fileData s
             /\ (mergeStatus s' = idle /\ keyValuePairs s' <> []
                 \/ mergeStatus s' = error /\ keyValuePairs s' = []
                 \/ mergeStatus s' = processing /\ keyValuePairs s' = keyValuePairs s)).
  { intros data s'. subst s'.
    destruct (processData_loaded_state rt st data s0) as (H1 & H2 & H3 & [H4|H4]);
      rewrite H1, H2, H3; repeat split; tauto. }
  assert (Herr : forall msg,
             dataFileName (handleError msg s0) = Some fileName
             /\ resultFile (handleError msg s0) = resultFile s
             /\ fileData (handleError msg s0) = fileData s
             /\ (mergeStatus (handleError msg s0) = idle
                 /\ keyValuePairs (handleError msg s0) <> []
                 \/ mergeStatus (handleError msg s0) = error
                    /\ keyValuePairs (handleError msg s0) = []
                 \/ mergeStatus (handleError msg s0) = processing
                    /\ keyValuePairs (handleError msg s0) = keyValuePairs s)).
  { intro msg. repeat split. right. left. now split. }
  assert (Hwait : dataFileName s0 = Some fileName
                  /\ resultFile s0 = resultFile s /\ fileData s0 = fileData s
                  /\ (mergeStatus s0 = idle /\ keyValuePairs s0 <> []
                      \/ mergeStatus s0 = error /\ keyValuePairs s0 = []
                      \/ mergeStatus s0 = processing
                         /\ keyValuePairs s0 = keyValuePairs s)).
  { repeat split. right. right. now split. }
  destruct (hasExt [".json"; ".txt"; ".csv"]%string fileName).
  { destruct (blob_text blob); [apply Hproc | exact Hwait]. }
  destruct (hasExt [".xlsx"; ".xls"]%string fileName).
  { destruct (XLSX rt) as [xlsx|]; [|apply Herr].
    destruct (blob_arrayBuffer blob) as [buffer|]; [|exact Hwait].
    destruct (sheet_rows xlsx buffer); [apply Hproc | apply Herr]. }
  destruct (hasExt [".docx"; ".doc"]%string fileName).
  { destruct (mammoth rt) as [mm|]; [|apply Herr].
    destruct (blob_arrayBuffer blob) as [buffer|]; [|exact Hwait].
    destruct (convertToHtml mm buffer); [apply Hproc | apply Herr]. }
  apply Herr.
Qed.

(* ================================================================== *)
(** * Editing the pairs *)
(* ================================================================== *)

(** X14.  A blank pair added with a fresh id and then removed leaves the
    list of pairs as it was; without the removal the list has one more
    pair, at its end, with an empty key, an empty value and no status. *)
Theorem removePair_addPair (rt : Runtime) (s : Session) :
  (forall p, In p (keyValuePairs s) -> id p <> randomUUID rt (uuidsDrawn s)) ->
  keyValuePairs (removePair (randomUUID rt (uuidsDrawn s)) (addPair rt s))
  = keyValuePairs s
  /\ keyValuePairs (addPair rt s)
     = keyValuePairs s
       ++ [{| id := randomUUID rt (uuidsDrawn s); key := []; value := [];
              status := None |}].
Proof.
  intro Hfresh. split; [|reflexivity].
  unfold removePair, addPair. simpl. rewrite filter_app. simpl.
  rewrite str_eqb_refl. simpl. rewrite app_nil_r.
  apply forallb_filter_id. apply forallb_forall. intros p Hin.
  apply negb_true_iff, str_eqb_neq. now apply Hfresh.
Qed.

Lemma removePair_addPair_witness :
  keyValuePairs
    (removePair (randomUUID rt0 0) (addPair rt0 (sessionOf goodSheet [kv "A" "B"])))
  = [kv "A" "B"].
Proof.
  apply (proj1 (removePair_addPair rt0 (sessionOf goodSheet [kv "A" "B"])
                  ltac:(intros p [<-|[]]; discriminate))).
Defined.

(* ================================================================== *)
(** * The categories and the file list of the main view *)
(* ================================================================== *)

(** Trimming a trimmed string changes nothing. *)
Lemma trim_idem (s : jsstring) : trim (trim s) = trim s.
Proof.
  destruct (trim s) as [|c r] eqn:Ht; [reflexivity|].
  pose proof (trim_head _ _ _ Ht) as Hc.
  unfold trim, trimEnd in Ht.
  destruct (trimStart (rev (trimStart s))) as [|d u'] eqn:Hu; [discriminate|].
  pose proof (trimStart_head _ _ _ Hu) as Hd.
  simpl rev in Ht. destruct (rev u') as [|c' m] eqn:Er.
  - simpl in Ht. injection Ht as <- <-. now apply trim_single.
  - simpl in Ht. injection Ht as <- <-. now apply trim_nonws_ends.
Qed.

Lemma handleAddCategory_cases (customCategories : list jsstring) (name : jsstring) :
  (handleAddCategory customCategories name = customCategories ++ [trim name]
   /\ ~ In (trim name) customCategories /\ reservedName (trim name) = false)
  \/ (handleAddCategory customCategories name = customCategories
      /\ (In (trim name) customCategories \/ reservedName (trim name) = true)).
Proof.
  unfold handleAddCategory, reservedName.
  destruct (arrayIncludes customCategories (trim name)) eqn:Hi.
  - right. split; [reflexivity|]. left. now apply arrayIncludes_In.
  - assert (Hn : ~ In (trim name) customCategories).
    { intro H. apply arrayIncludes_In in H. congruence. }
    destruct (str_eqb (toUpperCase (trim name)) (js "IMAGES"));
      [right; split; [reflexivity | now right]|].
    destruct (str_eqb (toUpperCase (trim name)) (js "DOCUMENTS"));
      [right; split; [reflexivity | now right]|].
    destruct (str_eqb (toUpperCase (trim name)) (js "DEVICE TYPE"));
      [right; split; [reflexivity | now right]|].
    left. now repeat split.
Qed.

(** X15.  [handleAddCategory] keeps the list free of duplicates and of
    reserved names, keeps every category that was there, in its place, and
    can only add the trimmed name, at the end. *)
Theorem handleAddCategory_invariant (customCategories : list jsstring)
  (name : jsstring) :
  (NoDup customCategories -> NoDup (handleAddCategory customCategories name))
  /\ (Forall (fun c => reservedName c = false) customCategories ->
      Forall (fun c => reservedName c = false)
             (handleAddCategory customCategories name))
  /\ (handleAddCategory customCategories name = customCategories
      \/ handleAddCategory customCategories name = customCategories ++ [trim name]).
Proof.
  destruct (handleAddCategory_cases customCategories name)
    as [(-> & Hn & Hr)|(-> & _)].
  - repeat split.
    + intro Hd. apply NoDup_app; [exact Hd | repeat constructor; intros [] | ].
      intros c Hc [<-|[]]. contradiction.
    + intro Hf. apply Forall_app. split; [exact Hf | now repeat constructor].
    + now right.
  - repeat split; auto.
Qed.

Lemma handleAddCategory_invariant_witness :
  NoDup [js "Pumps"; js "Valves"]
  /\ NoDup (handleAddCategory [js "Pumps"; js "Valves"] (js " Pumps ")).
Proof.
  assert (H : NoDup [js "Pumps"; js "Valves"]).
  { repeat constructor; simpl; intuition discriminate. }
  split; [exact H|].
  apply (proj1 (handleAddCategory_invariant [js "Pumps"; js "Valves"] (js " Pumps "))).
  exact H.
Defined.

Lemma filter_neq_id (l : list jsstring) (x : jsstring) :
  ~ In x l -> filter (fun c => negb (str_eqb c x)) l = l.
Proof.
  intro H. apply forallb_filter_id. apply forallb_forall. intros c Hc.
  apply negb_true_iff, str_eqb_neq. intros ->. contradiction.
Qed.

(** X16.  Deleting a category removes it from the list and keeps the others
    in their order: a list in which it stands once, between [before] and
    [after], becomes [before] followed by [after].  The filter is set back
    to [ALL] exactly when the deleted category was the filter.  Deleting a
    name right after adding it gives back the list as it was before, when
    that name, trimmed, was not in it. *)
Theorem handleDeleteCategory_spec (customCategories : list jsstring)
  (filterType c : jsstring) :
  ~ In c (fst (handleDeleteCategory customCategories filterType c))
  /\ (forall d, d <> c ->
        (In d (fst (handleDeleteCategory customCategories filterType c))
         <-> In d customCategories))
  /\ (filterType = c -> snd (handleDeleteCategory customCategories filterType c) = js "ALL")
  /\ (filterType <> c -> snd (handleDeleteCategory customCategories filterType c) = filterType)
  /\ (forall name, ~ In (trim name) customCategories ->
        fst (handleDeleteCategory (handleAddCategory customCategories name)
               filterType (trim name))
        = customCategories)
  /\ (forall before after,
        customCategories = before ++ c :: after ->
        ~ In c before -> ~ In c after ->
        fst (handleDeleteCategory customCategories filterType c) = before ++ after).
Proof.
  unfold handleDeleteCategory. cbn [fst snd].
  split; [|split; [|split; [|split; [|split]]]].
  - intro H. apply filter_In in H as [_ H]. now rewrite str_eqb_refl in H.
  - intros d Hd. split.
    + intro H. now apply filter_In in H as [H _].
    + intro H. apply filter_In. split; [exact H|].
      now apply negb_true_iff, str_eqb_neq.
  - intros ->. now rewrite str_eqb_refl.
  - intro H. apply str_eqb_neq in H. now rewrite H.
  - intros name Hn.
    destruct (handleAddCategory_cases customCategories name)
      as [(-> & _ & _)|(-> & _)].
    + rewrite filter_app. simpl. rewrite str_eqb_refl. simpl.
      rewrite app_nil_r. now apply filter_neq_id.
    + now apply filter_neq_id.
  - intros before after -> Hb Ha. rewrite filter_app. cbn [filter].
    rewrite str_eqb_refl. cbn [negb].
    now rewrite (filter_neq_id _ _ Hb), (filter_neq_id _ _ Ha).
Qed.

Lemma handleDeleteCategory_spec_witness :
  fst (handleDeleteCategory (handleAddCategory [js "Pumps"] (js " Valves "))
         (js "Valves") (trim (js " Valves ")))
  = [js "Pumps"]
  /\ fst (handleDeleteCategory [js "Pumps"; js "Valves"; js "Motors"]
            (js "ALL") (js "Valves"))
     = [js "Pumps"; js "Motors"].
Proof.
  split.
  - apply (proj1 (proj2 (proj2 (proj2 (proj2
             (handleDeleteCategory_spec [js "Pumps"] (js "Valves") (js "Valves"))))))
             (js " Valves ")).
    simpl. intuition discriminate.
  - apply (proj2 (proj2 (proj2 (proj2 (proj2
             (handleDeleteCategory_spec [js "Pumps"; js "Valves"; js "Motors"]
                (js "ALL") (js "Valves"))))))
             [js "Pumps"] [js "Motors"]).
    + reflexivity.
    + simpl. intuition discriminate.
    + simpl. intuition discriminate.
Defined.

(** X17.  Through the modal a blank name adds nothing and leaves the modal
    open; any other name has the effect of [handleAddCategory] on it.  So
    the modal keeps the categories non-empty and trimmed. *)
Theorem handleSubmit_spec (customCategories : list jsstring) (name : jsstring) :
  (trim name = [] -> handleSubmit customCategories name = (customCategories, false))
  /\ (trim name <> [] ->
      handleSubmit customCategories name
      = (handleAddCategory customCategories name, true))
  /\ (Forall cleanName customCategories ->
      Forall cleanName (fst (handleSubmit customCategories name))).
Proof.
  unfold handleSubmit. destruct (str_eqb (trim name) []) eqn:E.
  - apply str_eqb_eq in E. repeat split; auto. intro H. contradiction.
  - apply str_eqb_neq in E. split; [intro H; contradiction|].
    assert (Hsame : handleAddCategory customCategories (trim name)
                    = handleAddCategory customCategories name).
    { unfold handleAddCategory. now rewrite trim_idem. }
    simpl. rewrite Hsame. split; [reflexivity|].
    intro Hf.
    destruct (handleAddCategory_cases customCategories name)
      as [(-> & _ & _)|(-> & _)]; [|exact Hf].
    apply Forall_app. split; [exact Hf|]. repeat constructor; [exact E|].
    apply trim_idem.
Qed.

Lemma handleSubmit_spec_witness :
  trim (js "   ") = []
  /\ handleSubmit [js "Pumps"] (js "   ") = ([js "Pumps"], false).
Proof.
  split; [reflexivity|].
  apply (proj1 (handleSubmit_spec [js "Pumps"] (js "   "))). reflexivity.
Defined.

(** Without the modal, [handleAddCategory] adds the empty name. *)
Example handleAddCategory_blank :
  handleAddCategory [js "Pumps"] (js "   ") = [js "Pumps"; []].
Proof. reflexivity. Qed.

Lemma splitOn_aux_none (c : N) (cur s : jsstring) :
  ~ In c s -> splitOn_aux c cur s = [rev cur ++ s].
Proof.
  revert cur. induction s as [|x s IH]; intros cur H; simpl.
  - now rewrite app_nil_r.
  - destruct (x =? c)%N eqn:E.
    + apply N.eqb_eq in E. subst x. exfalso. apply H. now left.
    + rewrite IH by (intro Hin; apply H; now right).
      simpl. now rewrite <- app_assoc.
Qed.

Lemma splitOn_aux_last (c : N) (cur stem ext : jsstring) :
  ~ In c ext ->
  last (splitOn_aux c cur (stem ++ c :: ext)) [] = ext
  /\ 2 <= length (splitOn_aux c cur (stem ++ c :: ext)).
Proof.
  intro H. revert cur. induction stem as [|x stem IH]; intro cur.
  - cbn [app splitOn_aux]. rewrite N.eqb_refl, (splitOn_aux_none c [] ext H).
    simpl. split; [reflexivity | lia].
  - cbn [app splitOn_aux]. destruct (x =? c)%N.
    + destruct (IH []) as [Hl Hn]. split; [|simpl; lia].
      destruct (splitOn_aux c [] (stem ++ c :: ext)) as [|y l] eqn:E;
        [simpl in Hn; lia|].
      exact Hl.
    + apply IH.
Qed.

Lemma slice_prefix (s : jsstring) (n : nat) :
  slice s 0 (Z.of_nat n) = firstn n s.
Proof.
  unfold slice, clampIndex. simpl (0 <? 0)%Z. cbv iota.
  replace (Z.of_nat n <? 0)%Z with false by (symmetry; apply Z.ltb_ge; lia).
  replace (Z.min 0 (Z.of_nat (length s))) with 0%Z by lia.
  simpl skipn. rewrite Z.sub_0_r.
  destruct (Nat.le_ge_cases n (length s)) as [Hle|Hge].
  - now replace (Z.to_nat (Z.min (Z.of_nat n) (Z.of_nat (length s)))) with n by lia.
  - replace (Z.to_nat (Z.min (Z.of_nat n) (Z.of_nat (length s)))) with (length s)
      by lia.
    now rewrite firstn_all, firstn_all2.
Qed.

Lemma upperUnit_dot (x : N) : upperUnit x = 46%N -> x = 46%N.
Proof.
  unfold upperUnit.
  destruct (N.leb_spec 97 x), (N.leb_spec x 122); simpl; lia.
Qed.

Lemma codeUnitsOf_dot (cp : N) : In 46%N (codeUnitsOf cp) -> cp = 46%N.
Proof.
  unfold codeUnitsOf. destruct (cp <? 0x10000)%N.
  - intros [H|[]]. now symmetry.
  - intros [H|[H|[]]]; exfalso; revert H.
    + generalize ((cp - 0x10000) / 1024)%N. intros n H. lia.
    + generalize ((cp - 0x10000) mod 1024)%N. intros n H. lia.
Qed.

Lemma fromCodePoints_dot (cps : list N) :
  In 46%N (fromCodePoints cps) -> In 46%N cps.
Proof.
  unfold fromCodePoints. intro H. apply in_flat_map in H as (cp & Hin & Hd).
  apply codeUnitsOf_dot in Hd. now subst cp.
Qed.

Lemma inSpecial_In (special : list (N * list N)) (cp : N) (l : list N) :
  inSpecial special cp = Some l -> In (cp, l) special.
Proof.
  induction special as [|[a l'] rest IH]; simpl; [discriminate|].
  destruct (cp <? a)%N; [discriminate|].
  destruct (N.eqb_spec cp a) as [->|_].
  - intro H. injection H as ->. now left.
  - intro H. right. now apply IH.
Qed.

Lemma inRuns_In (runs : list (N * N * N * Z)) (cp c : N) :
  inRuns runs cp = Some c ->
  exists a b stride delta,
    In (a, b, stride, delta) runs /\ (a <= cp)%N
    /\ c = Z.to_N (Z.of_N cp + delta).
Proof.
  induction runs as [|[[[a b] stride] delta] rest IH]; simpl; [discriminate|].
  destruct (N.ltb_spec cp a) as [|Ha]; [discriminate|].
  destruct ((cp <=? b) && ((cp - a) mod stride =? 0))%N.
  - intro H. injection H as <-. exists a, b, stride, delta. now repeat split; auto.
  - intro H. destruct (IH H) as (a' & b' & s' & d' & Hin & Hle & Hc).
    exists a', b', s', d'. now repeat split; auto.
Qed.

(** No code point but the dot itself has a dot in its upper-case mapping. *)
Lemma upperCodePoint_dot (cp : N) : In 46%N (upperCodePoint cp) -> cp = 46%N.
Proof.
  unfold upperCodePoint. destruct (N.ltb_spec cp 128) as [Hc|Hc].
  - intros [H|[]]. now apply upperUnit_dot.
  - unfold caseMapping.
    destruct (inSpecial upperSpecial cp) as [l|] eqn:Es.
    + apply inSpecial_In in Es. intro Hin.
      assert (Hall : forallb (fun e => negb (existsb (N.eqb 46) (snd e)))
                       upperSpecial = true) by (vm_compute; reflexivity).
      pose proof (proj1 (forallb_forall _ _) Hall _ Es) as Hl. simpl in Hl.
      apply negb_true_iff in Hl. exfalso.
      assert (Hex : existsb (N.eqb 46) l = true).
      { apply existsb_exists. exists 46%N. split; [exact Hin | apply N.eqb_refl]. }
      congruence.
    + destruct (inRuns upperRuns cp) as [c|] eqn:Er.
      * apply inRuns_In in Er as (a & b & stride & delta & Hin & Hle & ->).
        assert (Hall : forallb (fun r => match r with
                                         | (a, _, _, delta) =>
                                             (46 <? Z.of_N a + delta)%Z
                                         end) upperRuns = true)
          by (vm_compute; reflexivity).
        pose proof (proj1 (forallb_forall _ _) Hall _ Hin) as Hr. simpl in Hr.
        apply Z.ltb_lt in Hr. intros [H|[]]. lia.
      * intros [H|[]]. lia.
Qed.

Lemma codePoints_dot_le (n : nat) (s : jsstring) :
  length s <= n -> In 46%N (codePoints s) -> In 46%N s.
Proof.
  revert s. induction n as [|n IH]; intros s Hl.
  - destruct s; [intros [] | simpl in Hl; lia].
  - destruct s as [|c r]; [intros []|]. cbn [codePoints].
    simpl in Hl.
    destruct (isLeadSurrogate c) eqn:Ec.
    + destruct r as [|d r'].
      * intros [H|[]]. now left.
      * destruct (isTrailSurrogate d) eqn:Ed.
        -- unfold isLeadSurrogate in Ec. unfold isTrailSurrogate in Ed.
           apply andb_true_iff in Ec as [Ec1 Ec2].
           apply andb_true_iff in Ed as [Ed1 Ed2].
           apply N.leb_le in Ec1, Ec2, Ed1, Ed2.
           intros [H|H]; [lia|].
           right. right. apply IH; [simpl in Hl; lia | exact H].
        -- intros [H|H]; [now left|]. right. apply IH; [lia | exact H].
    + intros [H|H]; [now left|]. right. apply IH; [lia | exact H].
Qed.

Lemma toUpperCase_dot (s : jsstring) : In 46%N (toUpperCase s) -> In 46%N s.
Proof.
  unfold toUpperCase. intro H. apply fromCodePoints_dot in H.
  apply in_flat_map in H as (cp & Hin & Hd).
  apply upperCodePoint_dot in Hd. subst cp.
  now apply (codePoints_dot_le (length s)).
Qed.

(** X18.  The extension shown for a file is empty when the name has no dot.
    Otherwise it is made of the characters after the last dot, in upper
    case, cut after the fifth; it never has more than five characters and
    never holds a dot. *)
Theorem getFileExtension_spec :
  (forall filename, ~ In 46%N filename -> getFileExtension filename = [])
  /\ (forall stem ext,
         ~ In 46%N ext ->
         getFileExtension (stem ++ 46%N :: ext) = firstn 5 (toUpperCase ext))
  /\ (forall filename,
         length (getFileExtension filename) <= 5
         /\ ~ In 46%N (getFileExtension filename)).
Proof.
  assert (H2 : forall stem ext,
             ~ In 46%N ext ->
             getFileExtension (stem ++ 46%N :: ext) = firstn 5 (toUpperCase ext)).
  { intros stem ext H. unfold getFileExtension, splitOn.
    destruct (splitOn_aux_last 46 [] stem ext H) as [Hl Hn]. rewrite Hl.
    replace (1 <? length (splitOn_aux 46 [] (stem ++ 46%N :: ext))) with true
      by (symmetry; apply Nat.ltb_lt; lia).
    apply (slice_prefix _ 5). }
  assert (H1 : forall filename, ~ In 46%N filename -> getFileExtension filename = []).
  { intros filename H. unfold getFileExtension, splitOn.
    now rewrite (splitOn_aux_none 46 [] filename H). }
  split; [exact H1|]. split; [exact H2|].
  intro filename.
  assert (Hcases : ~ In 46%N filename
                   \/ exists stem ext, filename = stem ++ 46%N :: ext /\ ~ In 46%N ext).
  { induction filename as [|x l IH]; [left; intros []|].
    destruct IH as [Hn|(stem & ext & -> & Hn)].
    - destruct (N.eq_dec x 46) as [->|Hx].
      + right. now exists [], l.
      + left. intros [E|E]; [congruence | contradiction].
    - right. now exists (x :: stem), ext. }
  destruct Hcases as [Hn|(stem & ext & -> & Hn)].
  - rewrite (H1 _ Hn). split; [simpl; lia | intros []].
  - rewrite (H2 _ _ Hn). split.
    + rewrite length_firstn. lia.
    + intro Hin. apply Hn.
      assert (Hu : In 46%N (toUpperCase ext)).
      { rewrite <- (firstn_skipn 5 (toUpperCase ext)), in_app_iff. now left. }
      now apply toUpperCase_dot.
Qed.

Lemma getFileExtension_spec_witness :
  getFileExtension (js "archive.tar.jpeg2000") = js "JPEG2"
  /\ getFileExtension (js "plan.straße") = js "STRAS".
Proof.
  split.
  - change (js "archive.tar.jpeg2000")
      with (js "archive.tar" ++ 46%N :: js "jpeg2000").
    rewrite (proj1 (proj2 getFileExtension_spec) (js "archive.tar") (js "jpeg2000")).
    + reflexivity.
    + simpl. intuition discriminate.
  - change (js "plan.straße") with (js "plan" ++ 46%N :: js "straße").
    rewrite (proj1 (proj2 getFileExtension_spec) (js "plan") (js "straße")).
    + reflexivity.
    + simpl. intuition discriminate.
Defined.

Lemma includes_nil (s : jsstring) : includes [] s = true.
Proof. now destruct s. Qed.

(** X19.  In the file list, with an empty search and the filter [ALL] every
    file is shown.  A file that is shown always matches the search, by its
    name or by one of its tags.  Under a filter that is not one of the five
    built-in names, a file whose category is the filter is shown as soon as
    it matches the search. *)
Theorem filteredFiles_spec :
  (forall files, filteredFiles [] (js "ALL") files = files)
  /\ (forall searchQuery filterType files file,
         In file (filteredFiles searchQuery filterType files) ->
         In file files
         /\ (includes (toLowerCase searchQuery) (toLowerCase (fm_name file)) = true
             \/ someTag (toLowerCase searchQuery) file = true))
  /\ (forall searchQuery filterType files file,
         In file files ->
         builtinFilter filterType = false ->
         fm_category file = Some filterType ->
         includes (toLowerCase searchQuery) (toLowerCase (fm_name file)) = true ->
         In file (filteredFiles searchQuery filterType files)).
Proof.
  split; [|split].
  - intro files. unfold filteredFiles. apply forallb_filter_id.
    apply forallb_forall. intros f _. unfold isShown.
    change (toLowerCase []) with (@nil N). now rewrite includes_nil.
  - intros q ft files file H. unfold filteredFiles in H.
    apply filter_In in H as [Hin Hs]. split; [exact Hin|].
    unfold isShown in Hs.
    destruct (includes (toLowerCase q) (toLowerCase (fm_name file))); [now left|].
    destruct (someTag (toLowerCase q) file); [now right | discriminate].
  - intros q ft files file Hin Hb Hc Hq. unfold filteredFiles.
    apply filter_In. split; [exact Hin|]. unfold isShown. rewrite Hq, Hc.
    unfold builtinFilter in Hb. simpl in Hb.
    repeat (apply orb_false_iff in Hb as [?H Hb]).
    simpl. rewrite H, H0, H1, H2, H3. now rewrite str_eqb_refl.
Qed.

Lemma filteredFiles_spec_witness :
  In (metaNamed "f1" "Étude des pompes.pdf" 5 (Some (js "Pumps")))
     (filteredFiles (js "éTUDE") (js "Pumps")
        [metaNamed "f0" "notes.txt" 7 None;
         metaNamed "f1" "Étude des pompes.pdf" 5 (Some (js "Pumps"))]).
Proof.
  apply (proj2 (proj2 filteredFiles_spec)).
  - simpl. right. left. reflexivity.
  - reflexivity.
  - reflexivity.
  - reflexivity.
Defined.

(* ================================================================== *)
(** * The blob store *)
(* ================================================================== *)

Lemma key_ltb_irrefl (a : jsstring) : key_ltb a a = false.
Proof.
  induction a as [|x a IH]; simpl; [reflexivity|].
  now rewrite N.ltb_irrefl, N.eqb_refl, IH.
Qed.

Lemma key_ltb_trans (a b c : jsstring) :
  key_ltb a b = true -> key_ltb b c = true -> key_ltb a c = true.
Proof.
  revert b c. induction a as [|x a IH]; intros [|y b] [|z c]; simpl;
    try discriminate; try reflexivity.
  intros H1 H2.
  apply orb_true_iff in H1 as [H1|H1]; apply orb_true_iff in H2 as [H2|H2];
    apply orb_true_iff.
  - left. apply N.ltb_lt in H1, H2. apply N.ltb_lt. lia.
  - apply andb_true_iff in H2 as [H2 _]. apply N.eqb_eq in H2. subst z.
    now left.
  - apply andb_true_iff in H1 as [H1 _]. apply N.eqb_eq in H1. subst y.
    now left.
  - apply andb_true_iff in H1 as [H1 H1']. apply andb_true_iff in H2 as [H2 H2'].
    apply N.eqb_eq in H1, H2. subst y z. right.
    rewrite N.eqb_refl. simpl. now apply (IH b c).
Qed.

Lemma key_ltb_total (a b : jsstring) :
  key_ltb a b = false -> str_eqb b a = false -> key_ltb b a = true.
Proof.
  revert b. induction a as [|x a IH]; intros [|y b]; simpl;
    try discriminate; try reflexivity.
  intros H1 H2. apply orb_false_iff in H1 as [H1 H1'].
  apply N.ltb_ge in H1.
  destruct (N.eqb_spec y x) as [E|E].
  - subst y. rewrite N.eqb_refl in H1'. simpl in H1', H2.
    rewrite N.ltb_irrefl. simpl. now apply IH.
  - assert (Hlt : (y <? x)%N = true) by (apply N.ltb_lt; lia).
    now rewrite Hlt.
Qed.

Lemma db_get_some (db : DB) (i : jsstring) (r : FileRecord) :
  db_get db i = Some r -> In r db /\ rec_id r = i.
Proof.
  unfold db_get. intro H. apply find_some in H as [Hin He].
  split; [exact Hin | now apply str_eqb_eq].
Qed.

Lemma db_get_none (db : DB) (i : jsstring) :
  db_get db i = None <-> (forall r, In r db -> rec_id r <> i).
Proof.
  unfold db_get. split.
  - intros H r Hin E. pose proof (find_none _ _ H r Hin) as Hf. simpl in Hf.
    rewrite E, str_eqb_refl in Hf. discriminate.
  - intro H. induction db as [|x db IH]; simpl; [reflexivity|].
    destruct (str_eqb (rec_id x) i) eqn:E.
    + apply str_eqb_eq in E. exfalso. apply (H x); [now left | exact E].
    + apply IH. intros r Hr. apply H. now right.
Qed.

Lemma db_put_get (r : FileRecord) (db : DB) :
  db_get (db_put r db) (rec_id r) = Some r.
Proof.
  unfold db_get. induction db as [|x db IH]; simpl.
  - now rewrite str_eqb_refl.
  - destruct (str_eqb (rec_id x) (rec_id r)) eqn:E.
    + simpl. now rewrite str_eqb_refl.
    + destruct (key_ltb (rec_id r) (rec_id x)); simpl.
      * now rewrite str_eqb_refl.
      * now rewrite E.
Qed.

Lemma db_put_get_other (r : FileRecord) (db : DB) (j : jsstring) :
  j <> rec_id r -> db_get (db_put r db) j = db_get db j.
Proof.
  intro Hj. assert (Hr : str_eqb (rec_id r) j = false)
    by (apply str_eqb_neq; congruence).
  unfold db_get. induction db as [|x db IH]; simpl.
  - now rewrite Hr.
  - destruct (str_eqb (rec_id x) (rec_id r)) eqn:E.
    + apply str_eqb_eq in E. simpl. now rewrite Hr, E, Hr.
    + destruct (key_ltb (rec_id r) (rec_id x)); simpl.
      * now rewrite Hr.
      * now rewrite IH.
Qed.

Lemma db_put_in (r : FileRecord) (db : DB) (y : FileRecord) :
  In y (db_put r db) -> y = r \/ In y db.
Proof.
  induction db as [|x db IH]; simpl.
  - intros [H|[]]. now left.
  - destruct (str_eqb (rec_id x) (rec_id r)).
    + intros [H|H]; [now left | right; now right].
    + destruct (key_ltb (rec_id r) (rec_id x)).
      * intros [H|H]; [now left | now right].
      * intros [H|H]; [right; now left|].
        destruct (IH H) as [H'|H']; [now left | right; now right].
Qed.

Lemma db_put_has (r : FileRecord) (db : DB) : In r (db_put r db).
Proof. exact (proj1 (db_get_some _ _ _ (db_put_get r db))). Qed.

Lemma db_put_length_new (r : FileRecord) (db : DB) :
  db_get db (rec_id r) = None -> length (db_put r db) = S (length db).
Proof.
  unfold db_get. induction db as [|x db IH]; simpl; [reflexivity|].
  destruct (str_eqb (rec_id x) (rec_id r)); [discriminate|].
  intro H. destruct (key_ltb (rec_id r) (rec_id x)); simpl; [reflexivity|].
  now rewrite IH.
Qed.

Lemma ordered_inv (x : FileRecord) (db : DB) :
  ordered (x :: db) ->
  ordered db /\ (forall y, In y db -> key_ltb (rec_id x) (rec_id y) = true).
Proof.
  intro H. apply StronglySorted_inv in H as [H1 H2]. split; [exact H1|].
  now apply Forall_forall.
Qed.

Lemma ordered_cons (x : FileRecord) (db : DB) :
  ordered db -> (forall y, In y db -> key_ltb (rec_id x) (rec_id y) = true) ->
  ordered (x :: db).
Proof.
  intros H1 H2. constructor; [exact H1 | now apply Forall_forall].
Qed.

Lemma db_put_length_old (r : FileRecord) (db : DB) :
  ordered db -> db_get db (rec_id r) <> None ->
  length (db_put r db) = length db.
Proof.
  induction db as [|x db IH]; intros Ho Hg.
  - now contradiction Hg.
  - apply ordered_inv in Ho as [Ho Hx]. unfold db_get in Hg. simpl in *.
    destruct (str_eqb (rec_id x) (rec_id r)) eqn:E; [reflexivity|].
    destruct (key_ltb (rec_id r) (rec_id x)) eqn:L.
    + exfalso. destruct (find (fun r0 => str_eqb (rec_id r0) (rec_id r)) db)
        as [y|] eqn:F; [|now apply Hg].
      apply (db_get_some db) in F as [Hin Hid].
      pose proof (key_ltb_trans _ _ _ L (Hx y Hin)) as T.
      rewrite Hid, key_ltb_irrefl in T. discriminate.
    + simpl. f_equal. now apply IH.
Qed.

Lemma ordered_put (r : FileRecord) (db : DB) :
  ordered db -> ordered (db_put r db).
Proof.
  induction db as [|x db IH]; intro Ho; simpl.
  - apply ordered_cons; [constructor | intros y []].
  - apply ordered_inv in Ho as [Ho Hx].
    destruct (str_eqb (rec_id x) (rec_id r)) eqn:E.
    + apply str_eqb_eq in E. apply ordered_cons; [exact Ho|].
      intros y Hy. rewrite <- E. now apply Hx.
    + destruct (key_ltb (rec_id r) (rec_id x)) eqn:L.
      * apply ordered_cons; [now apply ordered_cons|].
        intros y [<-|Hy]; [exact L|].
        exact (key_ltb_trans _ _ _ L (Hx y Hy)).
      * apply ordered_cons; [now apply IH|].
        intros y Hy. apply db_put_in in Hy as [->|Hy]; [|now apply Hx].
        now apply key_ltb_total.
Qed.

Lemma StronglySorted_filter {A} (R : A -> A -> Prop) (f : A -> bool) (l : list A) :
  StronglySorted R l -> StronglySorted R (filter f l).
Proof.
  induction 1 as [|a l Hs IH Hf]; simpl; [constructor|].
  destruct (f a); [|exact IH].
  constructor; [exact IH|]. apply Forall_forall. intros y Hy.
  apply filter_In in Hy as [Hy _].
  now apply (proj1 (Forall_forall _ _) Hf).
Qed.

Lemma ordered_delete (i : jsstring) (db : DB) :
  ordered db -> ordered (db_delete i db).
Proof. apply StronglySorted_filter. Qed.

Lemma ordered_get (db : DB) (r : FileRecord) :
  ordered db -> In r db -> db_get db (rec_id r) = Some r.
Proof.
  unfold db_get. induction db as [|x db IH]; intros Ho Hin; [contradiction|].
  apply ordered_inv in Ho as [Ho Hx]. simpl.
  destruct Hin as [->|Hin]; [now rewrite str_eqb_refl|].
  destruct (str_eqb (rec_id x) (rec_id r)) eqn:E; [|now apply IH].
  apply str_eqb_eq in E. pose proof (Hx r Hin) as L.
  rewrite E, key_ltb_irrefl in L. discriminate.
Qed.

Lemma db_delete_get (i : jsstring) (db : DB) : db_get (db_delete i db) i = None.
Proof.
  apply db_get_none. intros r Hr E. unfold db_delete in Hr.
  apply filter_In in Hr as [_ Hr]. rewrite E, str_eqb_refl in Hr. discriminate.
Qed.

Lemma db_delete_get_other (i j : jsstring) (db : DB) :
  j <> i -> db_get (db_delete i db) j = db_get db j.
Proof.
  intro Hj. unfold db_get, db_delete. induction db as [|x db IH]; simpl;
    [reflexivity|].
  destruct (str_eqb (rec_id x) i) eqn:E; simpl.
  - apply str_eqb_eq in E.
    assert (Hx : str_eqb (rec_id x) j = false)
      by (apply str_eqb_neq; congruence).
    now rewrite Hx.
  - now rewrite IH.
Qed.

Lemma db_delete_absent (i : jsstring) (db : DB) :
  db_get db i = None -> db_delete i db = db.
Proof.
  intro H. unfold db_delete. apply forallb_filter_id. apply forallb_forall.
  intros r Hr. apply negb_true_iff, str_eqb_neq.
  exact (proj1 (db_get_none db i) H r Hr).
Qed.

Lemma insertNewest_perm (m : FileMeta) (l : list FileMeta) :
  Permutation (m :: l) (insertNewest m l).
Proof.
  induction l as [|x l IH]; simpl; [reflexivity|].
  destruct (fm_lastModified m <? fm_lastModified x)%Z; [|reflexivity].
  eapply perm_trans; [apply perm_swap|]. now apply perm_skip.
Qed.

Lemma sortNewest_perm (l : list FileMeta) : Permutation l (sortNewest l).
Proof.
  induction l as [|m l IH]; simpl; [constructor|].
  eapply perm_trans; [|apply insertNewest_perm]. now apply perm_skip.
Qed.

Lemma insertNewest_sorted (m : FileMeta) (l : list FileMeta) :
  newestFirst l -> newestFirst (insertNewest m l).
Proof.
  unfold newestFirst. induction 1 as [|x l Hs IH Hf]; simpl.
  - constructor; constructor.
  - destruct (fm_lastModified m <? fm_lastModified x)%Z eqn:E.
    + apply Z.ltb_lt in E. constructor; [exact IH|].
      apply Forall_forall. intros y Hy.
      apply (Permutation_in _ (Permutation_sym (insertNewest_perm m l))) in Hy.
      destruct Hy as [<-|Hy]; [lia|].
      now apply (proj1 (Forall_forall _ _) Hf).
    + apply Z.ltb_ge in E. constructor; [now constructor|].
      constructor; [exact E|].
      apply Forall_forall. intros y Hy.
      pose proof (proj1 (Forall_forall _ _) Hf y Hy) as Hy'. cbv beta in Hy'. lia.
Qed.

Lemma sortNewest_sorted (l : list FileMeta) : newestFirst (sortNewest l).
Proof.
  induction l as [|m l IH]; simpl; [constructor|]. now apply insertNewest_sorted.
Qed.

Lemma insertNewest_filter (t : Z) (m : FileMeta) (l : list FileMeta) :
  filter (modifiedAt t) (insertNewest m l) = filter (modifiedAt t) (m :: l).
Proof.
  induction l as [|x l IH]; [reflexivity|].
  cbn [insertNewest].
  destruct (fm_lastModified m <? fm_lastModified x)%Z eqn:E; [|reflexivity].
  apply Z.ltb_lt in E. cbn [filter] in *. rewrite IH. unfold modifiedAt.
  destruct (Z.eqb_spec (fm_lastModified m) t);
    destruct (Z.eqb_spec (fm_lastModified x) t); try reflexivity.
  lia.
Qed.

Lemma sortNewest_filter (t : Z) (l : list FileMeta) :
  filter (modifiedAt t) (sortNewest l) = filter (modifiedAt t) l.
Proof.
  induction l as [|m l IH]; [reflexivity|].
  cbn [sortNewest fold_right]. fold (sortNewest l).
  rewrite insertNewest_filter. cbn [filter]. now rewrite IH.
Qed.

Lemma getAllMetadata_in (db : DB) (m : FileMeta) :
  In m (Storage.getAllMetadata db) <-> exists r, In r db /\ rec_meta r = m.
Proof.
  unfold Storage.getAllMetadata. split.
  - intro H.
    apply (Permutation_in _ (Permutation_sym (sortNewest_perm _))) in H.
    apply in_map_iff in H as (r & Hr & Hin). now exists r.
  - intros (r & Hin & <-). apply (Permutation_in _ (sortNewest_perm _)).
    now apply in_map.
Qed.

(** X21.  [getAllMetadata] lists the metadata of every record of the store
    once, the newest first; records modified at the same time keep the order
    they have in the store. *)
Theorem getAllMetadata_newest_first (db : DB) :
  Permutation (map rec_meta db) (Storage.getAllMetadata db)
  /\ newestFirst (Storage.getAllMetadata db)
  /\ (forall t, filter (modifiedAt t) (Storage.getAllMetadata db)
                = filter (modifiedAt t) (map rec_meta db)).
Proof.
  unfold Storage.getAllMetadata. split; [apply sortNewest_perm|].
  split; [apply sortNewest_sorted|]. intro t. apply sortNewest_filter.
Qed.

Lemma saveFile_ok (rt : Runtime) (drawn : nat) (requestFails : bool)
  (file : BrowserFile)
  (category : option jsstring) (isDeviceInfo isDataMergeFile : bool)
  (parentFileId : option jsstring) (db : DB) (r : FileRecord) (db' : DB) :
  saveFile rt drawn requestFails file category isDeviceInfo isDataMergeFile
           parentFileId db
  = Ok (r, db') ->
  requestFails = false
  /\ db_get db (randomUUID rt drawn) = None
  /\ db' = db_put r db
  /\ rec_id r = randomUUID rt drawn
  /\ fm_name (rec_meta r) = bf_name file
  /\ fm_category (rec_meta r) = category
  /\ fm_isDeviceInfo (rec_meta r) = Some isDeviceInfo
  /\ fm_isDataMergeFile (rec_meta r) = Some isDataMergeFile
  /\ fm_parentFileId (rec_meta r) = parentFileId
  /\ rec_content r = bf_blob file
  /\ fm_type (rec_meta r) = bf_type file
  /\ fm_size (rec_meta r) = bf_size file
  /\ fm_lastModified (rec_meta r) = bf_lastModified file
  /\ fm_aiDescription (rec_meta r) = None
  /\ fm_aiTags (rec_meta r) = None.
Proof.
  unfold saveFile, db_add, bind. cbn [rec_id rec_meta fm_id].
  destruct requestFails; [discriminate|].
  destruct (db_get db (randomUUID rt drawn)) eqn:G; [discriminate|].
  intro H. inversion H. subst. cbn. repeat split.
Qed.

Lemma saveFile_thrown (rt : Runtime) (drawn : nat) (requestFails : bool)
  (file : BrowserFile)
  (category : option jsstring) (isDeviceInfo isDataMergeFile : bool)
  (parentFileId : option jsstring) (db : DB) :
  saveFile rt drawn requestFails file category isDeviceInfo isDataMergeFile
           parentFileId db
  = Thrown <->
  requestFails = true \/ db_get db (randomUUID rt drawn) <> None.
Proof.
  unfold saveFile, db_add, bind. cbn [rec_id rec_meta fm_id].
  destruct requestFails; [split; [now left | reflexivity]|].
  destruct (db_get db (randomUUID rt drawn)) eqn:G.
  - split; [intros _; right; discriminate | reflexivity].
  - split; [discriminate | intros [H|H]; [discriminate | now contradiction H]].
Qed.

(** X22.  [saveFile] throws when the request fails or the UUID it draws is
    the id of a record, and returns otherwise.  The record it returns
    carries the name, the type, the size, the time and the content of the
    file under that UUID, without a description or tags; [getFile] then
    returns this record for its id and what it returned before for every
    other id; the store has one record more and is still in the order of
    its keys. *)
Theorem saveFile_then_getFile (rt : Runtime) (drawn : nat) (requestFails : bool)
  (file : BrowserFile)
  (category : option jsstring) (isDeviceInfo isDataMergeFile : bool)
  (parentFileId : option jsstring) (db : DB) :
  (requestFails = true \/ Storage.getFile db (randomUUID rt drawn) <> None ->
   saveFile rt drawn requestFails file category isDeviceInfo isDataMergeFile
            parentFileId db = Thrown)
  /\ (requestFails = false -> Storage.getFile db (randomUUID rt drawn) = None ->
      exists r db',
        saveFile rt drawn requestFails file category isDeviceInfo isDataMergeFile
                 parentFileId db = Ok (r, db'))
  /\ (forall r db',
        saveFile rt drawn requestFails file category isDeviceInfo isDataMergeFile
                 parentFileId db = Ok (r, db') ->
        rec_id r = randomUUID rt drawn
        /\ fm_name (rec_meta r) = bf_name file
        /\ fm_type (rec_meta r) = bf_type file
        /\ fm_size (rec_meta r) = bf_size file
        /\ fm_lastModified (rec_meta r) = bf_lastModified file
        /\ fm_category (rec_meta r) = category
        /\ fm_aiDescription (rec_meta r) = None
        /\ fm_aiTags (rec_meta r) = None
        /\ rec_content r = bf_blob file
        /\ Storage.getFile db' (rec_id r) = Some r
        /\ (forall j, j <> rec_id r -> Storage.getFile db' j = Storage.getFile db j)
        /\ length db' = S (length db)
        /\ (ordered db -> ordered db')).
Proof.
  split; [|split].
  - intro H. now apply saveFile_thrown.
  - intros Hr Hg.
    destruct (saveFile rt drawn requestFails file category isDeviceInfo
                isDataMergeFile parentFileId db) as [[r db']|] eqn:E.
    + now exists r, db'.
    + apply saveFile_thrown in E as [E|E]; [congruence | now contradiction E].
  - intros r db' E.
    apply saveFile_ok in E
      as (_ & Hg & -> & Hid & Hn & Hcat & _ & _ & _ & Hc & Ht & Hs & Hl & Hd & Ha).
    unfold Storage.getFile.
    do 9 (split; [assumption|]).
    split; [apply (db_put_get _ db)|].
    split; [intros j Hj; now apply db_put_get_other|].
    split; [apply db_put_length_new; now rewrite Hid|].
    apply ordered_put.
Qed.

Lemma saveFile_then_getFile_witness :
  exists r db',
    saveFile rt0 7 false (browserFile "a.txt" "A" 2) None false false None
      [{| rec_meta := metaNamed "3" "b.txt" 1 None; rec_content := blobOf [] "B" |}]
    = Ok (r, db')
    /\ Storage.getFile db' (js "7") = Some r
    /\ Storage.getFile db' (js "3")
       = Some {| rec_meta := metaNamed "3" "b.txt" 1 None;
                 rec_content := blobOf [] "B" |}.
Proof.
  destruct (proj1 (proj2 (saveFile_then_getFile rt0 7 false
                            (browserFile "a.txt" "A" 2) None false false None
                            [{| rec_meta := metaNamed "3" "b.txt" 1 None;
                                rec_content := blobOf [] "B" |}]))
              eq_refl eq_refl) as (r & db' & E).
  exists r, db'. split; [exact E|].
  destruct (proj2 (proj2 (saveFile_then_getFile rt0 7 false
                            (browserFile "a.txt" "A" 2) None false false None
                            [{| rec_meta := metaNamed "3" "b.txt" 1 None;
                                rec_content := blobOf [] "B" |}]))
              r db' E)
    as (Hid & _ & _ & _ & _ & _ & _ & _ & _ & Hg & Hother & _).
  split.
  - rewrite <- Hg. f_equal. now rewrite Hid.
  - rewrite (Hother (js "3")); [reflexivity|]. rewrite Hid. discriminate.
Defined.

(** X23.  [updateMetadata] throws when there is no record with the id.
    Otherwise the record with the given fields written over its own, and
    with its content, is what [getFile] returns for the id of that new
    record, and [getFile] returns what it returned before for every other
    id.  When the id is not among the fields given, the new record has the
    id asked for and a store that is in the order of its keys keeps its
    number of records. *)
Theorem updateMetadata_spec (i : jsstring) (updates : PartialMeta) (db : DB) :
  (Storage.getFile db i = None -> updateMetadata i updates db = Thrown)
  /\ (forall file, Storage.getFile db i = Some file ->
        exists db',
          updateMetadata i updates db = Ok db'
          /\ Storage.getFile db' (over (p_id updates) i)
             = Some {| rec_meta := applyUpdates (rec_meta file) updates;
                       rec_content := rec_content file |}
          /\ (forall j, j <> over (p_id updates) i ->
                        Storage.getFile db' j = Storage.getFile db j)
          /\ (ordered db -> ordered db')
          /\ (p_id updates = None -> ordered db -> length db' = length db)).
Proof.
  unfold updateMetadata. split; [now intros ->|].
  intros file Hf. rewrite Hf. eexists. split; [reflexivity|].
  pose proof (db_get_some _ _ _ Hf) as [_ Hid].
  set (r' := {| rec_meta := applyUpdates (rec_meta file) updates;
                rec_content := rec_content file |}).
  assert (Hr : rec_id r' = over (p_id updates) i).
  { unfold r', rec_id in *. simpl. now rewrite Hid. }
  unfold Storage.getFile. rewrite <- Hr.
  split; [apply db_put_get|].
  split; [intros j Hj; now apply db_put_get_other|].
  split; [apply ordered_put|].
  intros Hn Ho. apply db_put_length_old; [exact Ho|].
  rewrite Hr, Hn. simpl. unfold Storage.getFile in Hf. now rewrite Hf.
Qed.

Lemma updateMetadata_spec_witness :
  exists db',
    updateMetadata (js "a") (setCategory (js "Pumps"))
      [{| rec_meta := metaNamed "a" "a.txt" 2 None; rec_content := blobOf [] "A" |}]
    = Ok db'
    /\ Storage.getFile db' (js "a")
       = Some {| rec_meta := metaNamed "a" "a.txt" 2 (Some (js "Pumps"));
                 rec_content := blobOf [] "A" |}.
Proof.
  destruct (proj2 (updateMetadata_spec (js "a") (setCategory (js "Pumps"))
                     [{| rec_meta := metaNamed "a" "a.txt" 2 None;
                         rec_content := blobOf [] "A" |}])
              {| rec_meta := metaNamed "a" "a.txt" 2 None;
                 rec_content := blobOf [] "A" |} eq_refl)
    as (db' & H1 & H2 & _).
  exists db'. split; [exact H1 | exact H2].
Defined.

(** X24.  After [deleteFile] there is no record with the id, and [getFile]
    returns what it returned before for every other id.  Deleting an id
    without a record changes nothing, and the store stays in the order of
    its keys. *)
Theorem deleteFile_spec (i : jsstring) (db : DB) :
  Storage.getFile (deleteFile i db) i = None
  /\ (forall j, j <> i ->
                Storage.getFile (deleteFile i db) j = Storage.getFile db j)
  /\ (Storage.getFile db i = None -> deleteFile i db = db)
  /\ (ordered db -> ordered (deleteFile i db)).
Proof.
  unfold Storage.getFile, deleteFile.
  split; [apply db_delete_get|].
  split; [intros j Hj; now apply db_delete_get_other|].
  split; [apply db_delete_absent | apply ordered_delete].
Qed.

Lemma deleteFile_spec_witness :
  Storage.getFile
    (deleteFile (js "a")
       [{| rec_meta := metaNamed "a" "a.txt" 2 None; rec_content := blobOf [] "A" |};
        {| rec_meta := metaNamed "b" "b.txt" 1 None; rec_content := blobOf [] "B" |}])
    (js "b")
  = Storage.getFile
      [{| rec_meta := metaNamed "a" "a.txt" 2 None; rec_content := blobOf [] "A" |};
       {| rec_meta := metaNamed "b" "b.txt" 1 None; rec_content := blobOf [] "B" |}]
      (js "b").
Proof.
  apply (proj1 (proj2 (deleteFile_spec (js "a") _)) (js "b")). discriminate.
Defined.

(* ================================================================== *)
(** * The saved data files of a target file *)
(* ================================================================== *)

Lemma parseAndLoadDataFile_name (rt : Runtime) (st : Store) (blob : Blob)
  (fileName : jsstring) (s : Session) :
  dataFileName (fst (parseAndLoadDataFile rt st blob fileName s)) = Some fileName.
Proof.
  unfold parseAndLoadDataFile.
  set (s0 := setMergeMessage MsgParsing
               (setMergeStatus processing (setDataFileName (Some fileName) s))).
  assert (Hproc : forall data,
             dataFileName (fst (processData rt st data s0)) = Some fileName).
  { intro data. now destruct (processData_loaded_state rt st data s0) as (-> & _). }
  destruct (hasExt [".json"; ".txt"; ".csv"]%string fileName).
  { destruct (blob_text blob); [apply Hproc | reflexivity]. }
  destruct (hasExt [".xlsx"; ".xls"]%string fileName).
  { destruct (XLSX rt) as [xlsx|]; [|reflexivity].
    destruct (blob_arrayBuffer blob) as [buffer|]; [|reflexivity].
    destruct (sheet_rows xlsx buffer); [apply Hproc | reflexivity]. }
  destruct (hasExt [".docx"; ".doc"]%string fileName).
  { destruct (mammoth rt) as [mm|]; [|reflexivity].
    destruct (blob_arrayBuffer blob) as [buffer|]; [|reflexivity].
    destruct (convertToHtml mm buffer); [apply Hproc | reflexivity]. }
  reflexivity.
Qed.

Lemma dataFilesOf_in (parentId : jsstring) (allFiles : list FileMeta) (m : FileMeta) :
  In m (dataFilesOf parentId allFiles)
  <-> In m allFiles /\ fm_isDataMergeFile m = Some true
      /\ fm_parentFileId m = Some parentId.
Proof.
  unfold dataFilesOf. rewrite filter_In. split.
  - intros [Hin H]. split; [exact Hin|].
    apply andb_true_iff in H as [H1 H2].
    destruct (fm_isDataMergeFile m) as [[|]|]; try discriminate.
    destruct (fm_parentFileId m) as [p|]; [|discriminate].
    apply str_eqb_eq in H2. now subst p.
  - intros (Hin & -> & ->). split; [exact Hin|]. simpl. apply str_eqb_refl.
Qed.

(** X25.  [initDataMerge] lists the data files saved for the target file,
    the newest first: each of them is a record of the store that is marked
    as a data file and whose parent is the target file.  Without such a file
    the session is left as it is.  Otherwise no file of the list is newer
    than the first one, and it is the first one that is loaded: its name
    becomes the name of the data file.  The store is not written. *)
Theorem initDataMerge_loads_newest (rt : Runtime) (parentId : jsstring) (v : View) :
  ordered (database v) ->
  let v' := fst (initDataMerge rt parentId v) in
  savedDataFiles v' = dataFilesOf parentId (Storage.getAllMetadata (database v))
  /\ database v' = database v
  /\ (forall m, In m (savedDataFiles v') ->
        fm_isDataMergeFile m = Some true /\ fm_parentFileId m = Some parentId
        /\ exists r, In r (database v) /\ rec_meta r = m)
  /\ match savedDataFiles v' with
     | [] => session v' = session v
     | newestFile :: rest =>
         (forall m, In m rest ->
                    (fm_lastModified m <= fm_lastModified newestFile)%Z)
         /\ dataFileName (session v') = Some (fm_name newestFile)
     end.
Proof.
  intros Ho v'.
  assert (Hs : savedDataFiles v'
               = dataFilesOf parentId (Storage.getAllMetadata (database v))).
  { subst v'. unfold initDataMerge.
    destruct (dataFilesOf parentId (Storage.getAllMetadata (database v)))
      as [|newest rest]; [reflexivity|].
    destruct (Storage.getFile (database v) (fm_id newest)); [|reflexivity].
    now destruct (parseAndLoadDataFile _ _ _ _ _). }
  assert (Hd : database v' = database v).
  { subst v'. unfold initDataMerge.
    destruct (dataFilesOf parentId (Storage.getAllMetadata (database v)))
      as [|newest rest]; [reflexivity|].
    destruct (Storage.getFile (database v) (fm_id newest)); [|reflexivity].
    now destruct (parseAndLoadDataFile _ _ _ _ _). }
  split; [exact Hs|]. split; [exact Hd|]. split.
  - intros m Hm. rewrite Hs in Hm. apply dataFilesOf_in in Hm as (Hin & H1 & H2).
    split; [exact H1|]. split; [exact H2|]. now apply getAllMetadata_in.
  - rewrite Hs.
    pose proof (StronglySorted_filter _
                  (fun f => flag (fm_isDataMergeFile f)
                            && match fm_parentFileId f with
                               | Some p => str_eqb p parentId
                               | None => false
                               end)
                  _ (sortNewest_sorted (map rec_meta (database v)))) as Hsorted.
    fold (Storage.getAllMetadata (database v)) in Hsorted.
    fold (dataFilesOf parentId (Storage.getAllMetadata (database v))) in Hsorted.
    subst v'. unfold initDataMerge.
    destruct (dataFilesOf parentId (Storage.getAllMetadata (database v)))
      as [|newest rest] eqn:Hl; [reflexivity|].
    apply StronglySorted_inv in Hsorted as [_ Hall]. split.
    + intros m Hm. now apply (proj1 (Forall_forall _ _) Hall).
    + assert (Hin : In newest (dataFilesOf parentId
                                 (Storage.getAllMetadata (database v))))
        by (rewrite Hl; now left).
      apply dataFilesOf_in in Hin as (Hin & _).
      apply getAllMetadata_in in Hin as (r & Hr & Hm).
      pose proof (ordered_get _ _ Ho Hr) as Hg.
      unfold rec_id in Hg. rewrite Hm in Hg.
      unfold Storage.getFile. rewrite Hg.
      pose proof (parseAndLoadDataFile_name rt (storeOfDB (database v))
                    (rec_content r) (fm_name (rec_meta r))
                    (setMergeMessage MsgLoadingDefault
                       (setMergeStatus processing (session v)))) as Hn.
      destruct (parseAndLoadDataFile _ _ _ _ _) as [s2 log].
      cbn [fst session] in *. now rewrite Hn, Hm.
Qed.

Lemma initDataMerge_loads_newest_witness :
  savedDataFiles
    (fst (initDataMerge rt0 (js "t1")
            {| session := emptySession; savedDataFiles := [];
               database := [dataFileRecord "d1" "old.csv" "A,1" "t1" 3;
                            dataFileRecord "d2" "new.csv" "A,2" "t1" 8] |}))
  = dataFilesOf (js "t1")
      (Storage.getAllMetadata
         [dataFileRecord "d1" "old.csv" "A,1" "t1" 3;
          dataFileRecord "d2" "new.csv" "A,2" "t1" 8]).
Proof.
  refine (proj1 (initDataMerge_loads_newest rt0 (js "t1")
                   {| session := emptySession; savedDataFiles := [];
                      database := [dataFileRecord "d1" "old.csv" "A,1" "t1" 3;
                                   dataFileRecord "d2" "new.csv" "A,2" "t1" 8] |}
                   _)).
  repeat constructor.
Defined.

(** X26.  [handleDataFileUpload] parses the file whether or not it could be
    saved: its name becomes the name of the data file.  When it is saved,
    its record is in the list of the data files of the target file, and in
    neither the files of the main view nor the device-information files.
    When it is not, the store and the list are as before. *)
Theorem handleDataFileUpload_spec (rt : Runtime) (parentId : jsstring)
  (requestFails : bool) (file : BrowserFile) (v : View) :
  let v' := fst (handleDataFileUpload rt parentId requestFails file v) in
  dataFileName (session v') = Some (bf_name file)
  /\ match saveFile rt (uuidsDrawn (session v)) requestFails file None false true
                    (Some parentId) (database v) with
     | Ok (r, db') =>
         database v' = db'
         /\ fm_name (rec_meta r) = bf_name file
         /\ In (rec_meta r) (savedDataFiles v')
         /\ ~ In (rec_meta r) (mainFiles (Storage.getAllMetadata db'))
         /\ ~ In (rec_meta r) (deviceInfoFiles (Storage.getAllMetadata db'))
     | Thrown =>
         database v' = database v /\ savedDataFiles v' = savedDataFiles v
     end.
Proof.
  intro v'. subst v'. unfold handleDataFileUpload.
  destruct (saveFile rt (uuidsDrawn (session v)) requestFails file None false true
              (Some parentId) (database v)) as [[r db']|] eqn:E.
  - pose proof (parseAndLoadDataFile_name rt (storeOfDB db') (bf_blob file)
                  (bf_name file) (drawUUIDs 1 (session v))) as Hn.
    destruct (parseAndLoadDataFile _ _ _ _ _) as [s1 log].
    cbn [fst session database savedDataFiles] in *.
    split; [exact Hn|]. split; [reflexivity|].
    apply saveFile_ok in E as (_ & _ & -> & _ & Hname & _ & Hdev & Hdm & Hp & _).
    split; [exact Hname|]. split; [|split].
    + apply dataFilesOf_in. split; [|now split].
      apply getAllMetadata_in. exists r. split; [apply db_put_has | reflexivity].
    + unfold mainFiles. rewrite filter_In, Hdm. simpl. intros [_ H]. discriminate.
    + unfold deviceInfoFiles. rewrite filter_In, Hdev. simpl.
      intros [_ H]. discriminate.
  - pose proof (parseAndLoadDataFile_name rt (storeOfDB (database v))
                  (bf_blob file) (bf_name file) (drawUUIDs 1 (session v))) as Hn.
    destruct (parseAndLoadDataFile _ _ _ _ _) as [s1 log].
    cbn [fst session database savedDataFiles] in *. now repeat split.
Qed.

Lemma find_id_in (i : jsstring) (l : list FileMeta) :
  find (fun f => str_eqb (fm_id f) i) l = None
  <-> (forall f, In f l -> fm_id f <> i).
Proof.
  split.
  - intros H f Hin E. pose proof (find_none _ _ H f Hin) as Hf. simpl in Hf.
    rewrite E, str_eqb_refl in Hf. discriminate.
  - intro H. induction l as [|x l IH]; simpl; [reflexivity|].
    destruct (str_eqb (fm_id x) i) eqn:E.
    + apply str_eqb_eq in E. exfalso. apply (H x); [now left | exact E].
    + apply IH. intros f Hf. apply H. now right.
Qed.

(** X27.  After [handleDeleteSavedFile] the store has no record with the id
    and the list of saved data files has no file with it.  The status, the
    message and the result document of the session are never touched.  The
    loaded pairs and the name of the data file are cleared exactly when the
    first file with the id in the list, as it was, has the name of the
    loaded data file; otherwise the session is as before. *)
Theorem handleDeleteSavedFile_spec (parentId i : jsstring) (v : View) :
  let v' := handleDeleteSavedFile parentId i v in
  Storage.getFile (database v') i = None
  /\ (forall m, In m (savedDataFiles v') -> fm_id m <> i)
  /\ mergeStatus (session v') = mergeStatus (session v)
  /\ mergeMessage (session v') = mergeMessage (session v)
  /\ resultFile (session v') = resultFile (session v)
  /\ (forall f, find (fun f => str_eqb (fm_id f) i) (savedDataFiles v) = Some f ->
                dataFileName (session v) = Some (fm_name f) ->
                dataFileName (session v') = None
                /\ keyValuePairs (session v') = [])
  /\ ((forall f, In f (savedDataFiles v) -> fm_id f <> i) ->
      session v' = session v)
  /\ (forall f, find (fun f => str_eqb (fm_id f) i) (savedDataFiles v) = Some f ->
                dataFileName (session v) <> Some (fm_name f) ->
                session v' = session v).
Proof.
  intro v'. subst v'. unfold handleDeleteSavedFile.
  cbn [database savedDataFiles session].
  split; [apply db_delete_get|]. split.
  { intros m Hm E. apply dataFilesOf_in in Hm as (Hin & _).
    apply getAllMetadata_in in Hin as (r & Hr & Hmeta).
    unfold deleteFile, db_delete in Hr. apply filter_In in Hr as [_ Hr].
    unfold rec_id in Hr. rewrite Hmeta, E, str_eqb_refl in Hr. discriminate. }
  destruct (find (fun f => str_eqb (fm_id f) i) (savedDataFiles v)) as [f|] eqn:F.
  - destruct (dataFileName (session v)) as [n|] eqn:D.
    + destruct (str_eqb (fm_name f) n) eqn:E.
      * apply str_eqb_eq in E. do 3 (split; [reflexivity|]).
        split; [intros f' _ _; now split|]. split.
        -- intro H. apply find_id_in in H. congruence.
        -- intros f' Hf' Hn. injection Hf' as <-. congruence.
      * apply str_eqb_neq in E. do 3 (split; [reflexivity|]).
        split; [intros f' Hf' Hn; injection Hf' as <-; congruence|].
        now split.
    + do 3 (split; [reflexivity|]).
      split; [intros f' _ Hn; discriminate|]. now split.
  - do 3 (split; [reflexivity|]).
    split; [intros f' Hf'; discriminate|]. now split.
Qed.

Lemma handleDeleteSavedFile_spec_witness :
  session (handleDeleteSavedFile (js "t1") (js "d1")
             {| session := setDataFileName (Some (js "data.csv")) emptySession;
                savedDataFiles := []; database := [] |})
  = setDataFileName (Some (js "data.csv")) emptySession.
Proof.
  apply (proj1 (proj2 (proj2 (proj2 (proj2 (proj2 (proj2
           (handleDeleteSavedFile_spec (js "t1") (js "d1")
              {| session := setDataFileName (Some (js "data.csv")) emptySession;
                 savedDataFiles := []; database := [] |})))))))).
  intros f [].
Defined.

(* ================================================================== *)
(** * The upload dialog *)
(* ================================================================== *)

Lemma removeFile_from_past {A} (i index : nat) (prev : list A) :
  index < i -> removeFile_from i index prev = prev.
Proof.
  revert i. induction prev as [|x prev IH]; intros i Hi; simpl; [reflexivity|].
  destruct (Nat.eqb_spec i index) as [E|E]; [lia|]. simpl.
  f_equal. apply IH. lia.
Qed.

Lemma removeFile_from_spec {A} (i index : nat) (prev : list A) :
  i <= index ->
  removeFile_from i index prev
  = firstn (index - i) prev ++ skipn (S (index - i)) prev.
Proof.
  revert i. induction prev as [|x prev IH]; intros i Hi.
  - now rewrite firstn_nil, skipn_nil.
  - cbn [removeFile_from]. destruct (Nat.eqb_spec i index) as [E|E]; cbn [negb].
    + subst i. rewrite Nat.sub_diag. cbn [firstn skipn app].
      apply removeFile_from_past. lia.
    + replace (index - i) with (S (index - S i)) by lia.
      cbn [firstn skipn app]. f_equal. apply IH. lia.
Qed.

(** X28.  [removeFile] takes out the file at the index and keeps the files
    before and after it in their order; an index past the end of the list
    leaves the list as it is. *)
Theorem removeFile_spec {A} (index : nat) (prev : list A) :
  removeFile index prev = firstn index prev ++ skipn (S index) prev
  /\ (length prev <= index -> removeFile index prev = prev)
  /\ (index < length prev -> S (length (removeFile index prev)) = length prev).
Proof.
  assert (H : removeFile index prev = firstn index prev ++ skipn (S index) prev).
  { unfold removeFile. rewrite removeFile_from_spec by lia.
    now rewrite Nat.sub_0_r. }
  split; [exact H|]. rewrite H. split.
  - intro Hl. rewrite firstn_all2 by exact Hl. rewrite skipn_all2 by lia.
    apply app_nil_r.
  - intro Hl. rewrite length_app, length_firstn, length_skipn. lia.
Qed.

Lemma removeFile_spec_witness :
  S (length (removeFile 1 [js "a.txt"; js "b.txt"; js "c.txt"])) = 3.
Proof.
  apply (proj2 (proj2 (removeFile_spec 1 [js "a.txt"; js "b.txt"; js "c.txt"]))).
  simpl. lia.
Defined.

Lemma saveAll_spec (rt : Runtime) (requestFails : nat -> bool) (c : jsstring)
  (files : list BrowserFile) :
  forall drawn db db' drawn' failed,
    saveAll rt drawn requestFails c files db = (db', drawn', failed) ->
    exists k,
      k <= length files
      /\ length db' = length db + k
      /\ drawn' = drawn + k + (if failed then 1 else 0)
      /\ (failed = false -> k = length files)
      /\ (failed = true ->
          k < length files
          /\ (requestFails (drawn + k) = true
              \/ db_get db' (randomUUID rt (drawn + k)) <> None))
      /\ (forall j r, db_get db j = Some r -> db_get db' j = Some r)
      /\ (forall n file, nth_error files n = Some file -> n < k ->
            exists r, db_get db' (randomUUID rt (drawn + n)) = Some r
                      /\ fm_name (rec_meta r) = bf_name file
                      /\ fm_category (rec_meta r) = Some c
                      /\ fm_isDataMergeFile (rec_meta r) = Some false
                      /\ rec_content r = bf_blob file).
Proof.
  induction files as [|file files IH]; intros drawn db db' drawn' failed H.
  - simpl in H. injection H as <- <- <-. exists 0. simpl.
    split; [lia|]. split; [lia|]. split; [lia|]. split; [reflexivity|].
    split; [discriminate|]. split; [auto|]. intros n f _ Hn. lia.
  - cbn [saveAll] in H.
    destruct (saveFile rt drawn (requestFails drawn) file (Some c) false false
                None db) as [[r db1]|] eqn:E.
    + apply saveFile_ok in E
        as (_ & Hg & -> & Hid & Hname & Hcat & _ & Hdm & _ & Hcont & _).
      destruct (IH _ _ _ _ _ H) as (k & Hk & Hlen & Hdr & Hok & Hfail & Hkeep & Hnth).
      assert (Hold : forall j r0, db_get db j = Some r0 -> db_get db' j = Some r0).
      { intros j r0 Hj. apply Hkeep. rewrite db_put_get_other; [exact Hj|].
        intro Ej. rewrite Ej, Hid, Hg in Hj. discriminate. }
      exists (S k). cbn [length].
      split; [lia|].
      split; [rewrite Hlen, db_put_length_new by (now rewrite Hid); lia|].
      split; [lia|]. split; [intro Hf; rewrite (Hok Hf); reflexivity|].
      split.
      { intro Hf. destruct (Hfail Hf) as [Hlt Hcause]. split; [lia|].
        now replace (drawn + S k) with (S drawn + k) by lia. }
      split; [exact Hold|].
      intros [|n] f Hf Hn.
      * injection Hf as <-. exists r. rewrite Nat.add_0_r.
        split; [|now repeat split].
        apply Hkeep. rewrite <- Hid. apply db_put_get.
      * replace (drawn + S n) with (S drawn + n) by lia.
        apply Hnth; [exact Hf | lia].
    + injection H as <- <- <-. exists 0. cbn [length].
      apply saveFile_thrown in E.
      split; [lia|]. split; [lia|]. split; [lia|]. split; [discriminate|].
      split; [intros _; split; [lia | now rewrite Nat.add_0_r]|].
      split; [auto|]. intros n f _ Hn. lia.
Qed.

(** X29.  [handleUpload] does nothing without a category.  With a category
    the files are saved in the order of the selection until a save throws:
    [k] files are saved, each under the UUID it drew, with its name, its
    content and the category, and the main view lists it; the store has
    [k] records more, and no record that was in it is lost or changed.
    When no save throws, [k] is the number of selected files and the dialog
    is closed with its selection and category cleared.  When a save throws,
    it is the save after the [k] first ones (its request failed or its UUID
    was taken), the alert is shown, the dialog keeps its selection and
    category, and the [k] files saved before stay in the store. *)
Theorem handleUpload_spec (rt : Runtime) (drawn : nat)
  (requestFails : nat -> bool) (d : Dialog) (db : DB) :
  (selectedCategory d = [] ->
   handleUpload rt drawn requestFails d db = (d, db, drawn, false))
  /\ (forall d' db' drawn' alerted,
        handleUpload rt drawn requestFails d db = (d', db', drawn', alerted) ->
        selectedCategory d <> [] ->
        exists k,
          k <= length (selectedFiles d)
          /\ length db' = length db + k
          /\ (forall j r, Storage.getFile db j = Some r ->
                          Storage.getFile db' j = Some r)
          /\ (forall n file,
                nth_error (selectedFiles d) n = Some file -> n < k ->
                exists r,
                  Storage.getFile db' (randomUUID rt (drawn + n)) = Some r
                  /\ fm_name (rec_meta r) = bf_name file
                  /\ rec_content r = bf_blob file
                  /\ fm_category (rec_meta r) = Some (selectedCategory d)
                  /\ In (rec_meta r) (mainFiles (Storage.getAllMetadata db')))
          /\ (alerted = false ->
              k = length (selectedFiles d)
              /\ d' = {| selectedFiles := []; selectedCategory := [];
                         isOpen := false |}
              /\ drawn' = drawn + k)
          /\ (alerted = true ->
              k < length (selectedFiles d)
              /\ d' = d
              /\ drawn' = drawn + k + 1
              /\ (requestFails (drawn + k) = true
                  \/ Storage.getFile db' (randomUUID rt (drawn + k)) <> None))).
Proof.
  unfold handleUpload, Storage.getFile. split.
  - intros ->. reflexivity.
  - intros d' db' drawn' alerted H Hcat.
    apply str_eqb_neq in Hcat. rewrite Hcat in H.
    destruct (saveAll rt drawn requestFails (selectedCategory d) (selectedFiles d) db)
      as [[db1 drawn1] failed] eqn:S.
    apply saveAll_spec in S
      as (k & Hk & Hlen & Hdr & Hok & Hfail & Hkeep & Hnth).
    exists k.
    assert (Hdb : db1 = db' /\ drawn1 = drawn' /\ failed = alerted
                  /\ d' = if failed
                          then d
                          else {| selectedFiles := []; selectedCategory := [];
                                  isOpen := false |}).
    { destruct failed; injection H as <- <- <- <-; now repeat split. }
    destruct Hdb as (<- & <- & <- & Hd').
    split; [exact Hk|]. split; [exact Hlen|]. split; [exact Hkeep|].
    split.
    { intros n file Hn Hlt.
      destruct (Hnth n file Hn Hlt) as (r & Hg & Hname & Hc & Hdm & Hcont).
      exists r. split; [exact Hg|]. split; [exact Hname|]. split; [exact Hcont|].
      split; [exact Hc|].
      apply db_get_some in Hg as [Hr _].
      unfold mainFiles. apply filter_In. split.
      - apply getAllMetadata_in. now exists r.
      - now rewrite Hdm. }
    split.
    + intros ->. specialize (Hok eq_refl). split; [exact Hok|].
      split; [exact Hd' | lia].
    + intros ->. destruct (Hfail eq_refl) as [Hlt Hcause].
      split; [exact Hlt|]. split; [exact Hd'|]. split; [lia | exact Hcause].
Qed.

Lemma handleUpload_spec_witness :
  exists k,
    k < 3
    /\ length (snd (fst (fst (handleUpload rt0 0 (fun n => n =? 1)
                                uploadDialog [])))) = 0 + k
    /\ (exists r,
          Storage.getFile
            (snd (fst (fst (handleUpload rt0 0 (fun n => n =? 1) uploadDialog []))))
            (randomUUID rt0 (0 + 0)) = Some r
          /\ fm_name (rec_meta r) = js "a.txt").
Proof.
  destruct (proj2 (handleUpload_spec rt0 0 (fun n => n =? 1) uploadDialog [])
              uploadDialog
              (snd (fst (fst (handleUpload rt0 0 (fun n => n =? 1) uploadDialog []))))
              2 true)
    as (k & _ & Hlen & _ & Hnth & _ & Hfail).
  - vm_compute. reflexivity.
  - discriminate.
  - destruct (Hfail eq_refl) as (Hlt & _ & Hdr & _).
    exists k. split; [exact Hlt|]. split; [exact Hlen|].
    destruct (Hnth 0 (browserFile "a.txt" "A" 2) eq_refl ltac:(lia))
      as (r & Hg & Hname & _).
    exists r. now split.
Defined.

(* ================================================================== *)
(** * The user accounts *)
(* ================================================================== *)

Lemma withFields_self (u : UserAccount) :
  withFields u {| form_name := user_name u; form_role := role u;
                  form_status := user_status u; form_password := [] |} = u.
Proof. now destruct u. Qed.

Lemma user_id_unique (us : list UserAccount) (x y : UserAccount) :
  NoDup (map user_id us) -> In x us -> In y us -> user_id x = user_id y -> x = y.
Proof.
  induction us as [|z us IH]; intros Hn Hx Hy E; [contradiction|].
  simpl in Hn. apply NoDup_cons_iff in Hn as [Hz Hn].
  destruct Hx as [->|Hx], Hy as [->|Hy].
  - reflexivity.
  - exfalso. apply Hz. rewrite E. now apply in_map.
  - exfalso. apply Hz. rewrite <- E. now apply in_map.
  - now apply IH.
Qed.

(** X30.  Saving the dialog of an existing account keeps the ids, the
    last-active texts and the order of the accounts, and closes the dialog;
    the password of the form is stored nowhere.  When the ids of the
    accounts differ, opening the dialog for an account of the list and
    saving it without a change leaves the list as it is.  Saving the dialog
    of a new account appends an account that was never active, and when its
    UUID is the id of no account, deleting that account gives the list back. *)
Theorem handleSaveUser_round_trips (rt : Runtime) (p : Page) :
  (forall e, editingUser p = Some e ->
             map user_id (users (handleSaveUser rt p)) = map user_id (users p)
             /\ map lastActive (users (handleSaveUser rt p))
                = map lastActive (users p)
             /\ isUserModalOpen (handleSaveUser rt p) = false)
  /\ (forall u, NoDup (map user_id (users p)) -> In u (users p) ->
                users (handleSaveUser rt (handleOpenModal (Some u) p)) = users p)
  /\ (editingUser p = None ->
      exists new,
        users (handleSaveUser rt p) = users p ++ [new]
        /\ user_id new = randomUUID rt (usersDrawn p)
        /\ user_name new = form_name (formData p)
        /\ lastActive new = js "Never"
        /\ ((forall x, In x (users p) -> user_id x <> user_id new) ->
            users (confirmDeleteUser (handleDeleteClick new (handleSaveUser rt p)))
            = users p)).
Proof.
  split; [|split].
  - intros e He. unfold handleSaveUser. rewrite He. cbn [users isUserModalOpen].
    rewrite !map_map. split; [|split; [|reflexivity]].
    + apply map_ext. intro u. now destruct (str_eqb (user_id u) (user_id e)).
    + apply map_ext. intro u. now destruct (str_eqb (user_id u) (user_id e)).
  - intros u Hn Hu. unfold handleSaveUser, handleOpenModal.
    cbn [editingUser users formData].
    rewrite <- (map_id (users p)) at 2. apply map_ext_in. intros x Hx.
    destruct (str_eqb (user_id x) (user_id u)) eqn:E; [|reflexivity].
    apply str_eqb_eq in E.
    rewrite (user_id_unique _ _ _ Hn Hx Hu E). apply withFields_self.
  - intro He. unfold handleSaveUser. rewrite He. cbn [users].
    eexists. split; [reflexivity|]. cbn [user_id user_name lastActive].
    do 3 (split; [reflexivity|]).
    intro Hfresh. unfold confirmDeleteUser, handleDeleteClick.
    cbn [userToDelete users user_id].
    rewrite filter_app. cbn [filter user_id]. rewrite str_eqb_refl. cbn [negb].
    rewrite app_nil_r. apply forallb_filter_id. apply forallb_forall.
    intros x Hx. apply negb_true_iff, str_eqb_neq. now apply Hfresh.
Qed.

Lemma handleSaveUser_round_trips_witness :
  users (handleSaveUser rt0
           (handleOpenModal (Some {| user_id := js "1"; user_name := js "admin";
                                     role := Administrator; user_status := Active;
                                     lastActive := js "Just now" |})
              initialPage))
  = users initialPage.
Proof.
  apply (proj1 (proj2 (handleSaveUser_round_trips rt0 initialPage))).
  - simpl. constructor; [intros [] | constructor].
  - simpl. left. reflexivity.
Defined.
